(** * The streamable-HTTP / SSE transport of the HDF5 MCP server

    A shallow embedding of [hdf5_mcp/transports/sse_transport.py]:
    the origin, protocol-version and session gates, the message
    classifier, the per-connection event log with its replay, and the
    start/stop life cycle of [SSETransport].

    Python objects that are mutated while shared (the [SSEClient]
    objects and the history lists held in [event_history]) live in
    explicit object stores and are passed by reference. *)

From Stdlib Require Import Ascii Decimal DecimalString DecimalNat.
From stdpp Require Import gmap strings list fin_maps.

Open Scope string_scope.
Open Scope list_scope.

#[local] Set Warnings "-register-all".

(** ** Strings as Python uses them *)

(** [s.startswith(p)] *)
Definition startswith (s p : string) : bool := String.prefix p s.

(** [sub in s] on two strings: substring search. *)
Fixpoint str_contains (sub s : string) : bool :=
  String.prefix sub s ||
  match s with
  | EmptyString => false
  | String _ rest => str_contains sub rest
  end.

(** [str(n)] / [f"{n}"] for a non-negative int. *)
Definition str_of_nat (n : nat) : string :=
  NilZero.string_of_uint (Nat.to_uint n).

(** Truth value of an [Optional[str]]: [None] and [''] are falsy. *)
Definition truthy (o : option string) : bool :=
  match o with
  | None => false
  | Some s => negb (String.eqb s "")
  end.

(** ** Decoded JSON values *)

Inductive json : Type :=
| JNull
| JBool (b : bool)
| JNum (n : Z)
| JStr (s : string)
| JArr (items : list json)
| JObj (fields : list (string * json)).

Definition is_str (s : string) (j : json) : bool :=
  match j with
  | JStr t => String.eqb t s
  | _ => false
  end.

(** [d.get(k)] on a decoded object. *)
Fixpoint obj_get (k : string) (fields : list (string * json)) : option json :=
  match fields with
  | [] => None
  | (k', v) :: rest => if String.eqb k' k then Some v else obj_get k rest
  end.

(** [k in d] on a decoded object. *)
Definition obj_has (k : string) (fields : list (string * json)) : bool :=
  match obj_get k fields with
  | Some _ => true
  | None => false
  end.

(** The three envelope classes of [mcp.types]. *)
Inductive JSONRPCMessage : Type :=
| JSONRPCRequest (d : list (string * json))
| JSONRPCNotification (d : list (string * json))
| JSONRPCResponse (d : list (string * json)).

Definition is_JSONRPCRequest (m : JSONRPCMessage) : bool :=
  match m with JSONRPCRequest _ => true | _ => false end.
Definition is_JSONRPCNotification (m : JSONRPCMessage) : bool :=
  match m with JSONRPCNotification _ => true | _ => false end.
Definition is_JSONRPCResponse (m : JSONRPCMessage) : bool :=
  match m with JSONRPCResponse _ => true | _ => false end.

(** What the transport takes from its libraries: the pydantic
    validation of the three envelope classes (whether the constructor
    call returns or raises), the serialisation of an outgoing message
    ([json.dumps] of its [model_dump()]), and [uuid.uuid4()] as the
    n-th identifier drawn. *)
Class Library := {
  request_valid : list (string * json) -> bool;
  notification_valid : list (string * json) -> bool;
  response_valid : list (string * json) -> bool;
  dump_message : JSONRPCMessage -> string;
  uuid4 : nat -> string
}.

(** ** HTTP requests and responses *)

(** The headers the handlers read, and the outcome of
    [await request.json()]: the text of the exception, or the value. *)
Record Request := {
  h_origin : option string;
  h_protocol_version : option string;
  h_content_type : option string;
  h_session_id : option string;
  h_accept : option string;
  h_last_event_id : option string;
  body : string + json
}.

(** A record written to an event stream:
    [id: <ev_id>\nevent: <ev_type>\ndata: <ev_data>\n\n]. *)
Record SSEEvent := {
  ev_id : string;
  ev_type : string;
  ev_data : json
}.

(** [web.StreamResponse]: the session header, what was written so far,
    whether the underlying transport is closing, and whether
    [write_eof] was called. *)
Record StreamResponse := {
  resp_session : option string;
  written : list SSEEvent;
  closing : bool;
  eof : bool
}.

Inductive Response : Type :=
| PlainResponse (status : nat) (text : string)
| JsonReceived (message_count : nat) (session_header : option string)
| Streaming (client : nat).

Definition status_of (r : Response) : nat :=
  match r with
  | PlainResponse s _ => s
  | JsonReceived _ _ => 200
  | Streaming _ => 200
  end.

(** ** The transport's data *)

Definition SUPPORTED_VERSIONS : list string :=
  ["2025-06-18"; "2025-03-26"; "2024-11-05"].

Record SessionInfo := {
  session_id : string;
  created_at : Z;
  last_accessed : Z;
  client_info : list (string * json)
}.

Record SSEClient := {
  client_id : string;
  response : StreamResponse;
  queue : list (string * json);
  last_ping : Z;
  client_session : option string;
  event_counter : nat
}.

Global Instance SSEClient_inhabited : Inhabited SSEClient :=
  populate {| client_id := ""; response := Build_StreamResponse None [] true true;
              queue := []; last_ping := 0; client_session := None;
              event_counter := 0 |}.

(** Modelled from the spec: the counters that [BaseTransport] of
    [transports/base.py] keeps in [self.stats] and that /stats
    reports (messages received, batches received, errors). *)
Record Stats := {
  messages_received : nat;
  batches_received : nat;
  errors : nat
}.

(** Modelled from the spec: [TransportConfig] of [transports/base.py];
    of its fields only the bind host and the port, which the
    transport reads, are kept. *)
Record TransportConfig := {
  cfg_host : option string;
  cfg_port : N
}.

(** An [SSETransport] instance.  [clients] and [event_history] hold
    references: [clients] into the store [client_objs] of [SSEClient]
    objects, [event_history] into the store [lists] of history lists.
    [clock] is the reading of the event loop's clock and [uuids_drawn]
    counts the calls of [uuid.uuid4()]. *)
Record Transport := {
  config : TransportConfig;
  running : bool;
  serving : bool;
  ping_task : bool;
  clients : gmap string nat;
  client_objs : list SSEClient;
  sessions : gmap string SessionInfo;
  event_history : gmap string nat;
  lists : list (list (string * json));
  client_counter : nat;
  stats : Stats;
  clock : Z;
  uuids_drawn : nat
}.

Definition with_running (b : bool) (t : Transport) : Transport :=
  Build_Transport (config t) b (serving t) (ping_task t) (clients t)
    (client_objs t) (sessions t) (event_history t) (lists t) (client_counter t)
    (stats t) (clock t) (uuids_drawn t).

Definition with_serving (b : bool) (t : Transport) : Transport :=
  Build_Transport (config t) (running t) b (ping_task t) (clients t)
    (client_objs t) (sessions t) (event_history t) (lists t) (client_counter t)
    (stats t) (clock t) (uuids_drawn t).

Definition with_ping_task (b : bool) (t : Transport) : Transport :=
  Build_Transport (config t) (running t) (serving t) b (clients t)
    (client_objs t) (sessions t) (event_history t) (lists t) (client_counter t)
    (stats t) (clock t) (uuids_drawn t).

Definition with_clients (f : gmap string nat -> gmap string nat) (t : Transport) : Transport :=
  Build_Transport (config t) (running t) (serving t) (ping_task t) (f (clients t))
    (client_objs t) (sessions t) (event_history t) (lists t) (client_counter t)
    (stats t) (clock t) (uuids_drawn t).

Definition with_client_objs (f : list SSEClient -> list SSEClient) (t : Transport) : Transport :=
  Build_Transport (config t) (running t) (serving t) (ping_task t) (clients t)
    (f (client_objs t)) (sessions t) (event_history t) (lists t) (client_counter t)
    (stats t) (clock t) (uuids_drawn t).

Definition with_sessions (f : gmap string SessionInfo -> gmap string SessionInfo)
    (t : Transport) : Transport :=
  Build_Transport (config t) (running t) (serving t) (ping_task t) (clients t)
    (client_objs t) (f (sessions t)) (event_history t) (lists t) (client_counter t)
    (stats t) (clock t) (uuids_drawn t).

Definition with_event_history (f : gmap string nat -> gmap string nat) (t : Transport) : Transport :=
  Build_Transport (config t) (running t) (serving t) (ping_task t) (clients t)
    (client_objs t) (sessions t) (f (event_history t)) (lists t) (client_counter t)
    (stats t) (clock t) (uuids_drawn t).

Definition with_lists (f : list (list (string * json)) -> list (list (string * json)))
    (t : Transport) : Transport :=
  Build_Transport (config t) (running t) (serving t) (ping_task t) (clients t)
    (client_objs t) (sessions t) (event_history t) (f (lists t)) (client_counter t)
    (stats t) (clock t) (uuids_drawn t).

Definition with_client_counter (n : nat) (t : Transport) : Transport :=
  Build_Transport (config t) (running t) (serving t) (ping_task t) (clients t)
    (client_objs t) (sessions t) (event_history t) (lists t) n
    (stats t) (clock t) (uuids_drawn t).

Definition with_stats (f : Stats -> Stats) (t : Transport) : Transport :=
  Build_Transport (config t) (running t) (serving t) (ping_task t) (clients t)
    (client_objs t) (sessions t) (event_history t) (lists t) (client_counter t)
    (f (stats t)) (clock t) (uuids_drawn t).

Definition with_uuids_drawn (n : nat) (t : Transport) : Transport :=
  Build_Transport (config t) (running t) (serving t) (ping_task t) (clients t)
    (client_objs t) (sessions t) (event_history t) (lists t) (client_counter t)
    (stats t) (clock t) n.

(** Dereferencing. *)
Definition client_at (t : Transport) (c : nat) : SSEClient := client_objs t !!! c.
Definition list_at (t : Transport) (l : nat) : list (string * json) :=
  default [] (lists t !! l).

(** The event log of a connection, as a value: the contents of the
    list its [event_history] entry refers to. *)
Definition log_of (t : Transport) (cid : string) : list (string * json) :=
  match event_history t !! cid with
  | Some l => list_at t l
  | None => []
  end.

(** ** Construction and life cycle *)

Definition default_config : TransportConfig :=
  {| cfg_host := Some "127.0.0.1"; cfg_port := 8765%N |}.

(** [config.host in ['0.0.0.0', None]] *)
Definition host_is_wildcard (h : option string) : bool :=
  match h with
  | None => true
  | Some s => String.eqb s "0.0.0.0"
  end.

(** [SSETransport.__init__].  The override assigns to the caller's
    config object, which is the one the transport keeps; the base
    class leaves the transport not running, with its counters at
    zero. *)
Definition __init__ (cfg : option TransportConfig) : Transport :=
  let config := match cfg with None => default_config | Some c => c end in
  let config :=
    if host_is_wildcard (cfg_host config)
    then {| cfg_host := Some "127.0.0.1"; cfg_port := cfg_port config |}
    else config in
  {| config := config; running := false; serving := false; ping_task := false;
     clients := ∅; client_objs := []; sessions := ∅;
     event_history := ∅; lists := []; client_counter := 0;
     stats := {| messages_received := 0; batches_received := 0; errors := 0 |};
     clock := 0; uuids_drawn := 0 |}.

(** [start]: the server is set up and listening, the flag is raised
    and the ping task is created.  No table is touched. *)
Definition start (t : Transport) : Transport :=
  with_ping_task true (with_running true (with_serving true t)).

(** ** Outcomes of the coroutines

    A call returns, raises, or (for the one loop whose bound depends
    on the heap) is cut off; [replay_terminates] shows the last case
    never arises. *)

Inductive outcome (A : Type) : Type :=
| Returned (a : A)
| Raised (e : string)
| Diverged.
Arguments Returned {A} a.
Arguments Raised {A} e.
Arguments Diverged {A}.

Definition M (A : Type) : Type := Transport -> outcome A * Transport.

Global Instance M_ret : MRet M := fun A a t => (Returned a, t).
Global Instance M_bind : MBind M := fun A B k m t =>
  match m t with
  | (Returned a, t') => k a t'
  | (Raised e, t') => (Raised e, t')
  | (Diverged, t') => (Diverged, t')
  end.
Definition modify (f : Transport -> Transport) : M unit := fun t => (Returned tt, f t).

(** ** Security gates *)

Definition allowed_prefixes : list string :=
  ["http://localhost"; "http://127.0.0.1"; "https://localhost"; "https://127.0.0.1"].

Definition _validate_origin (req : Request) : bool :=
  let origin := h_origin req in
  if negb (truthy origin) then true
  else existsb (startswith (default "" origin)) allowed_prefixes.

Definition _validate_protocol_version (req : Request) : bool * string :=
  let protocol_version := default "2025-03-26" (h_protocol_version req) in
  if negb (bool_decide (protocol_version ∈ SUPPORTED_VERSIONS))
  then (false, "Unsupported protocol version: " +:+ protocol_version)
  else (true, protocol_version).

(** ** Session registry *)

Definition touch (now : Z) (s : SessionInfo) : SessionInfo :=
  {| session_id := session_id s; created_at := created_at s;
     last_accessed := now; client_info := client_info s |}.

Definition _validate_session (sid : option string) (t : Transport) : bool * Transport :=
  match sid with
  | None => (false, t)
  | Some s =>
      if negb (truthy sid) then (false, t)
      else match sessions t !! s with
           | None => (false, t)
           | Some info => (true, with_sessions (insert s (touch (clock t) info)) t)
           end
  end.

Definition _terminate_session (sid : string) (t : Transport) : Transport :=
  match sessions t !! sid with
  | Some _ => with_sessions (delete sid) t
  | None => t
  end.

(** ** Event ids and the event log *)

Definition set_event_counter (n : nat) (c : SSEClient) : SSEClient :=
  {| client_id := client_id c; response := response c; queue := queue c;
     last_ping := last_ping c; client_session := client_session c;
     event_counter := n |}.

Definition set_response (r : StreamResponse) (c : SSEClient) : SSEClient :=
  {| client_id := client_id c; response := r; queue := queue c;
     last_ping := last_ping c; client_session := client_session c;
     event_counter := event_counter c |}.

Definition set_queue (q : list (string * json)) (c : SSEClient) : SSEClient :=
  {| client_id := client_id c; response := response c; queue := q;
     last_ping := last_ping c; client_session := client_session c;
     event_counter := event_counter c |}.

Definition set_last_ping (p : Z) (c : SSEClient) : SSEClient :=
  {| client_id := client_id c; response := response c; queue := queue c;
     last_ping := p; client_session := client_session c;
     event_counter := event_counter c |}.

(** In-place update of the client object behind reference [c]. *)
Definition update_client (c : nat) (f : SSEClient -> SSEClient) (t : Transport) : Transport :=
  with_client_objs (alter f c) t.

Definition event_id_of (cid : string) (n : nat) : string :=
  cid +:+ "_" +:+ str_of_nat n.

Definition _generate_event_id (c : nat) (t : Transport) : string * Transport :=
  let t := update_client c (fun o => set_event_counter (event_counter o + 1) o) t in
  (event_id_of (client_id (client_at t c)) (event_counter (client_at t c)), t).

(** [xs[-100:]] *)
Definition last100 {A} (xs : list A) : list A := drop (length xs - 100) xs.

(** The three statements of [_store_event].  A missing entry is bound
    to a new empty list; the append mutates the list object in place;
    the slice is a new list object to which the entry is rebound. *)
Definition ensure_history (cid : string) (t : Transport) : Transport :=
  match event_history t !! cid with
  | Some _ => t
  | None => with_event_history (insert cid (length (lists t)))
              (with_lists (fun ls => ls ++ [[]]) t)
  end.

Definition append_history (cid : string) (e : string * json) (t : Transport) : Transport :=
  match event_history t !! cid with
  | Some l => with_lists (alter (fun xs => xs ++ [e]) l) t
  | None => t
  end.

Definition truncate_history (cid : string) (t : Transport) : Transport :=
  match event_history t !! cid with
  | Some l =>
      if (100 <? length (list_at t l))%nat
      then with_event_history (insert cid (length (lists t)))
             (with_lists (fun ls => ls ++ [last100 (list_at t l)]) t)
      else t
  | None => t
  end.

Definition _store_event (cid eid : string) (data : json) (t : Transport) : Transport :=
  truncate_history cid (append_history cid (eid, data) (ensure_history cid t)).

Definition write_event (e : SSEEvent) (r : StreamResponse) : StreamResponse :=
  {| resp_session := resp_session r; written := written r ++ [e];
     closing := closing r; eof := eof r |}.

(** What [StreamResponse.write] raises: after [write_eof] a
    [RuntimeError], on a closing transport a connection reset. *)
Definition write_error (r : StreamResponse) : string :=
  if eof r then "Cannot call write() after write_eof()"
  else "Cannot write to closing transport".

(** [_send_sse_event]: the event is stored before it is written; a
    write on a closing or finished stream raises, and the handler
    re-raises. *)
Definition _send_sse_event (c : nat) (event_type : string) (data : json)
    (event_id : option string) : M unit :=
  fun t =>
    let '(eid, t) :=
      match event_id with
      | None => _generate_event_id c t
      | Some e => (e, t)
      end in
    let t := _store_event (client_id (client_at t c)) eid data t in
    let r := response (client_at t c) in
    if closing r || eof r
    then (Raised (write_error r), t)
    else (Returned tt,
          update_client c (set_response
            (write_event {| ev_id := eid; ev_type := event_type; ev_data := data |} r)) t).

(** The loop of [_replay_events] over the list object [l], at index
    [i].  The list is read afresh at every step: appends made to the
    same object by [_store_event] are seen by the iteration. *)
Fixpoint replay_loop (fuel : nat) (c : nat) (last_event_id : string)
    (l i : nat) (replay : bool) : M unit :=
  match fuel with
  | 0 => fun t => (Diverged, t)
  | S fuel =>
      fun t =>
        match list_at t l !! i with
        | None => (Returned tt, t)
        | Some (event_id, data) =>
            if String.eqb event_id last_event_id
            then replay_loop fuel c last_event_id l (S i) true t
            else if replay
            then (_send_sse_event c "message" data (Some event_id) ;;
                  replay_loop fuel c last_event_id l (S i) true) t
            else replay_loop fuel c last_event_id l (S i) false t
        end
  end.

(** A bound on the iterations: the list iterated over grows by one
    entry per event sent, but only while it is the list bound in the
    table, and it is unbound as soon as it holds 101 entries. *)
Definition replay_fuel (t : Transport) (l : nat) : nat :=
  S (Nat.max 101 (S (length (list_at t l)))).

Definition _replay_events (c : nat) (last_event_id : string) : M unit :=
  fun t =>
    match event_history t !! client_id (client_at t c) with
    | None => (Returned tt, t)
    | Some l => replay_loop (replay_fuel t l) c last_event_id l 0 false t
    end.

(** ** Connections *)

Definition finish (r : StreamResponse) : StreamResponse :=
  {| resp_session := resp_session r; written := written r;
     closing := closing r; eof := true |}.

(** [_close_client]: deregister under the client's own id, then
    finish the stream unless its transport is already closing. *)
Definition _close_client (c : nat) (t : Transport) : Transport :=
  let cid := client_id (client_at t c) in
  let t :=
    match clients t !! cid with
    | Some _ => with_clients (delete cid) t
    | None => t
    end in
  if negb (closing (response (client_at t c)))
  then update_client c (fun o => set_response (finish (response o)) o) t
  else t.

(** [list(self.clients.values())]: a snapshot of the references. *)
Definition client_refs (t : Transport) : list nat :=
  snd <$> map_to_list (clients t).

Definition stop (t : Transport) : Transport :=
  let t := with_running false t in
  let t := if ping_task t then with_ping_task false t else t in
  let t := foldl (fun t c => _close_client c t) t (client_refs t) in
  with_serving false t.

Definition enqueue (item : string * json) (c : SSEClient) : SSEClient :=
  set_queue (queue c ++ [item]) c.

Section WithLibrary.
Context `{Library}.

Definition _create_session (t : Transport) : string * Transport :=
  let sid := uuid4 (uuids_drawn t) in
  let current_time := clock t in
  (sid,
   with_sessions
     (insert sid {| session_id := sid; created_at := current_time;
                    last_accessed := current_time; client_info := [] |})
     (with_uuids_drawn (S (uuids_drawn t)) t)).

(** [send_message]: one serialisation, queued on every registered
    connection. *)
Definition send_message (message : JSONRPCMessage) (t : Transport) : Transport :=
  if bool_decide (clients t = ∅) then t
  else
    let json_str := dump_message message in
    foldl (fun t c => update_client c (enqueue ("message", JStr json_str)) t)
          t (client_refs t).

(** ** Message classifier *)

(** [k in data] for whatever the body decoded to; [None] is the
    [TypeError] of a value that is not a container. *)
Definition py_in (k : string) (data : json) : option bool :=
  match data with
  | JObj fields => Some (obj_has k fields)
  | JArr items => Some (existsb (is_str k) items)
  | JStr s => Some (str_contains k s)
  | _ => None
  end.

(** The constructor call on the unpacked [data]: only a dict can be
    unpacked, and validation may reject it. *)
Definition construct (valid : list (string * json) -> bool)
    (cls : list (string * json) -> JSONRPCMessage) (data : json) : option JSONRPCMessage :=
  match data with
  | JObj fields => if valid fields then Some (cls fields) else None
  | _ => None
  end.

Definition count_error (t : Transport) : Transport :=
  with_stats (fun s => {| messages_received := messages_received s;
                          batches_received := batches_received s;
                          errors := errors s + 1 |}) t.

(** [_parse_message]: the shape is decided by the keys present; an
    exception anywhere (a value that is no container, a failed
    validation) is caught, counted and answered with [None]. *)
Definition _parse_message (data : json) (t : Transport) : option JSONRPCMessage * Transport :=
  let caught := (None, count_error t) in
  let built (m : option JSONRPCMessage) :=
    match m with Some m => (Some m, t) | None => caught end in
  match py_in "method" data with
  | None => caught
  | Some true =>
      match py_in "id" data with
      | None => caught
      | Some true => built (construct request_valid JSONRPCRequest data)
      | Some false => built (construct notification_valid JSONRPCNotification data)
      end
  | Some false =>
      match py_in "result" data with
      | None => caught
      | Some true => built (construct response_valid JSONRPCResponse data)
      | Some false =>
          match py_in "error" data with
          | None => caught
          | Some true => built (construct response_valid JSONRPCResponse data)
          | Some false => (None, t)
          end
      end
  end.

(** The batch loop of [_handle_post]. *)
Fixpoint parse_items (items : list json) (t : Transport) : list JSONRPCMessage * Transport :=
  match items with
  | [] => ([], t)
  | item :: rest =>
      let '(m, t) := _parse_message item t in
      let '(ms, t) := parse_items rest t in
      (match m with Some m => m :: ms | None => ms end, t)
  end.

(** ** Opening a stream *)

Definition connected_payload (cid : string) : json :=
  JObj [("client_id", JStr cid)].

(** The body of the [try] in [_initiate_sse], up to the service loop. *)
Definition opening (c : nat) (cid : string) (req : Request)
    (initial_messages : list JSONRPCMessage) : M unit :=
  (if truthy (h_last_event_id req)
   then _replay_events c (default "" (h_last_event_id req))
   else mret tt) ;;
  modify (fun t => foldl (fun t m => send_message m t) t initial_messages) ;;
  _send_sse_event c "connected" (connected_payload cid) None.

(** The condition of the service loop:
    [self.running and not response.transport.is_closing()]. *)
Definition loop_continues (c : nat) (t : Transport) : bool :=
  running t && negb (closing (response (client_at t c))).

(** [_initiate_sse] up to the point where the connection enters its
    service loop.  When the opening raises, the handler logs and the
    [finally] closes the client, and so it does when the loop is not
    entered at all; the loop's iterations are [service_item] and its
    exit is [_close_client]. *)
Definition _initiate_sse (req : Request) (initial_messages : list JSONRPCMessage)
    (session_id : option string) (is_initialize : bool) : M Response :=
  fun t =>
    if negb (_validate_origin req)
    then (Returned (PlainResponse 403 "Forbidden: Invalid origin"), t)
    else
      let '(session_id, t) :=
        if is_initialize && negb (truthy session_id)
        then let '(s, t') := _create_session t in (Some s, t')
        else (session_id, t) in
      let response :=
        {| resp_session := if truthy session_id then session_id else None;
           written := []; closing := false; eof := false |} in
      let t := with_client_counter (client_counter t + 1) t in
      let cid := "client_" +:+ str_of_nat (client_counter t) in
      let client :=
        {| client_id := cid; response := response; queue := [];
           last_ping := clock t; client_session := session_id;
           event_counter := 0 |} in
      let c := length (client_objs t) in
      let t := with_client_objs (fun os => os ++ [client]) t in
      let t := with_clients (insert cid c) t in
      match opening c cid req initial_messages t with
      | (Returned _, t) =>
          if loop_continues c t
          then (Returned (Streaming c), t)
          else (Returned (Streaming c), _close_client c t)
      | (Raised _, t) => (Returned (Streaming c), _close_client c t)
      | (Diverged, t) => (Diverged, t)
      end.

(** One iteration of the service loop: the head of the queue is
    delivered; an empty queue stands for the 30 s timeout, answered
    by queueing a ping.  The result tells whether the loop goes on. *)
Definition service_item (c : nat) : M bool :=
  fun t =>
    match queue (client_at t c) with
    | [] =>
        (Returned true, update_client c (enqueue ("ping", JNum (clock t))) t)
    | (event_type, data) :: rest =>
        let t := update_client c (set_queue rest) t in
        if String.eqb event_type "ping"
        then (_send_sse_event c "ping" (JObj [("timestamp", data)]) None ;;
              modify (fun t => update_client c (set_last_ping (clock t)) t) ;;
              mret true) t
        else if String.eqb event_type "message" || String.eqb event_type "batch"
        then (_send_sse_event c event_type data None ;; mret true) t
        else if String.eqb event_type "close"
        then (Returned false, t)
        else (Returned true, t)
    end.

(** ** The two handlers of /mcp *)

Definition count_batch (t : Transport) : Transport :=
  with_stats (fun s => {| messages_received := messages_received s;
                          batches_received := batches_received s + 1;
                          errors := errors s |}) t.

Definition count_messages (n : nat) (t : Transport) : Transport :=
  with_stats (fun s => {| messages_received := messages_received s + n;
                          batches_received := batches_received s;
                          errors := errors s |}) t.

(** [isinstance(data, dict) and data.get('method') == 'initialize'] *)
Definition is_initialize_body (data : json) : bool :=
  match data with
  | JObj fields =>
      match obj_get "method" fields with
      | Some v => is_str "initialize" v
      | None => false
      end
  | _ => false
  end.

(** The classification step: the messages kept from the body. *)
Definition classify (data : json) (t : Transport) : list JSONRPCMessage * Transport :=
  match data with
  | JArr items =>
      let '(ms, t) := parse_items items t in (ms, count_batch t)
  | _ =>
      let '(m, t) := _parse_message data t in
      (match m with Some m => [m] | None => [] end, t)
  end.

(** [_handle_post].  The decoding of the body has its own handler;
    nothing else in the body raises here, so the 500 of the outer
    handler is never produced. *)
Definition _handle_post (req : Request) : M Response :=
  fun t =>
    if negb (_validate_origin req)
    then (Returned (PlainResponse 403 "Forbidden: Invalid origin"), t)
    else
      let '(valid, version_or_error) := _validate_protocol_version req in
      if negb valid
      then (Returned (PlainResponse 400 version_or_error), t)
      else
        let content_type := default "" (h_content_type req) in
        if negb (str_contains "application/json" content_type)
        then (Returned (PlainResponse 400 "Content-Type must be application/json"), t)
        else
          match body req with
          | inl e => (Returned (PlainResponse 400 ("Invalid JSON: " +:+ e)), t)
          | inr data =>
              let session_id := h_session_id req in
              let is_initialize := is_initialize_body data in
              let '(session_ok, t) :=
                if negb is_initialize && truthy session_id
                then _validate_session session_id t
                else (true, t) in
              if negb session_ok
              then (Returned (PlainResponse 404 "Session not found or expired"), t)
              else
                let '(messages, t) := classify data t in
                let t := count_messages (length messages) t in
                let is_notification := forallb is_JSONRPCNotification messages in
                let is_response := forallb is_JSONRPCResponse messages in
                if is_response || is_notification
                then (Returned (PlainResponse 202 "Accepted"), t)
                else
                  let accept := default "" (h_accept req) in
                  if str_contains "text/event-stream" accept
                  then _initiate_sse req messages session_id is_initialize t
                  else
                    let '(header, t) :=
                      if is_initialize && negb (truthy session_id)
                      then let '(s, t') := _create_session t in (Some s, t')
                      else (None, t) in
                    (Returned (JsonReceived (length messages) header), t)
          end.

(** [_handle_sse]: GET /mcp, the same gates without a body, then a
    stream with no initial messages. *)
Definition _handle_sse (req : Request) : M Response :=
  fun t =>
    if negb (_validate_origin req)
    then (Returned (PlainResponse 403 "Forbidden: Invalid origin"), t)
    else
      if negb (fst (_validate_protocol_version req))
      then (Returned (PlainResponse 400 "Unsupported protocol version"), t)
      else
        let session_id := h_session_id req in
        let '(session_ok, t) :=
          if truthy session_id then _validate_session session_id t else (true, t) in
        if negb session_ok
        then (Returned (PlainResponse 404 "Session not found"), t)
        else _initiate_sse req [] session_id false t.

End WithLibrary.

(** ** Notions used to state the properties *)

(** The history table is well formed when every entry refers to an
    allocated list and no two connections share a list object. *)
Record history_wf (t : Transport) : Prop := {
  hist_bound : forall cid l, event_history t !! cid = Some l -> l < length (lists t);
  hist_inj : forall c1 c2 l,
    event_history t !! c1 = Some l -> event_history t !! c2 = Some l -> c1 = c2
}.

(** A sequence of [_store_event] calls, each given as
    (connection id, event id, payload). *)
Definition record_all (ops : list (string * string * json)) (t : Transport) : Transport :=
  foldl (fun t '(cid, eid, d) => _store_event cid eid d t) t ops.

(** The entries of [ops] recorded for connection [cid], in call order. *)
Definition stored_for (cid : string) (ops : list (string * string * json))
    : list (string * json) :=
  omap (fun '(c, eid, d) => if String.eqb c cid then Some (eid, d) else None) ops.

(** A sequence of deliveries to one connection, each with a newly
    generated event id. *)
Fixpoint deliver_all (c : nat) (items : list (string * json)) : M unit :=
  match items with
  | [] => mret tt
  | (event_type, data) :: rest =>
      _send_sse_event c event_type data None ;; deliver_all c rest
  end.

(** Reading an event id back: the text after the last underscore is
    the ordinal, the text before it the connection id. *)
Fixpoint rsplit (sep : ascii) (s : string) : option (string * string) :=
  match s with
  | EmptyString => None
  | String a rest =>
      match rsplit sep rest with
      | Some (x, y) => Some (String a x, y)
      | None => if Ascii.eqb a sep then Some (EmptyString, rest) else None
      end
  end.

Definition parse_event_id (s : string) : option (string * nat) :=
  match rsplit "_"%char s with
  | Some (cid, digits) =>
      match NilZero.uint_of_string digits with
      | Some u => Some (cid, Nat.of_uint u)
      | None => None
      end
  | None => None
  end.

(** The events a delivery sequence puts on the stream of connection
    [cid] whose counter stood at [n0]. *)
Definition emitted (cid : string) (n0 : nat) (items : list (string * json)) : list SSEEvent :=
  imap (fun k '(event_type, data) =>
          {| ev_id := event_id_of cid (n0 + 1 + k);
             ev_type := event_type; ev_data := data |}) items.

(** The stream behind reference [c] exists and accepts writes. *)
Definition stream_open (t : Transport) (c : nat) : Prop :=
  c < length (client_objs t) /\
  closing (response (client_at t c)) = false /\
  eof (response (client_at t c)) = false.

(** The id under which [_send_sse_event] stores and writes. *)
Definition sent_id (t : Transport) (c : nat) (event_id : option string) : string :=
  match event_id with
  | Some e => e
  | None => event_id_of (client_id (client_at t c)) (event_counter (client_at t c) + 1)
  end.

(** The state once the id is settled. *)
Definition id_settled (t : Transport) (c : nat) (event_id : option string) : Transport :=
  match event_id with
  | Some _ => t
  | None => update_client c (set_event_counter (event_counter (client_at t c) + 1)) t
  end.

Definition refuses_writes (r : StreamResponse) : bool := closing r || eof r.

Definition replay_measure (t : Transport) (cid : string) (l : nat) : nat :=
  if decide (event_history t !! cid = Some l)
  then Nat.max 101 (S (length (list_at t l)))
  else length (list_at t l).

Definition entry_of (e : SSEEvent) : string * json := (ev_id e, ev_data e).

(** The session gate of [_handle_post], as the handler applies it. *)
Definition session_gate (req : Request) (data : json) (t : Transport) : bool * Transport :=
  if negb (is_initialize_body data) && truthy (h_session_id req)
  then _validate_session (h_session_id req) t
  else (true, t).

(** A POST that gets past all five gates with decoded body [data]. *)
Definition passes_gates (req : Request) (data : json) (t : Transport) : Prop :=
  _validate_origin req = true /\
  fst (_validate_protocol_version req) = true /\
  str_contains "application/json" (default "" (h_content_type req)) = true /\
  body req = inr data /\
  fst (session_gate req data t) = true.

(** What the classifier makes of one decoded value; the transport's
    state only collects the error count. *)
Definition parsed `{Library} (item : json) : option JSONRPCMessage :=
  fst (_parse_message item (__init__ None)).

(** The messages kept from a body. *)
Definition kept `{Library} (data : json) : list JSONRPCMessage :=
  match data with
  | JArr items => omap parsed items
  | _ => match parsed data with Some m => [m] | None => [] end
  end.

(** Two states that differ at most in their counters. *)
Definition same_tables (t t' : Transport) : Prop :=
  config t' = config t /\ running t' = running t /\
  clients t' = clients t /\ client_objs t' = client_objs t /\
  sessions t' = sessions t /\ event_history t' = event_history t /\
  lists t' = lists t /\ client_counter t' = client_counter t /\
  uuids_drawn t' = uuids_drawn t.

(** Every entry of the connection table refers to the client object
    that carries the entry's key as its id. *)
Definition clients_keyed (t : Transport) : Prop :=
  map_Forall (fun k c => client_id (client_at t c) = k) (clients t).

(** ** A library instance and the scenarios of the examples *)

Definition field_is (k v : string) (fields : list (string * json)) : bool :=
  match obj_get k fields with
  | Some j => is_str v j
  | None => false
  end.

Definition field_is_str (k : string) (fields : list (string * json)) : bool :=
  match obj_get k fields with
  | Some (JStr _) => true
  | _ => false
  end.

Definition field_is_id (k : string) (fields : list (string * json)) : bool :=
  match obj_get k fields with
  | Some (JStr _) | Some (JNum _) => true
  | _ => false
  end.

Definition field_is_obj (k : string) (fields : list (string * json)) : bool :=
  match obj_get k fields with
  | Some (JObj _) => true
  | _ => false
  end.

Definition message_method (m : JSONRPCMessage) : string :=
  match m with
  | JSONRPCRequest d | JSONRPCNotification d =>
      match obj_get "method" d with
      | Some (JStr s) => s
      | _ => ""
      end
  | JSONRPCResponse _ => "result"
  end.

(** The envelope shapes [mcp.types] declares: [jsonrpc] is "2.0", a
    request has a string or integer [id] and a string [method], a
    notification a string [method], a response an [id] and an object
    [result].  Serialisation is cut down to the method name, and the
    identifiers drawn are numbered. *)
Definition mcp_types : Library := {|
  request_valid f := field_is "jsonrpc" "2.0" f && field_is_id "id" f && field_is_str "method" f;
  notification_valid f := field_is "jsonrpc" "2.0" f && field_is_str "method" f;
  response_valid f := field_is "jsonrpc" "2.0" f && field_is_id "id" f && field_is_obj "result" f;
  dump_message m := message_method m;
  uuid4 n := "session-" +:+ str_of_nat n
|}.

Definition get_mcp (last_event_id : option string) : Request :=
  {| h_origin := None; h_protocol_version := None; h_content_type := None;
     h_session_id := None; h_accept := Some "text/event-stream";
     h_last_event_id := last_event_id; body := inl "" |}.

Definition post_mcp (origin session : option string) (accept : string) (data : json) : Request :=
  {| h_origin := origin; h_protocol_version := Some "2025-06-18";
     h_content_type := Some "application/json"; h_session_id := session;
     h_accept := Some accept; h_last_event_id := None; body := inr data |}.

Definition notification (method : string) : json :=
  JObj [("jsonrpc", JStr "2.0"); ("method", JStr method)].

Definition request (id : Z) (method : string) : json :=
  JObj [("jsonrpc", JStr "2.0"); ("id", JNum id); ("method", JStr method)].

(** A started transport with default configuration. *)
Definition fresh : Transport := start (__init__ None).

(** One client opens a stream with GET /mcp and is sent [connected]. *)
Definition one_stream : Transport := snd (_handle_sse (H := mcp_types) (get_mcp None) fresh).

(** Nine broadcasts, each queued and then delivered by the service
    loop: with [connected] the client has received ten events. *)
Fixpoint broadcast_and_serve (n : nat) (t : Transport) : Transport :=
  match n with
  | 0 => t
  | S n =>
      let t := send_message (H := mcp_types)
                 (JSONRPCNotification [("jsonrpc", JStr "2.0"); ("method", JStr "tick")]) t in
      broadcast_and_serve n (snd (service_item 0 t))
  end.

Definition ten_events : Transport := broadcast_and_serve 9 one_stream.

(** The client goes away; the stream's [finally] closes it. *)
Definition disconnected : Transport := _close_client 0 ten_events.

(** It comes back with the id of the fifth event it saw. *)
Definition reconnect : Request := get_mcp (Some "client_1_5").

(** An initialize request over a stream: a session and a connection. *)
Definition initialized : Transport :=
  snd (_handle_post (H := mcp_types)
         (post_mcp None None "text/event-stream" (request 1 "initialize")) fresh).

(** Hosts that name the loopback interface. *)
Definition is_loopback (h : option string) : bool :=
  match h with
  | Some s => String.eqb s "localhost" || String.eqb s "::1" || startswith s "127."
  | None => false
  end.

Definition connected_event (cid : string) (n : nat) : SSEEvent :=
  {| ev_id := event_id_of cid n; ev_type := "connected";
     ev_data := connected_payload cid |}.

Definition tick_event (n : nat) : SSEEvent :=
  {| ev_id := event_id_of "client_1" n; ev_type := "message"; ev_data := JStr "tick" |}.

Definition responses_batch : json :=
  JArr [JObj [("jsonrpc", JStr "2.0"); ("id", JNum 1); ("result", JObj [])];
        JObj [("jsonrpc", JStr "2.0"); ("id", JNum 2); ("result", JObj [])]].

Definition mixed_batch : json :=
  JArr [notification "ping"; request 7 "tools/list"].

(** ** Reachable states *)

(** The id given to the k-th connection. *)
Definition client_id_of (k : nat) : string := "client_" +:+ str_of_nat k.

(** Every client object, and every key of the history table, carries
    an id that was issued: one of client_1 .. client_n for the
    current value n of the connection counter. *)
Record ids_issued (t : Transport) : Prop := {
  objs_issued : forall c, c < length (client_objs t) ->
    exists k, 1 <= k <= client_counter t /\ client_id (client_at t c) = client_id_of k;
  history_issued : forall cid l, event_history t !! cid = Some l ->
    exists k, 1 <= k <= client_counter t /\ cid = client_id_of k
}.

Definition drop_connection (r : StreamResponse) : StreamResponse :=
  {| resp_session := resp_session r; written := written r; closing := true; eof := eof r |}.

Definition set_clock (now : Z) (t : Transport) : Transport :=
  Build_Transport (config t) (running t) (serving t) (ping_task t) (clients t)
    (client_objs t) (sessions t) (event_history t) (lists t) (client_counter t)
    (stats t) now (uuids_drawn t).

(** What can happen to a transport: a request to one of the two
    handlers, an iteration of a connection's service loop, the
    closing of a client (at the end of its loop, or by the sweeper),
    a broadcast, a ping queued by the sweeper, stop and start, a peer
    that goes away, and the passing of time. *)
Inductive step `{Library} : Transport -> Transport -> Prop :=
| step_post req t : step t (snd (_handle_post req t))
| step_get req t : step t (snd (_handle_sse req t))
| step_service c t : c < length (client_objs t) -> step t (snd (service_item c t))
| step_close c t : c < length (client_objs t) -> step t (_close_client c t)
| step_broadcast m t : step t (send_message m t)
| step_ping c now t : step t (update_client c (enqueue ("ping", JNum now)) t)
| step_stop t : step t (stop t)
| step_start t : step t (start t)
| step_peer_gone c t :
    step t (update_client c (fun o => set_response (drop_connection (response o)) o) t)
| step_time now t : step t (set_clock now t).

Definition reachable `{Library} (t : Transport) : Prop :=
  exists cfg, rtc step (__init__ cfg) t.

(** [t'] comes from [t] without a new connection: the objects and
    their ids are the same, and a key of the history table is an old
    key or the id of one of the objects. *)
Definition same_connections (t t' : Transport) : Prop :=
  client_counter t' = client_counter t /\
  length (client_objs t') = length (client_objs t) /\
  (forall c, client_id (client_at t' c) = client_id (client_at t c)) /\
  (forall cid l, event_history t' !! cid = Some l ->
     is_Some (event_history t !! cid) \/
     exists c, c < length (client_objs t) /\ cid = client_id (client_at t c)).

(** A broadcast changes queues only. *)
Definition same_streams (t t' : Transport) : Prop :=
  same_connections t t' /\
  event_history t' = event_history t /\ lists t' = lists t /\
  running t' = running t /\
  forall c, response (client_at t' c) = response (client_at t c) /\
            event_counter (client_at t' c) = event_counter (client_at t c).

(** The client object [_initiate_sse] creates, and the transport once
    it is registered. *)
Definition new_client (cid : string) (session_id : option string) (now : Z) : SSEClient :=
  {| client_id := cid;
     response := {| resp_session := if truthy session_id then session_id else None;
                    written := []; closing := false; eof := false |};
     queue := []; last_ping := now; client_session := session_id; event_counter := 0 |}.

Definition registered (session_id : option string) (t : Transport) : Transport :=
  let t := with_client_counter (client_counter t + 1) t in
  let cid := client_id_of (client_counter t) in
  let c := length (client_objs t) in
  with_clients (insert cid c)
    (with_client_objs (fun os => os ++ [new_client cid session_id (clock t)]) t).

(** ** Further operations of the transport *)

(** [json.dumps] of a list with separators (',', ':'): the elements'
    serialisations, joined by commas, in brackets. *)
Definition dump_batch `{Library} (messages : list JSONRPCMessage) : string :=
  "[" +:+ String.concat "," (map dump_message messages) +:+ "]".

(** [send_batch]: one serialisation of the whole batch, queued as one
    item on every registered connection. *)
Definition send_batch `{Library} (messages : list JSONRPCMessage) (t : Transport) : Transport :=
  if match messages with [] => true | _ => false end || bool_decide (clients t = ∅) then t
  else
    let json_str := dump_batch messages in
    foldl (fun t c => update_client c (enqueue ("batch", JStr json_str)) t)
          t (client_refs t).

(** The loop of [send_message] and [send_batch]. *)
Definition fan_out (item : string * json) (refs : list nat) (t : Transport) : Transport :=
  foldl (fun t c => update_client c (enqueue item) t) t refs.



(** [current_time - client.last_ping > 60] *)
Definition is_stale (current_time : Z) (o : SSEClient) : bool :=
  (60 <? current_time - last_ping o)%Z.

(** One round of [_ping_clients], after its sleep: the clients that
    have not been pinged for more than 60 s are collected, every other
    one is queued a ping with the current time, and then the collected
    ones are closed. *)
Definition ping_round (t : Transport) : Transport :=
  let current_time := clock t in
  let '(stale_clients, t) :=
    foldl (fun '(stale_clients, t) c =>
             if is_stale current_time (client_at t c)
             then (stale_clients ++ [c], t)
             else (stale_clients, update_client c (enqueue ("ping", JNum current_time)) t))
          ([], t) (client_refs t) in
  foldl (fun t c => _close_client c t) t stale_clients.

(** ** Further notions *)

(** [t'] comes from [t] by work on connections, streams and logs
    alone: the configuration, the life-cycle flags, the session table,
    the counters of /stats, the clock and the number of identifiers
    drawn are the same. *)
Definition same_books (t t' : Transport) : Prop :=
  config t' = config t /\ running t' = running t /\ serving t' = serving t /\
  ping_task t' = ping_task t /\ sessions t' = sessions t /\ stats t' = stats t /\
  clock t' = clock t /\ uuids_drawn t' = uuids_drawn t.

(** What may become of a client object: its id, its session and the
    session header of its stream stay; the stream only grows, and not
    at all once it refuses writes; a stream that is closing or finished
    stays so; the event counter does not go down. *)
Definition ages (o o' : SSEClient) : Prop :=
  client_id o' = client_id o /\
  client_session o' = client_session o /\
  resp_session (response o') = resp_session (response o) /\
  written (response o) `prefix_of` written (response o') /\
  (refuses_writes (response o) = true -> written (response o') = written (response o)) /\
  (closing (response o) = true -> closing (response o') = true) /\
  (eof (response o) = true -> eof (response o') = true) /\
  event_counter o <= event_counter o'.

(** No client object is lost, and each one only ages. *)
Definition grows (t t' : Transport) : Prop :=
  length (client_objs t) <= length (client_objs t') /\
  forall c, c < length (client_objs t) -> ages (client_at t c) (client_at t' c).

(** The value has none of the keys the classifier looks for: the
    branch that logs "Unknown message format". *)
Definition unknown_format (data : json) : bool :=
  match py_in "method" data, py_in "result" data, py_in "error" data with
  | Some false, Some false, Some false => true
  | _, _, _ => false
  end.

(** The classifier's exception path: no message comes out, and not
    because the format is unknown. *)
Definition rejected `{Library} (item : json) : bool :=
  match parsed item with
  | Some _ => false
  | None => negb (unknown_format item)
  end.

(** The values a body is classified from: the elements of an array,
    or the body itself. *)
Definition items_of (data : json) : list json :=
  match data with
  | JArr items => items
  | _ => [data]
  end.

(** [isinstance(data, list)] *)
Definition is_batch (data : json) : bool :=
  match data with
  | JArr _ => true
  | _ => false
  end.

(** The connection table is sound: every entry refers to an allocated
    client object, and to the one that carries the entry's key as its
    id. *)
Definition registry_wf (t : Transport) : Prop :=
  clients_keyed t /\
  map_Forall (fun _ c => c < length (client_objs t)) (clients t).

(** The ids [cid_1 .. cid_n] of the first [n] events generated for
    connection [cid]. *)
Definition generated_ids (cid : string) (n : nat) : list string :=
  map (event_id_of cid) (seq 1 n).

(** What holds of every state the operations produce.  There are as
    many client objects as connections were counted, and the c-th
    carries the id client_(c+1).  The connection table refers to
    allocated objects under their own ids, and an object it does not
    list refuses writes.  The history table is well formed, its keys
    are ids of client objects, and the log of a connection holds the
    ids of the last hundred events generated for it.  The events
    written to a stream carry the ids 1, 2, ... without a gap; there
    are no more of them than ids were generated, and exactly as many
    while the stream accepts writes. *)
Record consistent (t : Transport) : Prop := {
  cons_counter : length (client_objs t) = client_counter t;
  cons_ids : forall c, c < length (client_objs t) ->
    client_id (client_at t c) = client_id_of (S c);
  cons_registry : forall k c, clients t !! k = Some c ->
    c < length (client_objs t) /\ client_id (client_at t c) = k;
  cons_closed : forall c, c < length (client_objs t) ->
    clients t !! client_id (client_at t c) = None ->
    refuses_writes (response (client_at t c)) = true;
  cons_history : history_wf t;
  cons_keys : forall cid l, event_history t !! cid = Some l ->
    exists c, c < length (client_objs t) /\ cid = client_id (client_at t c);
  cons_logs : forall c, c < length (client_objs t) ->
    map fst (log_of t (client_id (client_at t c))) =
      last100 (generated_ids (client_id (client_at t c)) (event_counter (client_at t c)));
  cons_written : forall c, c < length (client_objs t) ->
    map ev_id (written (response (client_at t c))) =
      generated_ids (client_id (client_at t c)) (length (written (response (client_at t c))));
  cons_sent : forall c, c < length (client_objs t) ->
    length (written (response (client_at t c))) <= event_counter (client_at t c);
  cons_open : forall c, c < length (client_objs t) ->
    refuses_writes (response (client_at t c)) = false ->
    length (written (response (client_at t c))) = event_counter (client_at t c)
}.

(** Every operation of the transport: those of [step], the broadcast
    of a batch, and a round of the sweeper.  ([_terminate_session] is
    not among them: nothing in the transport calls it.) *)
Inductive move `{Library} : Transport -> Transport -> Prop :=
| move_step t t' : step t t' -> move t t'
| move_batch messages t : move t (send_batch messages t)
| move_sweep t : move t (ping_round t).

(** The states the operations produce from a new transport. *)
Definition attainable `{Library} (t : Transport) : Prop :=
  exists cfg, rtc move (__init__ cfg) t.

(** The queue item [send_message] makes of a message. *)
Definition message_item `{Library} (m : JSONRPCMessage) : string * json :=
  ("message", JStr (dump_message m)).

(** The first four gates of [_handle_post]: origin, protocol version,
    content type, and a body that decodes to [data]. *)
Definition well_formed_post (req : Request) (data : json) : Prop :=
  _validate_origin req = true /\
  fst (_validate_protocol_version req) = true /\
  str_contains "application/json" (default "" (h_content_type req)) = true /\
  body req = inr data.

(** An initialize request. *)
Definition initialize_request : json := request 1 "initialize".

(** Two connections: one opened by GET, one by an initialize POST. *)
Definition two_streams : Transport :=
  snd (_handle_post (H := mcp_types)
         (post_mcp None None "text/event-stream" initialize_request) one_stream).

(** The first connection of [two_streams] after its peer went away. *)
Definition peer_gone : Transport :=
  update_client 0 (fun o => set_response (drop_connection (response o)) o) two_streams.


(** * Properties *)

(** ** The bounded event log *)

Lemma last100_short {A} (xs : list A) : length xs <= 100 -> last100 xs = xs.
Proof. intros Hle. unfold last100. replace (length xs - 100) with 0 by lia. done. Qed.

Lemma last100_length {A} (xs : list A) : length (last100 xs) <= 100.
Proof. unfold last100. rewrite length_drop. lia. Qed.

Lemma last100_app {A} (xs ys : list A) :
  last100 (last100 xs ++ ys) = last100 (xs ++ ys).
Proof.
  destruct (decide (length xs <= 100)) as [Hle|Hgt].
  - by rewrite (last100_short xs).
  - unfold last100. rewrite !length_app, length_drop.
    rewrite <- (drop_app_le xs ys) by lia.
    rewrite drop_drop. f_equal. lia.
Qed.

Lemma last100_suffix {A} (xs : list A) : exists older, xs = older ++ last100 xs.
Proof. exists (take (length xs - 100) xs). unfold last100. by rewrite take_drop. Qed.

Lemma list_at_alloc t x l :
  l < length (lists t) -> default [] ((lists t ++ [x]) !! l) = list_at t l.
Proof. intros Hl. unfold list_at. by rewrite lookup_app_l. Qed.

Lemma list_at_alloc_new t x :
  default [] ((lists t ++ [x]) !! length (lists t)) = x.
Proof. by rewrite lookup_app_r, Nat.sub_diag. Qed.

(** *** [ensure_history] *)

Lemma ensure_history_wf cid t : history_wf t -> history_wf (ensure_history cid t).
Proof.
  intros [Hb Hi]. unfold ensure_history.
  destruct (event_history t !! cid) eqn:Hc; [done|].
  split; simpl.
  - intros c l. rewrite length_app. simpl. rewrite lookup_insert.
    case_decide; [intros [= <-]; lia | intros Hl; apply Hb in Hl; lia].
  - intros c1 c2 l. rewrite !lookup_insert.
    repeat case_decide; subst; try done.
    + intros [= <-] Hl. apply Hb in Hl. lia.
    + intros Hl [= <-]. apply Hb in Hl. lia.
    + apply Hi.
Qed.

Lemma ensure_history_bound cid t :
  is_Some (event_history (ensure_history cid t) !! cid).
Proof.
  unfold ensure_history. destruct (event_history t !! cid) eqn:Hc.
  - rewrite Hc. eauto.
  - simpl. rewrite lookup_insert_eq. eauto.
Qed.

Lemma ensure_history_log cid t c :
  history_wf t -> log_of (ensure_history cid t) c = log_of t c.
Proof.
  intros [Hb Hi]. unfold ensure_history.
  destruct (event_history t !! cid) eqn:Hc; [done|].
  unfold log_of; simpl. rewrite lookup_insert. case_decide as Heq.
  - subst. rewrite Hc. unfold list_at; simpl. apply list_at_alloc_new.
  - destruct (event_history t !! c) as [l|] eqn:Hl; [|done].
    unfold list_at at 1; simpl. apply list_at_alloc. eauto.
Qed.

(** *** [append_history] *)

Lemma append_history_wf cid e t : history_wf t -> history_wf (append_history cid e t).
Proof.
  intros [Hb Hi]. unfold append_history.
  destruct (event_history t !! cid) eqn:Hc; [|done].
  split; simpl; [|done]. intros c l Hl. rewrite length_alter. eauto.
Qed.

Lemma append_history_log cid e t :
  history_wf t -> is_Some (event_history t !! cid) ->
  log_of (append_history cid e t) cid = log_of t cid ++ [e].
Proof.
  intros [Hb Hi] [l Hl]. unfold append_history, log_of. rewrite Hl. simpl. rewrite Hl.
  unfold list_at; simpl. rewrite list_lookup_alter_eq.
  destruct (lookup_lt_is_Some_2 (lists t) l (Hb _ _ Hl)) as [xs ->]. done.
Qed.

Lemma append_history_log_ne cid e t c :
  history_wf t -> c <> cid -> log_of (append_history cid e t) c = log_of t c.
Proof.
  intros [Hb Hi] Hne. unfold append_history, log_of.
  destruct (event_history t !! cid) as [l|] eqn:Hl; [|done]. simpl.
  destruct (event_history t !! c) as [l'|] eqn:Hl'; [|done].
  unfold list_at; simpl. rewrite list_lookup_alter_ne; [done|].
  intros ->. apply Hne. eauto.
Qed.

(** *** [truncate_history] *)

Lemma truncate_history_wf cid t : history_wf t -> history_wf (truncate_history cid t).
Proof.
  intros [Hb Hi]. unfold truncate_history.
  destruct (event_history t !! cid) eqn:Hc; [|done].
  case_match; [|done].
  split; simpl.
  - intros c l. rewrite length_app. simpl. rewrite lookup_insert.
    case_decide; [intros [= <-]; lia | intros Hl; apply Hb in Hl; lia].
  - intros c1 c2 l. rewrite !lookup_insert.
    repeat case_decide; subst; try done.
    + intros [= <-] Hl. apply Hb in Hl. lia.
    + intros Hl [= <-]. apply Hb in Hl. lia.
    + apply Hi.
Qed.

Lemma truncate_history_log cid t :
  log_of (truncate_history cid t) cid = last100 (log_of t cid).
Proof.
  unfold truncate_history, log_of.
  destruct (event_history t !! cid) as [l|] eqn:Hl; [|by rewrite Hl].
  destruct (100 <? length (list_at t l))%nat eqn:Hlen.
  - simpl. rewrite lookup_insert_eq. unfold list_at at 1; simpl. apply list_at_alloc_new.
  - rewrite Hl. apply Nat.ltb_ge in Hlen. by rewrite last100_short.
Qed.

Lemma truncate_history_log_ne cid t c :
  history_wf t -> c <> cid -> log_of (truncate_history cid t) c = log_of t c.
Proof.
  intros [Hb Hi] Hne. unfold truncate_history, log_of.
  destruct (event_history t !! cid) as [l|] eqn:Hl; [|done].
  destruct (100 <? length (list_at t l))%nat; [|done].
  simpl. rewrite lookup_insert_ne by done.
  destruct (event_history t !! c) as [l'|] eqn:Hl'; [|done].
  unfold list_at at 1; simpl. apply list_at_alloc. eauto.
Qed.

(** *** [_store_event] *)

Lemma store_event_wf cid eid d t : history_wf t -> history_wf (_store_event cid eid d t).
Proof.
  intros Hwf. unfold _store_event.
  by apply truncate_history_wf, append_history_wf, ensure_history_wf.
Qed.

Lemma store_event_log cid eid d t :
  history_wf t ->
  log_of (_store_event cid eid d t) cid = last100 (log_of t cid ++ [(eid, d)]).
Proof.
  intros Hwf. unfold _store_event.
  rewrite truncate_history_log, append_history_log.
  - by rewrite ensure_history_log.
  - by apply ensure_history_wf.
  - apply ensure_history_bound.
Qed.

Lemma store_event_log_ne cid eid d t c :
  history_wf t -> c <> cid -> log_of (_store_event cid eid d t) c = log_of t c.
Proof.
  intros Hwf Hne. unfold _store_event.
  pose proof (ensure_history_wf cid t Hwf) as Hwf1.
  pose proof (append_history_wf cid (eid, d) _ Hwf1) as Hwf2.
  by rewrite truncate_history_log_ne, append_history_log_ne, ensure_history_log.
Qed.

Lemma init_history_wf cfg : history_wf (__init__ cfg).
Proof. split; simpl; intros *; by rewrite lookup_empty. Qed.

Lemma record_all_wf ops t : history_wf t -> history_wf (record_all ops t).
Proof.
  revert t. induction ops as [|[[c eid] d] ops IH]; intros t Hwf; [done|].
  apply IH. by apply store_event_wf.
Qed.

Lemma record_all_log ops t cid :
  history_wf t -> length (log_of t cid) <= 100 ->
  log_of (record_all ops t) cid = last100 (log_of t cid ++ stored_for cid ops).
Proof.
  revert t. induction ops as [|[[c eid] d] ops IH]; intros t Hwf Hlen.
  - simpl. rewrite app_nil_r. by rewrite last100_short.
  - change (record_all (((c, eid), d) :: ops) t)
      with (record_all ops (_store_event c eid d t)).
    unfold stored_for; simpl. fold (stored_for cid ops).
    destruct (String.eqb_spec c cid) as [->|Hne].
    + rewrite IH.
      * rewrite store_event_log by done. rewrite last100_app.
        by rewrite <- app_assoc.
      * by apply store_event_wf.
      * rewrite store_event_log by done. apply last100_length.
    + rewrite IH.
      * by rewrite store_event_log_ne by done.
      * by apply store_event_wf.
      * by rewrite store_event_log_ne by done.
Qed.

(** C7.  After any sequence of [_store_event] calls on a new
    transport, the log of every connection holds at most 100 entries;
    it is exactly the last 100 of the entries stored for that
    connection (all of them while there are fewer), in the order they
    were stored; and what is missing is a prefix of that sequence,
    the oldest entries. *)
Theorem event_log_keeps_last_100 (cfg : option TransportConfig)
    (ops : list (string * string * json)) (cid : string) :
  let t := record_all ops (__init__ cfg) in
  length (log_of t cid) <= 100 /\
  log_of t cid = last100 (stored_for cid ops) /\
  length (log_of t cid) = Nat.min 100 (length (stored_for cid ops)) /\
  exists evicted, stored_for cid ops = evicted ++ log_of t cid.
Proof.
  intros t.
  assert (Hlog : log_of t cid = last100 (stored_for cid ops)).
  { unfold t. rewrite record_all_log; [done|apply init_history_wf|].
    unfold log_of; simpl. rewrite lookup_empty. simpl. lia. }
  rewrite Hlog. split_and!.
  - apply last100_length.
  - done.
  - unfold last100. rewrite length_drop. lia.
  - apply last100_suffix.
Qed.

(** *** Frame facts: what the event log operations leave alone *)
Lemma store_event_client_objs cid eid d t :
  client_objs (_store_event cid eid d t) = client_objs t.
Proof.
  unfold _store_event, truncate_history, append_history, ensure_history.
  repeat (case_match; simpl); done.
Qed.

Lemma store_event_clients cid eid d t :
  clients (_store_event cid eid d t) = clients t.
Proof.
  unfold _store_event, truncate_history, append_history, ensure_history.
  repeat (case_match; simpl); done.
Qed.

Lemma store_event_sessions cid eid d t :
  sessions (_store_event cid eid d t) = sessions t.
Proof.
  unfold _store_event, truncate_history, append_history, ensure_history.
  repeat (case_match; simpl); done.
Qed.

Lemma client_at_update_eq c f t :
  c < length (client_objs t) -> client_at (update_client c f t) c = f (client_at t c).
Proof. intros Hc. unfold client_at, update_client; simpl. by apply list_lookup_total_alter_eq. Qed.

Lemma client_at_update_ne c c' f t :
  c <> c' -> client_at (update_client c f t) c' = client_at t c'.
Proof. intros Hc. unfold client_at, update_client; simpl. by apply list_lookup_total_alter_ne. Qed.

Lemma client_at_store cid eid d t c :
  client_at (_store_event cid eid d t) c = client_at t c.
Proof. unfold client_at. by rewrite store_event_client_objs. Qed.

(** *** Event ids *)
Lemma rsplit_digits d : rsplit "_" (NilEmpty.string_of_uint d) = None.
Proof. induction d; simpl; rewrite ?IHd; done. Qed.

Lemma rsplit_str_of_nat n : rsplit "_" (str_of_nat n) = None.
Proof.
  unfold str_of_nat, NilZero.string_of_uint.
  destruct (Nat.to_uint n); try apply (rsplit_digits (_ _)); done.
Qed.

Lemma rsplit_event_id cid n :
  rsplit "_" (event_id_of cid n) = Some (cid, str_of_nat n).
Proof.
  unfold event_id_of. induction cid as [|a cid IH].
  - change (rsplit "_" (String "_" (str_of_nat n)) = Some ("", str_of_nat n)).
    cbn [rsplit]. by rewrite rsplit_str_of_nat.
  - change (rsplit "_" (String a (cid +:+ "_" +:+ str_of_nat n))
            = Some (String a cid, str_of_nat n)).
    cbn [rsplit]. by rewrite IH.
Qed.

Lemma uint_of_str_of_nat n :
  exists u, NilZero.uint_of_string (str_of_nat n) = Some u /\ Nat.of_uint u = n.
Proof.
  unfold str_of_nat. assert (Nat.to_uint n = Nil \/ Nat.to_uint n <> Nil) as [Hnil|Hne]
    by (destruct (Nat.to_uint n); (by left) || (by right)).
  - exists Decimal.zero. rewrite Hnil. split; [done|].
    rewrite <- (DecimalNat.Unsigned.of_to n), Hnil. done.
  - eexists; split; [by apply NilZero.usu|]. apply DecimalNat.Unsigned.of_to.
Qed.

Lemma parse_event_id_of cid n : parse_event_id (event_id_of cid n) = Some (cid, n).
Proof.
  unfold parse_event_id. rewrite rsplit_event_id.
  destruct (uint_of_str_of_nat n) as (u & -> & ->). done.
Qed.

Lemma event_id_of_inj cid1 n1 cid2 n2 :
  event_id_of cid1 n1 = event_id_of cid2 n2 -> cid1 = cid2 /\ n1 = n2.
Proof.
  intros Heq. pose proof (parse_event_id_of cid1 n1) as H1.
  rewrite Heq, parse_event_id_of in H1. by injection H1.
Qed.

(** *** One delivery *)
Lemma generate_event_id_spec c t :
  c < length (client_objs t) ->
  _generate_event_id c t =
    (event_id_of (client_id (client_at t c)) (event_counter (client_at t c) + 1),
     update_client c (set_event_counter (event_counter (client_at t c) + 1)) t).
Proof.
  intros Hc. unfold _generate_event_id.
  rewrite client_at_update_eq by done. simpl.
  f_equal. unfold update_client, with_client_objs. f_equal.
  apply list_alter_ext; [|done]. intros o Ho.
  unfold client_at. by rewrite (list_lookup_total_correct _ _ _ Ho).
Qed.

Lemma log_of_update_client c f t cid : log_of (update_client c f t) cid = log_of t cid.
Proof. done. Qed.

Lemma history_wf_update_client c f t : history_wf t -> history_wf (update_client c f t).
Proof. intros [Hb Hi]. by split. Qed.

Lemma length_update_client c f t :
  length (client_objs (update_client c f t)) = length (client_objs t).
Proof. unfold update_client; simpl. apply length_alter. Qed.

Lemma send_unfold c ty d oid t :
  c < length (client_objs t) ->
  let r := response (client_at t c) in
  let t1 := _store_event (client_id (client_at t c)) (sent_id t c oid) d (id_settled t c oid) in
  _send_sse_event c ty d oid t =
    if refuses_writes r
    then (Raised (write_error r), t1)
    else (Returned tt,
          update_client c
            (set_response (write_event
               {| ev_id := sent_id t c oid; ev_type := ty; ev_data := d |} r)) t1).
Proof.
  intros Hc r t1. unfold _send_sse_event.
  assert (Hg : (match oid with
                | Some e => (e, t)
                | None => _generate_event_id c t
                end) = (sent_id t c oid, id_settled t c oid)).
  { destruct oid as [e|]; [done|]. by rewrite generate_event_id_spec. }
  rewrite Hg.
  assert (Hid : client_id (client_at (id_settled t c oid) c) = client_id (client_at t c)).
  { destruct oid; [done|]. simpl. by rewrite client_at_update_eq. }
  assert (Hr : response (client_at (id_settled t c oid) c) = r).
  { destruct oid; [done|]. simpl. by rewrite client_at_update_eq. }
  subst t1. cbv zeta. rewrite Hid, client_at_store, Hr. done.
Qed.

Lemma log_of_id_settled t c oid cid : log_of (id_settled t c oid) cid = log_of t cid.
Proof. by destruct oid. Qed.

Lemma history_wf_id_settled t c oid : history_wf t -> history_wf (id_settled t c oid).
Proof. destruct oid; [done|]. apply history_wf_update_client. Qed.

(** What one call does to the log of the connection it serves, to
    the other logs, and to the table's shape. *)
Lemma send_log c ty d oid t :
  c < length (client_objs t) -> history_wf t ->
  let t' := snd (_send_sse_event c ty d oid t) in
  let cid := client_id (client_at t c) in
  history_wf t' /\
  log_of t' cid = last100 (log_of t cid ++ [(sent_id t c oid, d)]) /\
  (forall other, other <> cid -> log_of t' other = log_of t other).
Proof.
  intros Hc Hwf t' cid. unfold t'. rewrite send_unfold by done.
  pose proof (history_wf_id_settled t c oid Hwf) as Hwf0.
  destruct (refuses_writes _); simpl.
  - split_and!.
    + by apply store_event_wf.
    + by rewrite store_event_log, log_of_id_settled.
    + intros other Hne. by rewrite store_event_log_ne, log_of_id_settled.
  - split_and!.
    + by apply history_wf_update_client, store_event_wf.
    + by rewrite log_of_update_client, store_event_log, log_of_id_settled.
    + intros other Hne.
      by rewrite log_of_update_client, store_event_log_ne, log_of_id_settled.
Qed.

(** What one call does to the client object. *)
Lemma send_client c ty d oid t :
  c < length (client_objs t) ->
  let o := client_at t c in
  let res := _send_sse_event c ty d oid t in
  let o' := client_at (snd res) c in
  length (client_objs (snd res)) = length (client_objs t) /\
  client_id o' = client_id o /\
  closing (response o') = closing (response o) /\
  eof (response o') = eof (response o) /\
  event_counter o' = match oid with Some _ => event_counter o | None => event_counter o + 1 end /\
  (refuses_writes (response o) = false ->
     fst res = Returned tt /\
     written (response o') = written (response o) ++
       [{| ev_id := sent_id t c oid; ev_type := ty; ev_data := d |}]) /\
  (refuses_writes (response o) = true ->
     fst res = Raised (write_error (response o)) /\
     written (response o') = written (response o)).
Proof.
  intros Hc o res o'. unfold o', res. rewrite send_unfold by done.
  assert (Hlen : length (client_objs (id_settled t c oid)) = length (client_objs t)).
  { destruct oid; [done|]. apply length_update_client. }
  assert (Ho : client_at (id_settled t c oid) c =
               set_event_counter
                 (match oid with Some _ => event_counter o | None => event_counter o + 1 end) o).
  { destruct oid; simpl; [|by rewrite client_at_update_eq].
    subst o. by destruct (client_at t c). }
  destruct (refuses_writes (response (client_at t c))) eqn:Hrw; cbn [fst snd].
  - rewrite client_at_store, store_event_client_objs, Ho. simpl.
    subst o. split_and!; try done. congruence.
  - rewrite length_update_client, store_event_client_objs.
    rewrite client_at_update_eq by (by rewrite store_event_client_objs, Hlen).
    rewrite client_at_store, Ho. simpl. subst o. split_and!; try done. congruence.
Qed.

Lemma send_other_client c ty d oid t c' :
  c <> c' -> client_at (snd (_send_sse_event c ty d oid t)) c' = client_at t c'.
Proof.
  intros Hne. unfold _send_sse_event.
  destruct oid as [e|]; simpl.
  - case_match; simpl; rewrite ?client_at_update_ne by done; apply client_at_store.
  - unfold _generate_event_id.
    case_match; simpl; rewrite ?client_at_update_ne by done;
      rewrite client_at_store; by rewrite client_at_update_ne.
Qed.

(** ** Sequences of deliveries *)

Lemma emitted_cons cid n0 ty d rest :
  emitted cid n0 ((ty, d) :: rest) =
    {| ev_id := event_id_of cid (n0 + 1); ev_type := ty; ev_data := d |}
      :: emitted cid (n0 + 1) rest.
Proof.
  unfold emitted. rewrite imap_cons. f_equal.
  - by rewrite Nat.add_0_r.
  - apply imap_ext. intros k [ty' d'] _. simpl. do 2 f_equal. lia.
Qed.

Lemma emitted_lookup cid n0 items k e :
  emitted cid n0 items !! k = Some e -> ev_id e = event_id_of cid (n0 + 1 + k).
Proof.
  unfold emitted. rewrite list_lookup_imap.
  destruct (items !! k) as [[ty d]|]; simpl; [|done]. by intros [= <-].
Qed.

Lemma deliver_all_spec c items t :
  stream_open t c ->
  exists t',
    deliver_all c items t = (Returned tt, t') /\
    stream_open t' c /\
    client_id (client_at t' c) = client_id (client_at t c) /\
    event_counter (client_at t' c) = event_counter (client_at t c) + length items /\
    written (response (client_at t' c)) =
      written (response (client_at t c)) ++
      emitted (client_id (client_at t c)) (event_counter (client_at t c)) items.
Proof.
  revert t. induction items as [|[ty d] rest IH]; intros t Hopen.
  - exists t. simpl. rewrite Nat.add_0_r, app_nil_r. done.
  - destruct Hopen as (Hc & Hcl & Heof).
    pose proof (send_client c ty d None t Hc) as Hsend. simpl in Hsend.
    destruct Hsend as (Hlen & Hid & Hcl' & Heof' & Hcnt & Hok & _).
    destruct Hok as [Hret Hwr]; [unfold refuses_writes; by rewrite Hcl, Heof|].
    destruct (_send_sse_event c ty d None t) as [o t1] eqn:Hs. simpl in *. subst o.
    destruct (IH t1) as (t' & Hrun & Hopen' & Hid' & Hcnt' & Hwr').
    { unfold stream_open. rewrite Hlen, Hcl', Heof'. done. }
    exists t'. split_and!.
    + change (deliver_all c ((ty, d) :: rest) t)
        with ((_send_sse_event c ty d None ;; deliver_all c rest) t).
      unfold mbind, M_bind. by rewrite Hs.
    + done.
    + congruence.
    + rewrite Hcnt', Hcnt. simpl. lia.
    + rewrite Hwr', Hwr, Hid, Hcnt, emitted_cons, <- app_assoc. done.
Qed.

(** C8.  A sequence of N deliveries to one open connection, each with
    a generated id, goes through; the counter moves from n0 to n0 + N
    and the k-th event written carries the id "{client_id}_{n0+1+k}".
    [parse_event_id] reads the connection id and the ordinal back
    from the id string alone, and the ordinals of any two events of
    the sequence increase strictly in the order of emission. *)
Theorem generated_event_ids_increase (t : Transport) (c : nat)
    (items : list (string * json)) :
  stream_open t c ->
  let cid := client_id (client_at t c) in
  let n0 := event_counter (client_at t c) in
  (exists t',
     deliver_all c items t = (Returned tt, t') /\
     event_counter (client_at t' c) = n0 + length items /\
     written (response (client_at t' c)) =
       written (response (client_at t c)) ++ emitted cid n0 items) /\
  (forall k e, emitted cid n0 items !! k = Some e ->
     ev_id e = event_id_of cid (n0 + 1 + k) /\
     parse_event_id (ev_id e) = Some (cid, n0 + 1 + k)) /\
  (forall i j e1 e2,
     i < j ->
     emitted cid n0 items !! i = Some e1 -> emitted cid n0 items !! j = Some e2 ->
     exists n1 n2,
       parse_event_id (ev_id e1) = Some (cid, n1) /\
       parse_event_id (ev_id e2) = Some (cid, n2) /\
       n1 < n2).
Proof.
  intros Hopen cid n0. split_and!.
  - destruct (deliver_all_spec c items t Hopen) as (t' & Hrun & _ & _ & Hcnt & Hwr).
    by exists t'.
  - intros k e Hk. apply emitted_lookup in Hk. rewrite Hk.
    split; [done|apply parse_event_id_of].
  - intros i j e1 e2 Hij H1 H2.
    apply emitted_lookup in H1, H2. rewrite H1, H2, !parse_event_id_of.
    eexists _, _. split_and!; [done..|lia].
Qed.

(** ** Replay: the iteration over a list that grows *)

Lemma event_history_with_lists f t : event_history (with_lists f t) = event_history t.
Proof. done. Qed.

Lemma event_history_with_event_history f t :
  event_history (with_event_history f t) = f (event_history t).
Proof. done. Qed.

Lemma lists_with_lists f t : lists (with_lists f t) = f (lists t).
Proof. done. Qed.

Lemma lists_with_event_history f t : lists (with_event_history f t) = lists t.
Proof. done. Qed.

Lemma list_at_with_event_history f t l : list_at (with_event_history f t) l = list_at t l.
Proof. done. Qed.

Lemma list_at_with_lists_app t x l :
  l < length (lists t) -> list_at (with_lists (fun ls => ls ++ [x]) t) l = list_at t l.
Proof. intros Hl. unfold list_at. rewrite lists_with_lists. by rewrite lookup_app_l. Qed.

Lemma list_at_with_lists_alter_eq t f l :
  l < length (lists t) -> list_at (with_lists (alter f l) t) l = f (list_at t l).
Proof.
  intros Hl. unfold list_at. rewrite lists_with_lists, list_lookup_alter_eq.
  by destruct (lookup_lt_is_Some_2 _ _ Hl) as [xs ->].
Qed.

Lemma list_at_with_lists_alter_ne t f l l' :
  l <> l' -> list_at (with_lists (alter f l) t) l' = list_at t l'.
Proof.
  intros Hl. unfold list_at. by rewrite lists_with_lists, list_lookup_alter_ne.
Qed.

Create Rewrite HintDb transport.

#[local] Hint Rewrite event_history_with_lists event_history_with_event_history
  lists_with_lists lists_with_event_history list_at_with_event_history
  @length_app @length_alter : transport.

Lemma store_event_lists_grow cid eid d t :
  length (lists t) <= length (lists (_store_event cid eid d t)).
Proof.
  unfold _store_event, truncate_history, append_history, ensure_history.
  repeat (case_match; simpl); rewrite ?length_app, ?length_alter, ?length_app; simpl; lia.
Qed.

(** What [_store_event] does to one list object [l]: when [l] is the
    list bound to [cid] it receives the entry in place, and stays
    bound unless it now exceeds 100 entries; any other object is left
    as it was. *)
Lemma store_event_object cid eid d t l :
  l < length (lists t) ->
  let t' := _store_event cid eid d t in
  (event_history t !! cid = Some l /\
   list_at t' l = list_at t l ++ [(eid, d)] /\
   ((length (list_at t l) < 100 /\ event_history t' !! cid = Some l) \/
    (100 <= length (list_at t l) /\ event_history t' !! cid <> Some l)))
  \/
  (event_history t !! cid <> Some l /\
   list_at t' l = list_at t l /\
   event_history t' !! cid <> Some l).
Proof.
  intros Hl. unfold _store_event. cbv zeta.
  destruct (event_history t !! cid) as [l0|] eqn:H0.
  - assert (He : ensure_history cid t = t) by (unfold ensure_history; by rewrite H0).
    rewrite He. unfold append_history. rewrite H0.
    set (t1 := with_lists (alter (fun xs => xs ++ [(eid, d)]) l0) t).
    assert (H1 : event_history t1 !! cid = Some l0) by done.
    assert (Hl1 : l < length (lists t1)) by (unfold t1; autorewrite with transport; done).
    assert (Hfresh : length (lists t1) <> l) by lia.
    unfold truncate_history. rewrite H1.
    destruct (decide (l0 = l)) as [->|Hne].
    + left. split; [done|].
      assert (Hat : list_at t1 l = list_at t l ++ [(eid, d)])
        by (by apply list_at_with_lists_alter_eq).
      rewrite Hat, length_app. cbn [length].
      destruct (100 <? length (list_at t l) + 1)%nat eqn:Hlen.
      * apply Nat.ltb_lt in Hlen. autorewrite with transport. rewrite lookup_insert_eq.
        rewrite list_at_with_lists_app, Hat by done.
        split; [done|]. right. split; [lia|congruence].
      * apply Nat.ltb_ge in Hlen. rewrite H1, Hat.
        split; [done|]. left. split; [lia|done].
    + right. split; [congruence|].
      assert (Hat : list_at t1 l = list_at t l)
        by (by apply list_at_with_lists_alter_ne).
      destruct (100 <? _)%nat.
      * autorewrite with transport. rewrite lookup_insert_eq.
        rewrite list_at_with_lists_app, Hat by done. split; [done|congruence].
      * rewrite H1, Hat. split; [done|congruence].
  - right. split; [done|].
    unfold ensure_history. rewrite H0.
    set (t0 := with_event_history _ _).
    assert (H0' : event_history t0 !! cid = Some (length (lists t)))
      by (unfold t0; autorewrite with transport; apply lookup_insert_eq).
    assert (Hat0 : list_at t0 l = list_at t l)
      by (unfold t0; autorewrite with transport; by apply list_at_with_lists_app).
    assert (Hlen0 : length (lists t0) = S (length (lists t)))
      by (unfold t0; autorewrite with transport; simpl; lia).
    unfold append_history. rewrite H0'.
    set (t1 := with_lists _ t0).
    assert (H1 : event_history t1 !! cid = Some (length (lists t))) by done.
    assert (Hat1 : list_at t1 l = list_at t l)
      by (unfold t1; rewrite list_at_with_lists_alter_ne by lia; done).
    assert (Hlen1 : length (lists t1) = S (length (lists t)))
      by (unfold t1; autorewrite with transport; done).
    assert (Hfresh : length (lists t) <> l) by lia.
    assert (Hfresh1 : length (lists t1) <> l) by lia.
    unfold truncate_history. rewrite H1.
    destruct (100 <? _)%nat.
    + autorewrite with transport. rewrite lookup_insert_eq.
      rewrite list_at_with_lists_app by lia. rewrite Hat1. split; [done|congruence].
    + rewrite H1, Hat1. split; [done|congruence].
Qed.

Lemma store_event_measure cid eid d t l :
  l < length (lists t) ->
  replay_measure (_store_event cid eid d t) cid l <= replay_measure t cid l.
Proof.
  intros Hl. unfold replay_measure.
  destruct (store_event_object cid eid d t l Hl)
    as [(H0 & Hat & [[Hlen H1]|[Hlen H1]])|(H0 & Hat & H1)]; rewrite Hat.
  - rewrite !decide_True by done. rewrite length_app. simpl. lia.
  - rewrite decide_False, decide_True by done. rewrite length_app. simpl. lia.
  - by rewrite !decide_False by done.
Qed.

Lemma store_event_elements cid eid d t l :
  l < length (lists t) -> (eid, d) ∈ list_at t l ->
  forall e, e ∈ list_at (_store_event cid eid d t) l -> e ∈ list_at t l.
Proof.
  intros Hl Hin e.
  destruct (store_event_object cid eid d t l Hl)
    as [(_ & Hat & _)|(_ & Hat & _)]; rewrite Hat; [|done].
  rewrite elem_of_app, list_elem_of_singleton. by intros [?| ->].
Qed.

Lemma client_id_update_response c r t c' :
  client_id (client_at (update_client c (set_response r) t) c') = client_id (client_at t c').
Proof.
  unfold client_at, update_client; simpl. rewrite list_lookup_total_alter.
  case_decide as Hd; [|done]. by destruct Hd as [-> _].
Qed.

(** A send with a given id leaves the history exactly as
    [_store_event] does, never runs on, and keeps the client's id. *)
Lemma send_given_history c ty d eid t :
  let t' := snd (_send_sse_event c ty d (Some eid) t) in
  let t1 := _store_event (client_id (client_at t c)) eid d t in
  event_history t' = event_history t1 /\ lists t' = lists t1 /\
  client_id (client_at t' c) = client_id (client_at t c) /\
  fst (_send_sse_event c ty d (Some eid) t) <> Diverged.
Proof.
  unfold _send_sse_event. cbv zeta.
  destruct (closing _ || eof _); cbn [fst snd].
  - by rewrite client_at_store.
  - rewrite client_id_update_response, client_at_store. done.
Qed.

Lemma replay_measure_ext t t' cid l :
  event_history t = event_history t' -> lists t = lists t' ->
  replay_measure t cid l = replay_measure t' cid l.
Proof. intros He Hl. unfold replay_measure, list_at. by rewrite He, Hl. Qed.

Lemma replay_measure_bound t cid l i x :
  list_at t l !! i = Some x -> i < replay_measure t cid l.
Proof.
  intros Hx. apply lookup_lt_Some in Hx. unfold replay_measure.
  case_decide; lia.
Qed.

Lemma replay_loop_terminates c last l fuel :
  forall t i replay,
    l < length (lists t) ->
    replay_measure t (client_id (client_at t c)) l - i < fuel ->
    fst (replay_loop fuel c last l i replay t) <> Diverged.
Proof.
  induction fuel as [|fuel IH]; intros t i replay Hl Hfuel; [lia|].
  cbn [replay_loop].
  destruct (list_at t l !! i) as [[eid d]|] eqn:Hi; [|done].
  pose proof (replay_measure_bound t (client_id (client_at t c)) l i _ Hi) as Hlt.
  destruct (String.eqb eid last); [apply IH; [done|lia]|].
  destruct replay; [|apply IH; [done|lia]].
  unfold mbind, M_bind.
  destruct (send_given_history c "message" d eid t) as (He & Hls & Hid & Hnd).
  destruct (_send_sse_event c "message" d (Some eid) t) as [[[]|e|] t1] eqn:Hs;
    cbn [fst snd] in *; [|done|done].
  apply IH.
  - rewrite Hls. pose proof (store_event_lists_grow (client_id (client_at t c)) eid d t). lia.
  - rewrite Hid.
    rewrite (replay_measure_ext t1 _ _ l He Hls).
    pose proof (store_event_measure (client_id (client_at t c)) eid d t l Hl). lia.
Qed.

(** The replay always comes to an end. *)
Lemma replay_terminates c last t : fst (_replay_events c last t) <> Diverged.
Proof.
  unfold _replay_events.
  destruct (event_history t !! client_id (client_at t c)) as [l|] eqn:Hl; [|done].
  destruct (decide (l < length (lists t))) as [Hlt|Hge].
  - apply replay_loop_terminates; [done|].
    unfold replay_fuel, replay_measure. rewrite decide_True by done. lia.
  - unfold replay_fuel. cbn [replay_loop].
    unfold list_at. rewrite (lookup_ge_None_2 (lists t) l) by lia. done.
Qed.

Lemma log_of_ext t t' cid :
  event_history t = event_history t' -> lists t = lists t' -> log_of t cid = log_of t' cid.
Proof. intros He Hl. unfold log_of, list_at. by rewrite He, Hl. Qed.

Lemma list_at_ext t t' l : lists t = lists t' -> list_at t l = list_at t' l.
Proof. intros Hl. unfold list_at. by rewrite Hl. Qed.

(** The outcome of a send tells whether the stream took the write. *)
Lemma send_outcome c ty d oid t :
  c < length (client_objs t) ->
  let res := _send_sse_event c ty d oid t in
  (fst res = Returned tt /\
   written (response (client_at (snd res) c)) =
     written (response (client_at t c)) ++
     [{| ev_id := sent_id t c oid; ev_type := ty; ev_data := d |}]) \/
  ((exists msg, fst res = Raised msg) /\
   written (response (client_at (snd res) c)) = written (response (client_at t c))).
Proof.
  intros Hc res. destruct (send_client c ty d oid t Hc) as (_ & _ & _ & _ & _ & Hok & Hno).
  destruct (refuses_writes (response (client_at t c))).
  - right. destruct Hno as [Hf Hw]; [done|]. split; [by eexists|done].
  - left. by apply Hok.
Qed.

Lemma replay_loop_log c last l fuel :
  forall t i replay o t',
    c < length (client_objs t) -> history_wf t -> l < length (lists t) ->
    length (log_of t (client_id (client_at t c))) <= 100 ->
    replay_loop fuel c last l i replay t = (o, t') ->
    let cid := client_id (client_at t c) in
    exists evs,
      written (response (client_at t' c)) = written (response (client_at t c)) ++ evs /\
      Forall (fun e => ev_type e = "message" /\ entry_of e ∈ list_at t l) evs /\
      (forall other, other <> cid -> log_of t' other = log_of t other) /\
      match o with
      | Returned _ => log_of t' cid = last100 (log_of t cid ++ map entry_of evs)
      | Raised _ =>
          exists e, log_of t' cid = last100 (log_of t cid ++ map entry_of evs ++ [e])
      | Diverged => True
      end.
Proof.
  induction fuel as [|fuel IH]; intros t i replay o t' Hc Hwf Hl Hlen Hrun cid; subst cid.
  { simpl in Hrun. injection Hrun as <- <-. exists []. rewrite app_nil_r. done. }
  cbn [replay_loop] in Hrun.
  destruct (list_at t l !! i) as [[eid d]|] eqn:Hi.
  2:{ injection Hrun as <- <-. exists []. rewrite !app_nil_r.
      split_and!; try done. symmetry. by apply last100_short. }
  destruct (String.eqb eid last); [by eapply IH|].
  destruct replay; [|by eapply IH].
  unfold mbind, M_bind in Hrun.
  destruct (send_given_history c "message" d eid t) as (He & Hls & Hid & _).
  destruct (send_log c "message" d (Some eid) t Hc Hwf) as (Hwf1 & Hlog1 & Hoth1).
  destruct (send_client c "message" d (Some eid) t Hc) as (Hlen1 & _).
  pose proof (send_outcome c "message" d (Some eid) t Hc) as Hout.
  destruct (_send_sse_event c "message" d (Some eid) t) as [o1 t1] eqn:Hs.
  cbn [fst snd sent_id] in *.
  set (cid := client_id (client_at t c)) in *.
  destruct Hout as [[-> Hw]|[[msg ->] Hw]].
  - (* the write went through: the rest of the loop runs on [t1] *)
    assert (Hl1 : l < length (lists t1)).
    { rewrite Hls. pose proof (store_event_lists_grow cid eid d t). lia. }
    destruct (IH t1 (S i) true o t') as (evs & Hw' & Hall & Hoth & Hres); try done.
    { lia. } { rewrite Hid, Hlog1. apply last100_length. }
    rewrite Hid in Hoth, Hres.
    exists ({| ev_id := eid; ev_type := "message"; ev_data := d |} :: evs).
    split_and!.
    + rewrite Hw', Hw, <- app_assoc. done.
    + constructor.
      * split; [done|]. by apply list_elem_of_lookup_2 in Hi.
      * eapply Forall_impl; [exact Hall|]. intros e [Hty Hin]. split; [done|].
        rewrite (list_at_ext t1 (_store_event cid eid d t) l Hls) in Hin.
        eapply store_event_elements; [done| |exact Hin].
        by apply list_elem_of_lookup_2 in Hi.
    + intros other Hne. rewrite Hoth, Hoth1; done.
    + destruct o as [[]|e|]; [| |done].
      * rewrite Hres, Hlog1, last100_app, <- app_assoc. done.
      * destruct Hres as [e' Hres]. exists e'.
        rewrite Hres, Hlog1, last100_app, <- app_assoc. done.
  - (* the stream refused the write: the event is stored, the loop is left *)
    injection Hrun as <- <-. exists []. rewrite app_nil_r.
    split_and!; try done. by exists (eid, d).
Qed.

Lemma last100_length_eq {A} (xs : list A) : length (last100 xs) = Nat.min 100 (length xs).
Proof. unfold last100. rewrite length_drop. lia. Qed.

Lemma replay_events_log c last t :
  c < length (client_objs t) -> history_wf t ->
  let cid := client_id (client_at t c) in
  length (log_of t cid) <= 100 ->
  let res := _replay_events c last t in
  exists evs,
    written (response (client_at (snd res) c)) = written (response (client_at t c)) ++ evs /\
    Forall (fun e => ev_type e = "message" /\ entry_of e ∈ log_of t cid) evs /\
    (forall other, other <> cid -> log_of (snd res) other = log_of t other) /\
    ((fst res = Returned tt /\
      log_of (snd res) cid = last100 (log_of t cid ++ map entry_of evs)) \/
     (exists msg e, fst res = Raised msg /\
      log_of (snd res) cid = last100 (log_of t cid ++ map entry_of evs ++ [e]))).
Proof.
  intros Hc Hwf cid Hlen res. subst res.
  pose proof (replay_terminates c last t) as Hterm.
  unfold _replay_events in *. fold cid in Hterm |- *.
  destruct (event_history t !! cid) as [l|] eqn:Hl.
  - assert (Hlt : l < length (lists t)) by (by eapply hist_bound).
    assert (Hlog : log_of t cid = list_at t l) by (unfold log_of; by rewrite Hl).
    destruct (replay_loop _ c last l 0 false t) as [o t'] eqn:Hrun.
    destruct (replay_loop_log c last l _ t 0 false o t' Hc Hwf Hlt Hlen Hrun)
      as (evs & Hw & Hall & Hoth & Hres).
    fold cid in Hoth, Hres. exists evs. cbn [fst snd] in *.
    split_and!; try done.
    + by rewrite Hlog.
    + destruct o as [[]|msg|]; [by left| |done].
      right. destruct Hres as [e He]. by exists msg, e.
  - exists []. cbn [fst snd]. rewrite !app_nil_r. split_and!; try done.
    left. split; [done|]. symmetry. by apply last100_short.
Qed.

(** C10.  Every call of [_send_sse_event] appends (event id, payload)
    to the log of the connection it serves, whether the id was
    generated or handed in, and an event that reached the stream is
    always one that was appended.  [_replay_events] therefore writes
    to the log it reads: the k events it puts on the stream are
    "message" events whose (id, payload) pairs were already in the
    log, and the log afterwards is the last 100 entries of the old log
    followed by those k entries again; as long as the log is not yet
    full, one replayed event makes it longer. *)
Theorem replay_appends_to_log (t : Transport) (c : nat) :
  c < length (client_objs t) -> history_wf t ->
  let cid := client_id (client_at t c) in
  length (log_of t cid) <= 100 ->
  (forall ty d oid,
     let res := _send_sse_event c ty d oid t in
     log_of (snd res) cid = last100 (log_of t cid ++ [(sent_id t c oid, d)]) /\
     (written (response (client_at (snd res) c)) = written (response (client_at t c)) \/
      written (response (client_at (snd res) c)) =
        written (response (client_at t c)) ++
        [{| ev_id := sent_id t c oid; ev_type := ty; ev_data := d |}])) /\
  (forall last,
     let res := _replay_events c last t in
     exists evs,
       written (response (client_at (snd res) c)) =
         written (response (client_at t c)) ++ evs /\
       Forall (fun e => ev_type e = "message" /\ entry_of e ∈ log_of t cid) evs /\
       ((fst res = Returned tt /\
         log_of (snd res) cid = last100 (log_of t cid ++ map entry_of evs)) \/
        (exists msg e, fst res = Raised msg /\
         log_of (snd res) cid = last100 (log_of t cid ++ map entry_of evs ++ [e]))) /\
       (evs <> [] -> length (log_of t cid) < 100 ->
        length (log_of t cid) < length (log_of (snd res) cid))).
Proof.
  intros Hc Hwf cid Hlen. split.
  - intros ty d oid res. subst res. split.
    + by destruct (send_log c ty d oid t Hc Hwf) as (_ & ? & _).
    + destruct (send_outcome c ty d oid t Hc) as [[_ ?]|[_ ?]]; [by right|by left].
  - intros last res.
    destruct (replay_events_log c last t Hc Hwf Hlen) as (evs & Hw & Hall & _ & Hres).
    fold cid res in Hw, Hall, Hres.
    exists evs. split_and!; try done.
    intros Hne Hshort.
    assert (0 < length evs) by (destruct evs; [done|simpl; lia]).
    destruct Hres as [[_ ->]|(msg & e & _ & ->)];
      rewrite last100_length_eq, !length_app, ?length_map; cbn [length]; lia.
Qed.

(** ** The handlers of /mcp *)

Section Handlers.

Context `{Library}.

Lemma parse_message_fst item t : fst (_parse_message item t) = parsed item.
Proof.
  unfold parsed, _parse_message.
  repeat (case_match; simpl; try done).
Qed.

Lemma same_tables_refl t : same_tables t t.
Proof. by repeat split. Qed.

Lemma same_tables_trans t1 t2 t3 : same_tables t1 t2 -> same_tables t2 t3 -> same_tables t1 t3.
Proof. unfold same_tables. intros ? ?. destruct_and!. split_and!; congruence. Qed.

Lemma parse_message_tables item t : same_tables t (snd (_parse_message item t)).
Proof.
  unfold _parse_message.
  repeat (case_match; simpl; try apply same_tables_refl); by repeat split.
Qed.

Lemma parse_items_spec items t :
  fst (parse_items items t) = omap parsed items /\
  same_tables t (snd (parse_items items t)).
Proof.
  revert t. induction items as [|item rest IH]; intros t; [split; [done|apply same_tables_refl]|].
  cbn [parse_items omap list_omap].
  pose proof (parse_message_fst item t) as Hf.
  pose proof (parse_message_tables item t) as Hs.
  destruct (_parse_message item t) as [m t1]. cbn [fst snd] in *.
  destruct (IH t1) as [Hf' Hs'].
  destruct (parse_items rest t1) as [ms t2]. cbn [fst snd] in *.
  rewrite <- Hf. split.
  - destruct m; by rewrite Hf'.
  - by eapply same_tables_trans.
Qed.

Lemma classify_spec data t :
  fst (classify data t) = kept data /\ same_tables t (snd (classify data t)).
Proof.
  unfold classify, kept.
  destruct data as [|b|n|s|items|fields]; try (
    match goal with |- context [_parse_message ?d t] =>
      pose proof (parse_message_fst d t) as Hf;
      pose proof (parse_message_tables d t) as Hs;
      destruct (_parse_message d t) as [m t1] end;
    cbn [fst snd] in *; rewrite <- Hf; by split).
  destruct (parse_items_spec items t) as [Hf Hs].
  destruct (parse_items items t) as [ms t1]. cbn [fst snd] in *.
  split; [done|]. eapply same_tables_trans; [exact Hs|]. by repeat split.
Qed.

End Handlers.

Section Gated.

Context `{Library}.

Lemma send_not_diverged c ty d oid t : fst (_send_sse_event c ty d oid t) <> Diverged.
Proof.
  unfold _send_sse_event. destruct oid; simpl; [by case_match|].
  destruct (_generate_event_id c t). by case_match.
Qed.

Lemma opening_not_diverged c cid req msgs t : fst (opening c cid req msgs t) <> Diverged.
Proof.
  unfold opening, mbind, M_bind, modify.
  assert (Hfirst : forall t,
    fst ((if truthy (h_last_event_id req)
          then _replay_events c (default "" (h_last_event_id req))
          else mret tt) t) <> Diverged).
  { intros t0. destruct (truthy _); [apply replay_terminates|done]. }
  specialize (Hfirst t).
  destruct ((if truthy (h_last_event_id req)
             then _replay_events c (default "" (h_last_event_id req))
             else mret tt) t) as [[[]|e|] t1];
    cbn [fst] in *; [|done|done].
  apply send_not_diverged.
Qed.

(** Once the origin is accepted, [_initiate_sse] answers with the
    stream. *)
Lemma initiate_sse_streams req msgs sid init t :
  _validate_origin req = true ->
  exists c t', _initiate_sse req msgs sid init t = (Returned (Streaming c), t').
Proof.
  intros Ho. unfold _initiate_sse. rewrite Ho. cbn [negb].
  destruct (if init && negb (truthy sid) then _ else _) as [sid' t0].
  cbv zeta.
  match goal with |- context [opening ?c ?cid req msgs ?t1] =>
    pose proof (opening_not_diverged c cid req msgs t1) as Hnd;
    destruct (opening c cid req msgs t1) as [[[]|e|] t2] end;
    cbn [fst] in *; [|by eauto|done].
  destruct (loop_continues _ t2); by eauto.
Qed.

(** The handler past its gates. *)
Lemma handle_post_gated req data t :
  passes_gates req data t ->
  _handle_post req t =
    let t1 := snd (session_gate req data t) in
    let t2 := count_messages (length (kept data)) (snd (classify data t1)) in
    if forallb is_JSONRPCResponse (kept data) || forallb is_JSONRPCNotification (kept data)
    then (Returned (PlainResponse 202 "Accepted"), t2)
    else if str_contains "text/event-stream" (default "" (h_accept req))
    then _initiate_sse req (kept data) (h_session_id req) (is_initialize_body data) t2
    else
      let '(header, t3) :=
        if is_initialize_body data && negb (truthy (h_session_id req))
        then let '(s, t') := _create_session t2 in (Some s, t')
        else (None, t2) in
      (Returned (JsonReceived (length (kept data)) header), t3).
Proof.
  intros (Ho & Hv & Hc & Hb & Hs). unfold _handle_post.
  rewrite Ho. cbn [negb].
  destruct (_validate_protocol_version req) as [valid ver]. cbn [fst] in Hv. subst valid.
  cbn [negb]. rewrite Hc. cbn [negb]. rewrite Hb.
  unfold session_gate in *.
  destruct (if negb (is_initialize_body data) && truthy (h_session_id req) then _ else _)
    as [ok t1]. cbn [fst snd] in *. subst ok. cbn [negb].
  destruct (classify_spec data t1) as [Hk _].
  destruct (classify data t1) as [ms t2]. cbn [fst snd] in *. subst ms. done.
Qed.

End Gated.

Lemma validate_session_tables sid t :
  let t' := snd (_validate_session sid t) in
  config t' = config t /\ running t' = running t /\
  clients t' = clients t /\ client_objs t' = client_objs t /\
  dom (sessions t') = dom (sessions t) /\ event_history t' = event_history t /\
  lists t' = lists t /\ client_counter t' = client_counter t /\
  uuids_drawn t' = uuids_drawn t.
Proof.
  unfold _validate_session. destruct sid as [s|]; [|done].
  destruct (negb _); [done|].
  destruct (sessions t !! s) as [info|] eqn:Hs; [|done].
  cbn. split_and!; try done.
  apply set_eq. intros k. rewrite dom_insert, elem_of_union, elem_of_singleton.
  split; [|by right]. intros [->|?]; [|done]. apply elem_of_dom. eauto.
Qed.

Lemma validate_session_unknown s t :
  s <> "" -> sessions t !! s = None -> _validate_session (Some s) t = (false, t).
Proof.
  intros Hne Hs. unfold _validate_session. cbn [truthy].
  destruct (String.eqb_spec s ""); [done|]. cbn [negb]. by rewrite Hs.
Qed.

Lemma request_excludes_pure ms :
  existsb is_JSONRPCRequest ms = true ->
  forallb is_JSONRPCResponse ms || forallb is_JSONRPCNotification ms = false.
Proof.
  induction ms as [|m ms IH]; [done|]. cbn [existsb forallb].
  destruct m; cbn [is_JSONRPCRequest is_JSONRPCResponse is_JSONRPCNotification
                   orb andb]; [done| |].
  - intros Hex. by apply orb_false_iff in IH as [_ ->].
  - intros Hex. by apply orb_false_iff in IH as [-> _].
Qed.

Section Claims.

Context `{Library}.

Lemma session_gate_tables req data t :
  let t' := snd (session_gate req data t) in
  clients t' = clients t /\ client_objs t' = client_objs t /\
  dom (sessions t') = dom (sessions t) /\ event_history t' = event_history t /\
  lists t' = lists t /\ client_counter t' = client_counter t /\
  uuids_drawn t' = uuids_drawn t.
Proof.
  unfold session_gate. destruct (negb _ && truthy _); [|done].
  pose proof (validate_session_tables (h_session_id req) t) as Hv.
  cbv zeta in Hv. by destruct_and!.
Qed.

Lemma parsed_request fields :
  obj_has "method" fields = true -> obj_has "id" fields = true ->
  request_valid fields = true ->
  parsed (JObj fields) = Some (JSONRPCRequest fields).
Proof.
  intros Hm Hi Hv. unfold parsed, _parse_message, py_in, construct.
  by rewrite Hm, Hi, Hv.
Qed.

(** C2, as amended.  [_handle_post] checks origin, protocol version,
    content type, body and session in this order; the first check
    that fails decides the answer, whatever the later ones would say,
    and leaves the transport as it was: 403 for an origin that is not
    allowed, 400 with the version for an unsupported protocol version,
    400 when the content type does not contain application/json, 400
    with the parser's text when the body does not decode, and 404
    when a session id header with a non-empty value names no session
    and the body is not an initialize. *)
Theorem post_gates_in_order (req : Request) (t : Transport) :
  (_validate_origin req = false ->
   _handle_post req t = (Returned (PlainResponse 403 "Forbidden: Invalid origin"), t)) /\
  (_validate_origin req = true ->
   fst (_validate_protocol_version req) = false ->
   _handle_post req t =
     (Returned (PlainResponse 400
        ("Unsupported protocol version: " +:+
         default "2025-03-26" (h_protocol_version req))), t)) /\
  (_validate_origin req = true ->
   fst (_validate_protocol_version req) = true ->
   str_contains "application/json" (default "" (h_content_type req)) = false ->
   _handle_post req t =
     (Returned (PlainResponse 400 "Content-Type must be application/json"), t)) /\
  (forall e,
   _validate_origin req = true ->
   fst (_validate_protocol_version req) = true ->
   str_contains "application/json" (default "" (h_content_type req)) = true ->
   body req = inl e ->
   _handle_post req t = (Returned (PlainResponse 400 ("Invalid JSON: " +:+ e)), t)) /\
  (forall data sid,
   _validate_origin req = true ->
   fst (_validate_protocol_version req) = true ->
   str_contains "application/json" (default "" (h_content_type req)) = true ->
   body req = inr data ->
   is_initialize_body data = false ->
   h_session_id req = Some sid -> sid <> "" ->
   sessions t !! sid = None ->
   _handle_post req t =
     (Returned (PlainResponse 404 "Session not found or expired"), t)).
Proof.
  unfold _handle_post, _validate_protocol_version.
  split_and!.
  - by intros ->.
  - intros ->. cbn [negb]. destruct (negb (bool_decide _)); [done|]. by cbn.
  - intros ->. cbn [negb]. destruct (negb (bool_decide _)); [by cbn|].
    cbn. by intros _ ->.
  - intros e ->. cbn [negb]. destruct (negb (bool_decide _)); [by cbn|].
    cbn. by intros _ -> ->.
  - intros data sid ->. cbn [negb]. destruct (negb (bool_decide _)); [by cbn|].
    cbn. intros _ -> -> -> -> Hne Hs. cbn [negb andb].
    assert (Ht : truthy (Some sid) = true).
    { cbn. by destruct (String.eqb_spec sid ""). }
    rewrite Ht. by rewrite validate_session_unknown.
Qed.

(** C5, as amended.  The origin check accepts a request without an
    Origin header, and one whose Origin value is empty; it accepts
    every Origin that begins with one of the four localhost or
    127.0.0.1 prefixes, whatever follows; and every other non-empty
    Origin is refused, POST /mcp and GET /mcp both answering 403. *)
Theorem origin_allow_list (req : Request) (t : Transport) :
  (h_origin req = None -> _validate_origin req = true) /\
  (h_origin req = Some "" -> _validate_origin req = true) /\
  (forall o p,
     h_origin req = Some o -> p ∈ allowed_prefixes -> startswith o p = true ->
     _validate_origin req = true) /\
  (forall o,
     h_origin req = Some o -> o <> "" ->
     (forall p, p ∈ allowed_prefixes -> startswith o p = false) ->
     _validate_origin req = false /\
     _handle_post req t = (Returned (PlainResponse 403 "Forbidden: Invalid origin"), t) /\
     _handle_sse req t = (Returned (PlainResponse 403 "Forbidden: Invalid origin"), t)).
Proof.
  unfold _validate_origin. split_and!.
  - by intros ->.
  - by intros ->.
  - intros o p -> Hp Hs. cbn [truthy default].
    destruct (negb (negb _)); [done|].
    apply existsb_exists. exists p. split; [by apply list_elem_of_In|done].
  - intros o Ho Hne Hall.
    assert (Hv : _validate_origin req = false).
    { unfold _validate_origin. rewrite Ho. cbn [truthy default].
      destruct (String.eqb_spec o ""); [done|]. cbn [negb].
      apply not_true_is_false. intros (p & Hp & Hs)%existsb_exists.
      apply list_elem_of_In in Hp. rewrite Hall in Hs; done. }
    fold (_validate_origin req). split; [done|].
    unfold _handle_post, _handle_sse. by rewrite Hv.
Qed.

(** C6.  For a POST that passes all gates: when the messages kept
    from the body are all notifications, or all responses, the answer
    is 202 Accepted and no connection, session, event log entry or
    identifier has been created; when one of them is a request the
    answer is not 202 but a 200 (the stream, or the JSON
    acknowledgement); and an element with [method] and [id] that
    the envelope validation accepts is such a request. *)
Theorem pure_batches_get_202 (req : Request) (data : json) (t : Transport) :
  passes_gates req data t ->
  (forallb is_JSONRPCNotification (kept data) = true \/
   forallb is_JSONRPCResponse (kept data) = true ->
   exists t',
     _handle_post req t = (Returned (PlainResponse 202 "Accepted"), t') /\
     clients t' = clients t /\ client_objs t' = client_objs t /\
     client_counter t' = client_counter t /\
     dom (sessions t') = dom (sessions t) /\
     event_history t' = event_history t /\ lists t' = lists t /\
     uuids_drawn t' = uuids_drawn t) /\
  (existsb is_JSONRPCRequest (kept data) = true ->
   exists r t',
     _handle_post req t = (Returned r, t') /\ status_of r = 200 /\
     (forall text, r <> PlainResponse 202 text)) /\
  (forall fields,
     data = JObj fields \/ (exists items, data = JArr items /\ JObj fields ∈ items) ->
     obj_has "method" fields = true -> obj_has "id" fields = true ->
     request_valid fields = true ->
     existsb is_JSONRPCRequest (kept data) = true).
Proof.
  intros Hg. pose proof (handle_post_gated req data t Hg) as Hpost. cbv zeta in Hpost.
  split_and!.
  - intros Hpure.
    assert (Hb : forallb is_JSONRPCResponse (kept data)
                 || forallb is_JSONRPCNotification (kept data) = true).
    { apply orb_true_iff. tauto. }
    rewrite Hb in Hpost. eexists. split; [exact Hpost|].
    destruct (session_gate_tables req data t) as (? & ? & ? & ? & ? & ? & ?).
    destruct (classify_spec data (snd (session_gate req data t))) as [_ Hs].
    unfold same_tables in Hs. destruct_and!. cbn.
    split_and!; congruence.
  - intros Hex. rewrite (request_excludes_pure _ Hex) in Hpost.
    destruct Hg as (Ho & _).
    destruct (str_contains "text/event-stream" _).
    + edestruct initiate_sse_streams as (c & t' & Hs); [exact Ho|].
      rewrite Hs in Hpost. by exists (Streaming c), t'.
    + destruct (if is_initialize_body data && _ then _ else _) as [hdr t3].
      by eexists _, _.
  - intros fields Hin Hm Hi Hv.
    pose proof (parsed_request fields Hm Hi Hv) as Hp.
    destruct Hin as [->|(items & -> & Hin)]; cbn [kept].
    + by rewrite Hp.
    + apply existsb_exists. exists (JSONRPCRequest fields). split; [|done].
      apply list_elem_of_In, list_elem_of_omap. eauto.
Qed.

(** C9.  A POST that passes all gates and from whose body no message
    is kept, be it an empty array, an array all of whose elements the
    classifier drops, or a single value it drops, is answered
    202 Accepted. *)
Theorem empty_classification_gets_202 (req : Request) (data : json) (t : Transport) :
  passes_gates req data t ->
  match data with
  | JArr items => Forall (fun item => parsed item = None) items
  | _ => parsed data = None
  end ->
  kept data = [] /\
  exists t', _handle_post req t = (Returned (PlainResponse 202 "Accepted"), t').
Proof.
  intros Hg Hdrop.
  assert (Hk : kept data = []).
  { destruct data as [|b|n|s|items|fields]; cbn [kept]; try by rewrite Hdrop.
    clear Hg. induction Hdrop as [|item rest Hitem _ IH]; [done|].
    cbn. by rewrite Hitem. }
  split; [done|].
  pose proof (handle_post_gated req data t Hg) as Hpost. cbv zeta in Hpost.
  rewrite Hk in Hpost. cbn in Hpost. eauto.
Qed.

End Claims.

(** ** Shutdown *)

Lemma client_id_update_finish c t c' :
  client_id (client_at (update_client c (fun o => set_response (finish (response o)) o) t) c')
  = client_id (client_at t c').
Proof.
  unfold client_at, update_client; simpl. rewrite list_lookup_total_alter.
  case_decide as Hd; [|done]. by destruct Hd as [-> _].
Qed.

(** What closing one client does: its own id leaves the table, no
    entry is added, no id changes, and nothing else is touched. *)
Lemma close_client_effect c t :
  let t' := _close_client c t in
  clients t' = delete (client_id (client_at t c)) (clients t) /\
  (forall c', client_id (client_at t' c') = client_id (client_at t c')) /\
  sessions t' = sessions t /\ event_history t' = event_history t /\
  lists t' = lists t /\ config t' = config t /\ running t' = running t /\
  ping_task t' = ping_task t /\ serving t' = serving t.
Proof.
  unfold _close_client. cbv zeta.
  set (cid := client_id (client_at t c)).
  set (t1 := match clients t !! cid with Some _ => _ | None => t end).
  assert (H1 : clients t1 = delete cid (clients t)).
  { unfold t1. destruct (clients t !! cid) eqn:Hc; [done|]. by rewrite delete_id. }
  assert (H2 : client_objs t1 = client_objs t)
    by (unfold t1; by destruct (clients t !! cid)).
  assert (H3 : sessions t1 = sessions t /\ event_history t1 = event_history t /\
               lists t1 = lists t /\ config t1 = config t /\ running t1 = running t /\
               ping_task t1 = ping_task t /\ serving t1 = serving t)
    by (unfold t1; by destruct (clients t !! cid)).
  assert (H4 : forall c', client_at t1 c' = client_at t c')
    by (intros c'; unfold client_at; by rewrite H2).
  destruct (negb _).
  - split_and!; try (by destruct_and!).
    intros c'. by rewrite client_id_update_finish, H4.
  - split_and!; try (by destruct_and!). intros c'. by rewrite H4.
Qed.

Lemma bool_decide_ext' {A} (P Q : Prop) `{Decision P, Decision Q} (x y : A) :
  (P <-> Q) -> (if bool_decide P then x else y) = (if bool_decide Q then x else y).
Proof. intros HPQ. by rewrite (bool_decide_ext P Q). Qed.

Lemma close_all_effect refs t :
  let t' := foldl (fun t c => _close_client c t) t refs in
  (forall k, clients t' !! k =
     if bool_decide (k ∈ (fun c => client_id (client_at t c)) <$> refs)
     then None else clients t !! k) /\
  (forall c', client_id (client_at t' c') = client_id (client_at t c')) /\
  sessions t' = sessions t /\ event_history t' = event_history t /\
  lists t' = lists t /\ config t' = config t /\ running t' = running t /\
  ping_task t' = ping_task t /\ serving t' = serving t.
Proof.
  revert t. induction refs as [|c refs IH]; intros t; cbn [foldl].
  { split_and!; try done. }
  destruct (close_client_effect c t) as (Hc & Hid & Hs & He & Hl & Hcf & Hr & Hp & Hsv).
  destruct (IH (_close_client c t)) as (Hc' & Hid' & Hs' & He' & Hl' & Hcf' & Hr' & Hp' & Hsv').
  cbv zeta in *. split_and!; try congruence.
  - intros k. rewrite Hc', Hc. rewrite fmap_cons.
    assert (Heq : (fun c0 => client_id (client_at (_close_client c t) c0)) <$> refs
                  = (fun c0 => client_id (client_at t c0)) <$> refs).
    { apply list_fmap_ext. intros _ c0 _. apply Hid. }
    rewrite Heq.
    destruct (decide (k = client_id (client_at t c))) as [->|Hne].
    + rewrite lookup_delete_eq.
      rewrite (bool_decide_eq_true_2 (_ ∈ _ :: _)) by left. by case_bool_decide.
    + rewrite lookup_delete_ne by done.
      apply bool_decide_ext'. rewrite elem_of_cons.
      split; [by right|by intros [?|?]].
Qed.

(** C3, as amended.  After [stop] the connection table is empty and
    the transport is not running, while the session table and the
    event logs are what they were before; a [start] that follows
    begins with an empty connection table and with those sessions
    and logs. *)
Theorem stop_empties_connection_table_only (t : Transport) :
  clients_keyed t ->
  clients (stop t) = ∅ /\
  sessions (stop t) = sessions t /\
  event_history (stop t) = event_history t /\
  lists (stop t) = lists t /\
  running (stop t) = false /\
  clients (start (stop t)) = ∅ /\
  sessions (start (stop t)) = sessions t /\
  (forall cid, log_of (start (stop t)) cid = log_of t cid).
Proof.
  intros Hkeyed. unfold stop. cbv zeta.
  set (t0 := if ping_task (with_running false t) then _ else _).
  assert (H0 : clients t0 = clients t /\ client_objs t0 = client_objs t /\
               sessions t0 = sessions t /\ event_history t0 = event_history t /\
               lists t0 = lists t /\ running t0 = false).
  { unfold t0. by destruct (ping_task _). }
  destruct H0 as (Hc0 & Ho0 & Hs0 & He0 & Hl0 & Hr0).
  destruct (close_all_effect (client_refs t0) t0)
    as (Hc & _ & Hs & He & Hl & _ & Hr & _). cbv zeta in *.
  assert (Hempty : clients (foldl (fun t c => _close_client c t) t0 (client_refs t0)) = ∅).
  { apply map_empty. intros k. rewrite Hc. case_bool_decide as Hd; [done|].
    destruct (clients t0 !! k) as [c|] eqn:Hk; [|done].
    exfalso. apply Hd. apply list_elem_of_fmap. exists c. split.
    - symmetry. unfold client_at. rewrite Ho0. rewrite Hc0 in Hk. by apply Hkeyed in Hk.
    - unfold client_refs. apply list_elem_of_fmap. exists (k, c).
      split; [done|]. by apply elem_of_map_to_list. }
  cbn. split_and!; try congruence.
  intros cid. unfold log_of, list_at. cbn. by rewrite He, Hl, He0, Hl0.
Qed.

(** ** A client that reconnects, and the bind host *)

Example ten_events_written :
  written (response (client_at ten_events 0)) =
    connected_event "client_1" 1 :: map tick_event (seq 2 9).
Proof. vm_compute. reflexivity. Qed.

Example ten_events_log :
  log_of disconnected "client_1" =
    map entry_of (connected_event "client_1" 1 :: map tick_event (seq 2 9)).
Proof. vm_compute. reflexivity. Qed.

(** C1.  A client that received ten events on connection client_1 and
    reconnects with Last-Event-ID client_1_5 is registered as
    client_2; no history exists under that id, so the replay sends
    nothing: the new stream carries the [connected] event alone and
    none of the events client_1_6 .. client_1_10, which stay in the
    log of client_1. *)
Theorem reconnect_replays_nothing :
  map fst (log_of disconnected "client_1") = map (event_id_of "client_1") (seq 1 10) /\
  h_last_event_id reconnect = Some (event_id_of "client_1" 5) /\
  exists t',
    _handle_sse (H := mcp_types) reconnect disconnected = (Returned (Streaming 1), t') /\
    client_id (client_at t' 1) = "client_2" /\
    written (response (client_at t' 1)) = [connected_event "client_2" 1] /\
    log_of t' "client_1" = log_of disconnected "client_1".
Proof.
  split; [vm_compute; reflexivity|]. split; [vm_compute; reflexivity|].
  eexists. vm_compute. repeat split; reflexivity.
Qed.

(** Replaying on the connection that owns the history does find the
    events, but the loop reads the list it appends to: instead of
    e6..e10 once, 96 events go out. *)
Example replay_on_owner_runs_on :
  let res := _replay_events 0 "client_1_5" ten_events in
  fst res = Returned tt /\
  length (written (response (client_at (snd res) 0))) = 10 + 96 /\
  take 7 (drop 10 (map ev_id (written (response (client_at (snd res) 0))))) =
    ["client_1_6"; "client_1_7"; "client_1_8"; "client_1_9"; "client_1_10";
     "client_1_6"; "client_1_7"].
Proof. vm_compute. repeat split; reflexivity. Qed.

(** C4.  The constructor overrides the host only when it is 0.0.0.0
    or unset: the IPv6 wildcard "::" and the address 192.168.1.10
    are kept as the bind host, and neither is a loopback address. *)
Theorem bind_host_kept_when_not_listed :
  cfg_host (config (__init__ (Some {| cfg_host := Some "::"; cfg_port := 8765 |}))) = Some "::" /\
  is_loopback (Some "::") = false /\
  cfg_host (config (__init__ (Some {| cfg_host := Some "192.168.1.10"; cfg_port := 8765 |})))
    = Some "192.168.1.10" /\
  is_loopback (Some "192.168.1.10") = false.
Proof. repeat split; reflexivity. Qed.

(** ** The properties at concrete inputs *)

Lemma history_wf_check t :
  map_Forall (fun _ l => l < length (lists t)) (event_history t) ->
  map_Forall (fun c1 l1 =>
    map_Forall (fun c2 l2 => l1 = l2 -> c1 = c2) (event_history t)) (event_history t) ->
  history_wf t.
Proof.
  intros Hb Hi. split.
  - intros cid l Hl. exact (Hb cid l Hl).
  - intros c1 c2 l H1 H2. exact (Hi c1 l H1 c2 l H2 eq_refl).
Qed.

Lemma ten_events_wf : history_wf ten_events.
Proof. apply history_wf_check; apply (bool_decide_unpack _); vm_compute; exact I. Qed.

(** The part of the bind policy the constructor does implement. *)
Lemma wildcard_bind_overridden (cfg : TransportConfig) :
  host_is_wildcard (cfg_host cfg) = true ->
  cfg_host (config (__init__ (Some cfg))) = Some "127.0.0.1".
Proof. intros Hw. unfold __init__. by rewrite Hw. Qed.

Lemma default_bind_is_loopback : cfg_host (config (__init__ None)) = Some "127.0.0.1".
Proof. reflexivity. Qed.

Lemma listed_bind_kept (cfg : TransportConfig) :
  host_is_wildcard (cfg_host cfg) = false -> config (__init__ (Some cfg)) = cfg.
Proof. intros Hw. unfold __init__. by rewrite Hw. Qed.

(** An unknown last event id: nothing is sent, nothing changes. *)
Lemma replay_loop_unknown_id c last l fuel :
  forall t i,
    Forall (fun e => fst e <> last) (list_at t l) ->
    fst (replay_loop fuel c last l i false t) <> Diverged ->
    replay_loop fuel c last l i false t = (Returned tt, t).
Proof.
  induction fuel as [|fuel IH]; intros t i Hall Hnd; [done|].
  cbn [replay_loop] in *.
  destruct (list_at t l !! i) as [[eid d]|] eqn:Hi; [|done].
  assert (Hne : eid <> last).
  { apply list_elem_of_lookup_2 in Hi. rewrite Forall_forall in Hall. by apply Hall in Hi. }
  apply String.eqb_neq in Hne. rewrite Hne in *. by apply IH.
Qed.

Lemma replay_unknown_id c last t :
  Forall (fun e => fst e <> last) (log_of t (client_id (client_at t c))) ->
  _replay_events c last t = (Returned tt, t).
Proof.
  intros Hall. pose proof (replay_terminates c last t) as Hnd.
  unfold _replay_events, log_of in *.
  destruct (event_history t !! client_id (client_at t c)) as [l|]; [|done].
  by apply replay_loop_unknown_id.
Qed.

(** C2: a POST whose session header is present but empty, on a body
    that is not an initialize, is not answered 404. *)
Lemma empty_session_header_not_checked :
  let req := post_mcp None (Some "") "application/json" (notification "ping") in
  h_session_id req = Some "" /\
  is_initialize_body (notification "ping") = false /\
  fst (_validate_session (Some "") fresh) = false /\
  _handle_post (H := mcp_types) req fresh
    = (Returned (PlainResponse 202 "Accepted"), snd (_handle_post (H := mcp_types) req fresh)).
Proof. vm_compute. repeat split; reflexivity. Qed.

(** The session gate at a request that names a session nobody
    created. *)
Lemma post_gates_in_order_witness :
  _handle_post (H := mcp_types)
    (post_mcp None (Some "stale") "application/json" (notification "ping")) fresh
  = (Returned (PlainResponse 404 "Session not found or expired"), fresh).
Proof.
  destruct (post_gates_in_order (H := mcp_types)
              (post_mcp None (Some "stale") "application/json" (notification "ping")) fresh)
    as (_ & _ & _ & _ & H404).
  apply (H404 (notification "ping") "stale"); try reflexivity.
  intros Heq; discriminate Heq.
Defined.

(** C5: an Origin header with an empty value begins with none of the
    prefixes and is accepted all the same. *)
Lemma empty_origin_accepted :
  let req := post_mcp (Some "") None "application/json" (notification "ping") in
  h_origin req = Some "" /\
  forallb (fun p => negb (startswith "" p)) allowed_prefixes = true /\
  _validate_origin req = true /\
  fst (_handle_post (H := mcp_types) req fresh) = Returned (PlainResponse 202 "Accepted").
Proof. vm_compute. repeat split; reflexivity. Qed.

(** The origin check at a local origin with a port, and at a foreign
    one. *)
Lemma origin_allow_list_witness :
  _validate_origin (post_mcp (Some "http://localhost:3000") None "" JNull) = true /\
  _handle_post (H := mcp_types)
    (post_mcp (Some "http://evil.example") None "application/json" (notification "ping")) fresh
  = (Returned (PlainResponse 403 "Forbidden: Invalid origin"), fresh).
Proof.
  split.
  - destruct (origin_allow_list (H := mcp_types)
                (post_mcp (Some "http://localhost:3000") None "" JNull) fresh)
      as (_ & _ & Hok & _).
    apply (Hok "http://localhost:3000" "http://localhost"); try reflexivity.
    apply (bool_decide_unpack _). vm_compute. exact I.
  - destruct (origin_allow_list (H := mcp_types)
                (post_mcp (Some "http://evil.example") None "application/json"
                   (notification "ping")) fresh)
      as (_ & _ & _ & Hbad).
    apply (Hbad "http://evil.example"); try reflexivity.
    + intros Heq; discriminate Heq.
    + intros p Hp. unfold allowed_prefixes in Hp.
      repeat (apply elem_of_cons in Hp as [->|Hp]; [reflexivity|]).
      by apply elem_of_nil in Hp.
Defined.

(** C3: after an initialize over a stream, [stop] leaves the session
    and the connection's event log in place, and so does a restart. *)
Lemma stop_keeps_sessions_and_logs :
  clients (stop initialized) = ∅ /\
  sessions (stop initialized) <> ∅ /\
  event_history (stop initialized) <> ∅ /\
  is_Some (sessions (start (stop initialized)) !! "session-0") /\
  log_of (start (stop initialized)) "client_1" = [entry_of (connected_event "client_1" 1)].
Proof.
  assert (Hs : is_Some (sessions (stop initialized) !! "session-0"))
    by (vm_compute; eauto).
  assert (He : is_Some (event_history (stop initialized) !! "client_1"))
    by (vm_compute; eauto).
  split_and!.
  - vm_compute. reflexivity.
  - intros Heq. rewrite Heq, lookup_empty in Hs. destruct Hs as [x Hx]. discriminate Hx.
  - intros Heq. rewrite Heq, lookup_empty in He. destruct He as [x Hx]. discriminate Hx.
  - vm_compute; eauto.
  - vm_compute. reflexivity.
Qed.

(** Stopping the transport that served one initialize request. *)
Lemma stop_empties_connection_table_only_witness :
  clients_keyed initialized /\
  clients (stop initialized) = ∅ /\
  sessions (start (stop initialized)) = sessions initialized.
Proof.
  assert (Hk : clients_keyed initialized)
    by (apply (bool_decide_unpack _); vm_compute; exact I).
  destruct (stop_empties_connection_table_only initialized Hk)
    as (Hc & _ & _ & _ & _ & _ & Hs & _).
  split; [exact Hk|]. split; [exact Hc|exact Hs].
Defined.

(** A batch of two responses, and a batch that holds a request. *)
Lemma pure_batches_get_202_witness :
  passes_gates (post_mcp None None "application/json" responses_batch) responses_batch fresh /\
  (exists t',
     _handle_post (H := mcp_types)
       (post_mcp None None "application/json" responses_batch) fresh
     = (Returned (PlainResponse 202 "Accepted"), t')) /\
  passes_gates (post_mcp None None "application/json" mixed_batch) mixed_batch fresh /\
  (exists r t',
     _handle_post (H := mcp_types)
       (post_mcp None None "application/json" mixed_batch) fresh = (Returned r, t') /\
     status_of r = 200).
Proof.
  assert (Hg1 : passes_gates (post_mcp None None "application/json" responses_batch)
                  responses_batch fresh) by (repeat split; reflexivity).
  assert (Hg2 : passes_gates (post_mcp None None "application/json" mixed_batch)
                  mixed_batch fresh) by (repeat split; reflexivity).
  split; [exact Hg1|]. split.
  - destruct (pure_batches_get_202 (H := mcp_types) _ _ _ Hg1) as (H202 & _ & _).
    destruct H202 as (t' & Hpost & _); [right; reflexivity|].
    exists t'. exact Hpost.
  - split; [exact Hg2|].
    destruct (pure_batches_get_202 (H := mcp_types) _ _ _ Hg2) as (_ & Hreq & Hin).
    destruct Hreq as (r & t' & Hpost & Hst & _).
    + apply (Hin [("jsonrpc", JStr "2.0"); ("id", JNum 7); ("method", JStr "tools/list")]);
        try reflexivity.
      right. exists [notification "ping"; request 7 "tools/list"].
      split; [reflexivity|].
      apply elem_of_cons; right. apply elem_of_cons; left. reflexivity.
    + exists r, t'. split; [exact Hpost|exact Hst].
Defined.

(** 130 events stored for one connection: the last 100 remain. *)
Lemma event_log_keeps_last_100_witness :
  log_of (record_all (replicate 130 ("client_1", "client_1_1", JNull)) (__init__ None))
    "client_1" = replicate 100 ("client_1_1", JNull).
Proof.
  destruct (event_log_keeps_last_100 None
              (replicate 130 ("client_1", "client_1_1", JNull)) "client_1")
    as (_ & Hlog & _).
  rewrite Hlog. vm_compute. reflexivity.
Defined.

(** Three deliveries after the [connected] event. *)
Lemma generated_event_ids_increase_witness :
  stream_open one_stream 0 /\
  exists t',
    deliver_all 0 [("message", JStr "a"); ("batch", JStr "b"); ("message", JStr "c")] one_stream
      = (Returned tt, t') /\
    map ev_id (written (response (client_at t' 0)))
      = ["client_1_1"; "client_1_2"; "client_1_3"; "client_1_4"].
Proof.
  assert (Hopen : stream_open one_stream 0).
  { split; [vm_compute; lia|split; reflexivity]. }
  split; [exact Hopen|].
  destruct (generated_event_ids_increase one_stream 0
              [("message", JStr "a"); ("batch", JStr "b"); ("message", JStr "c")] Hopen)
    as ((t' & Hrun & _ & Hw) & _).
  exists t'. split; [exact Hrun|]. rewrite Hw. vm_compute. reflexivity.
Defined.

(** The empty array, and an array of an envelope without [jsonrpc]
    and a number. *)
Lemma empty_classification_gets_202_witness :
  passes_gates (post_mcp None None "application/json" (JArr [])) (JArr []) fresh /\
  (exists t',
     _handle_post (H := mcp_types) (post_mcp None None "application/json" (JArr [])) fresh
     = (Returned (PlainResponse 202 "Accepted"), t')) /\
  (exists t',
     _handle_post (H := mcp_types)
       (post_mcp None None "application/json"
          (JArr [JObj [("method", JStr "tools/list"); ("id", JNum 1)]; JNum 3])) fresh
     = (Returned (PlainResponse 202 "Accepted"), t')).
Proof.
  assert (Hg : forall d, passes_gates (post_mcp None None "application/json" (JArr d))
                           (JArr d) fresh) by (intros d; repeat split; reflexivity).
  split; [apply Hg|]. split.
  - destruct (empty_classification_gets_202 (H := mcp_types) _ _ _ (Hg [])) as (_ & Hpost).
    + constructor.
    + exact Hpost.
  - destruct (empty_classification_gets_202 (H := mcp_types) _ _ _
                (Hg [JObj [("method", JStr "tools/list"); ("id", JNum 1)]; JNum 3]))
      as (_ & Hpost).
    + repeat constructor.
    + exact Hpost.
Defined.

(** Replaying after the fifth of ten events on the connection that
    owns them: the log grows. *)
Lemma replay_appends_to_log_witness :
  0 < length (client_objs ten_events) /\ history_wf ten_events /\
  length (log_of ten_events "client_1") <= 100 /\
  exists evs,
    written (response (client_at (snd (_replay_events 0 "client_1_5" ten_events)) 0))
      = written (response (client_at ten_events 0)) ++ evs /\
    log_of (snd (_replay_events 0 "client_1_5" ten_events)) "client_1"
      = last100 (log_of ten_events "client_1" ++ map entry_of evs) /\
    length (log_of ten_events "client_1")
      < length (log_of (snd (_replay_events 0 "client_1_5" ten_events)) "client_1").
Proof.
  assert (Hc : 0 < length (client_objs ten_events)) by (vm_compute; lia).
  assert (Hlen : length (log_of ten_events (client_id (client_at ten_events 0))) <= 100)
    by (vm_compute; lia).
  split; [exact Hc|]. split; [exact ten_events_wf|]. split; [exact Hlen|].
  destruct (replay_appends_to_log ten_events 0 Hc ten_events_wf Hlen) as (_ & Hreplay).
  destruct (Hreplay "client_1_5") as (evs & Hw & _ & Hres & Hgrow).
  exists evs. split; [exact Hw|].
  destruct Hres as [[_ Hlog]|(msg & e & Hout & _)].
  - split; [exact Hlog|]. apply Hgrow.
    + intros ->. rewrite app_nil_r in Hw.
      apply (f_equal length) in Hw. vm_compute in Hw. discriminate Hw.
    + vm_compute. lia.
  - vm_compute in Hout. discriminate Hout.
Defined.

(** ** Reachable states: no reconnect is ever replayed *)

Lemma str_of_nat_inj n1 n2 : str_of_nat n1 = str_of_nat n2 -> n1 = n2.
Proof.
  intros Heq.
  destruct (uint_of_str_of_nat n1) as (u1 & Hu1 & <-).
  destruct (uint_of_str_of_nat n2) as (u2 & Hu2 & <-).
  rewrite Heq in Hu1. congruence.
Qed.

Lemma client_id_of_inj k1 k2 : client_id_of k1 = client_id_of k2 -> k1 = k2.
Proof.
  unfold client_id_of. intros Heq. apply str_of_nat_inj.
  change ("client_" +:+ str_of_nat k1) with
    (String "c" (String "l" (String "i" (String "e" (String "n" (String "t"
      (String "_" (str_of_nat k1)))))))) in Heq.
  change ("client_" +:+ str_of_nat k2) with
    (String "c" (String "l" (String "i" (String "e" (String "n" (String "t"
      (String "_" (str_of_nat k2)))))))) in Heq.
  by injection Heq.
Qed.

Lemma same_connections_refl t : same_connections t t.
Proof. split_and!; try done. intros cid l Hl. left. eauto. Qed.

Lemma same_connections_trans t1 t2 t3 :
  same_connections t1 t2 -> same_connections t2 t3 -> same_connections t1 t3.
Proof.
  intros (Hn & Hl & Hid & Hk) (Hn' & Hl' & Hid' & Hk'). split_and!; try congruence.
  intros cid l H3. destruct (Hk' cid l H3) as [[l2 H2]|(c & Hc & ->)].
  - by eapply Hk.
  - right. exists c. split; [lia|]. by rewrite Hid.
Qed.

Lemma ids_issued_same_connections t t' :
  ids_issued t -> same_connections t t' -> ids_issued t'.
Proof.
  intros [Ho Hh] (Hn & Hl & Hid & Hk). split.
  - intros c Hc. rewrite Hn, Hid. apply Ho. lia.
  - intros cid l Hcid. rewrite Hn.
    destruct (Hk cid l Hcid) as [[l0 H0]|(c & Hc & ->)]; [by eapply Hh|by apply Ho].
Qed.

(** Anything that keeps the object ids and the history table. *)
Lemma same_connections_intro t t' :
  client_counter t' = client_counter t ->
  length (client_objs t') = length (client_objs t) ->
  (forall c, client_id (client_at t' c) = client_id (client_at t c)) ->
  event_history t' = event_history t ->
  same_connections t t'.
Proof.
  intros Hn Hl Hid He. split_and!; try done.
  intros cid l Hcid. left. rewrite <- He. eauto.
Qed.

Lemma update_client_same_connections c f t :
  (forall o, client_id (f o) = client_id o) ->
  same_connections t (update_client c f t).
Proof.
  intros Hf. apply same_connections_intro; try done.
  - apply length_update_client.
  - intros c'. unfold client_at, update_client; simpl. rewrite list_lookup_total_alter.
    case_decide as Hd; [|done]. destruct Hd as [-> _]. apply Hf.
Qed.

Lemma store_event_keys cid eid d t k l :
  event_history (_store_event cid eid d t) !! k = Some l ->
  k = cid \/ is_Some (event_history t !! k).
Proof.
  intros Hk. destruct (decide (k = cid)) as [->|Hne]; [by left|]. right.
  revert Hk. unfold _store_event, truncate_history, append_history, ensure_history.
  repeat (case_match; simpl); rewrite ?lookup_insert_ne by done; eauto.
Qed.

Lemma store_event_same_connections c eid d t :
  c < length (client_objs t) ->
  same_connections t (_store_event (client_id (client_at t c)) eid d t).
Proof.
  intros Hc. split_and!.
  - unfold _store_event, truncate_history, append_history, ensure_history.
    repeat (case_match; simpl); done.
  - by rewrite store_event_client_objs.
  - intros c'. by rewrite client_at_store.
  - intros cid l Hl. apply store_event_keys in Hl as [->|?]; [right|by left]. eauto.
Qed.

Lemma id_settled_same_connections t c oid : same_connections t (id_settled t c oid).
Proof.
  destruct oid; [apply same_connections_refl|].
  by apply update_client_same_connections.
Qed.

Lemma send_same_connections c ty d oid t :
  c < length (client_objs t) ->
  same_connections t (snd (_send_sse_event c ty d oid t)).
Proof.
  intros Hc. rewrite send_unfold by done. cbv zeta.
  pose proof (id_settled_same_connections t c oid) as H0.
  assert (Hc0 : c < length (client_objs (id_settled t c oid))).
  { destruct H0 as (_ & -> & _). done. }
  assert (Hid0 : client_id (client_at (id_settled t c oid) c) = client_id (client_at t c)).
  { by destruct H0 as (_ & _ & -> & _). }
  pose proof (store_event_same_connections c (sent_id t c oid) d _ Hc0) as H1.
  rewrite Hid0 in H1.
  destruct (refuses_writes _); cbn [snd].
  - by eapply same_connections_trans.
  - eapply same_connections_trans; [by eapply same_connections_trans|].
    by apply update_client_same_connections.
Qed.

Lemma replay_loop_same_connections c last l fuel :
  forall t i replay,
    c < length (client_objs t) ->
    same_connections t (snd (replay_loop fuel c last l i replay t)).
Proof.
  induction fuel as [|fuel IH]; intros t i replay Hc; [apply same_connections_refl|].
  cbn [replay_loop].
  destruct (list_at t l !! i) as [[eid d]|]; [|apply same_connections_refl].
  destruct (String.eqb eid last); [by apply IH|].
  destruct replay; [|by apply IH].
  unfold mbind, M_bind.
  pose proof (send_same_connections c "message" d (Some eid) t Hc) as Hs.
  destruct (_send_sse_event c "message" d (Some eid) t) as [[[]|e|] t1]; cbn [snd] in *;
    try done.
  eapply same_connections_trans; [exact Hs|]. apply IH.
  destruct Hs as (_ & -> & _). done.
Qed.

Lemma replay_same_connections c last t :
  c < length (client_objs t) -> same_connections t (snd (_replay_events c last t)).
Proof.
  intros Hc. unfold _replay_events.
  destruct (event_history t !! _); [|apply same_connections_refl].
  by apply replay_loop_same_connections.
Qed.

Lemma close_client_same_connections c t : same_connections t (_close_client c t).
Proof.
  destruct (close_client_effect c t) as (_ & Hid & _ & He & _).
  apply same_connections_intro; try done.
  - unfold _close_client. by repeat (case_match; simpl).
  - unfold _close_client. repeat (case_match; simpl); rewrite ?length_alter; done.
Qed.

Lemma fold_same_connections {A} (f : Transport -> A -> Transport) xs :
  (forall t x, same_connections t (f t x)) ->
  forall t, same_connections t (foldl f t xs).
Proof.
  intros Hf. induction xs as [|x xs IH]; intros t; [apply same_connections_refl|].
  cbn [foldl]. eapply same_connections_trans; [apply Hf|apply IH].
Qed.

Lemma stop_same_connections t : same_connections t (stop t).
Proof.
  unfold stop. cbv zeta.
  eapply same_connections_trans; [|by apply same_connections_intro].
  eapply same_connections_trans;
    [|apply (fold_same_connections (fun t c => _close_client c t));
      intros; apply close_client_same_connections].
  destruct (ping_task _); by apply same_connections_intro.
Qed.

Lemma validate_session_same_connections sid t :
  same_connections t (snd (_validate_session sid t)).
Proof.
  destruct (validate_session_tables sid t) as (_ & _ & _ & Ho & _ & He & _ & Hn & _).
  apply same_connections_intro; try done.
  - by rewrite Ho.
  - intros c. unfold client_at. by rewrite Ho.
Qed.

Lemma same_tables_same_connections t t' : same_tables t t' -> same_connections t t'.
Proof.
  intros (_ & _ & _ & Ho & _ & He & _ & Hn & _).
  apply same_connections_intro; try done.
  - by rewrite Ho.
  - intros c. unfold client_at. by rewrite Ho.
Qed.

Lemma same_streams_refl t : same_streams t t.
Proof. split_and!; try done. apply same_connections_refl. Qed.

Lemma same_streams_trans t1 t2 t3 :
  same_streams t1 t2 -> same_streams t2 t3 -> same_streams t1 t3.
Proof.
  intros (Hc & He & Hl & Hr & Ho) (Hc' & He' & Hl' & Hr' & Ho').
  split_and!; try congruence.
  - by eapply same_connections_trans.
  - intros c. destruct (Ho c), (Ho' c). split; congruence.
Qed.

Lemma enqueue_same_streams c item t : same_streams t (update_client c (enqueue item) t).
Proof.
  split_and!; try done.
  - by apply update_client_same_connections.
  - intros c'. unfold client_at, update_client; simpl. rewrite list_lookup_total_alter.
    case_decide as Hd; [|done]. by destruct Hd as [-> _].
Qed.

Section Reachability.

Context `{Library}.

Lemma send_message_same_streams m t : same_streams t (send_message m t).
Proof.
  unfold send_message. case_bool_decide as Hd; [apply same_streams_refl|]. clear Hd.
  generalize (client_refs t). intros refs. revert t.
  induction refs as [|c refs IH]; intros t; [apply same_streams_refl|].
  cbn [foldl]. eapply same_streams_trans; [apply enqueue_same_streams|apply IH].
Qed.

Lemma broadcast_all_same_streams msgs t :
  same_streams t (foldl (fun t m => send_message m t) t msgs).
Proof.
  revert t. induction msgs as [|m msgs IH]; intros t; [apply same_streams_refl|].
  cbn [foldl]. eapply same_streams_trans; [apply send_message_same_streams|apply IH].
Qed.

Lemma create_session_same_connections t : same_connections t (snd (_create_session t)).
Proof. by apply same_connections_intro. Qed.

Lemma service_item_same_connections c t :
  c < length (client_objs t) -> same_connections t (snd (service_item c t)).
Proof.
  intros Hc. unfold service_item.
  destruct (queue (client_at t c)) as [|[ty d] rest].
  { by apply update_client_same_connections. }
  set (t0 := update_client c (set_queue rest) t).
  assert (H0 : same_connections t t0) by (by apply update_client_same_connections).
  assert (Hc0 : c < length (client_objs t0)) by (by destruct H0 as (_ & -> & _)).
  destruct (String.eqb ty "ping").
  - unfold mbind, M_bind, modify, mret, M_ret.
    pose proof (send_same_connections c "ping" (JObj [("timestamp", d)]) None t0 Hc0) as Hs.
    destruct (_send_sse_event c "ping" _ None t0) as [[[]|e|] t1]; cbn [snd] in *;
      try (by eapply same_connections_trans).
    eapply same_connections_trans; [by eapply same_connections_trans|].
    by apply update_client_same_connections.
  - destruct (_ || _).
    + unfold mbind, M_bind, mret, M_ret.
      pose proof (send_same_connections c ty d None t0 Hc0) as Hs.
      destruct (_send_sse_event c ty d None t0) as [[[]|e|] t1]; cbn [snd] in *;
        by eapply same_connections_trans.
    + by destruct (String.eqb ty "close").
Qed.

(** The opening of a stream (replay, broadcasts of the initial
    messages, [connected]) creates no connection. *)
Lemma opening_same_connections c cid req msgs t :
  c < length (client_objs t) ->
  same_connections t (snd (opening c cid req msgs t)).
Proof.
  intros Hc. unfold opening, mbind, M_bind, modify.
  assert (H1 : same_connections t
            (snd ((if truthy (h_last_event_id req)
                   then _replay_events c (default "" (h_last_event_id req))
                   else mret tt) t))).
  { destruct (truthy _); [by apply replay_same_connections|apply same_connections_refl]. }
  destruct ((if truthy (h_last_event_id req)
             then _replay_events c (default "" (h_last_event_id req))
             else mret tt) t) as [[[]|e|] t1]; cbn [snd] in *; try done.
  destruct (broadcast_all_same_streams msgs t1) as (H2 & _).
  eapply same_connections_trans; [exact H1|].
  eapply same_connections_trans; [exact H2|].
  apply send_same_connections.
  destruct H2 as (_ & -> & _). by destruct H1 as (_ & -> & _).
Qed.

End Reachability.

Lemma written_close_client c t c' :
  written (response (client_at (_close_client c t) c')) = written (response (client_at t c')).
Proof.
  unfold _close_client. cbv zeta.
  set (t1 := match clients t !! _ with Some _ => _ | None => t end).
  assert (H1 : client_objs t1 = client_objs t) by (unfold t1; by case_match).
  assert (H2 : client_at t1 c' = client_at t c') by (unfold client_at; by rewrite H1).
  destruct (negb _); [|by rewrite H2].
  unfold client_at, update_client; simpl. rewrite list_lookup_total_alter.
  case_decide as Hd; [|by rewrite H1].
  destruct Hd as [-> _]. simpl. by rewrite H1.
Qed.

Section NewStream.

Context `{Library}.

Lemma registered_facts sid t :
  ids_issued t ->
  let t1 := registered sid t in
  let c := length (client_objs t) in
  let cid := client_id_of (client_counter t + 1) in
  ids_issued t1 /\
  client_counter t1 = client_counter t + 1 /\
  c < length (client_objs t1) /\
  client_at t1 c = new_client cid sid (clock t) /\
  event_history t1 !! cid = None.
Proof.
  intros [Ho Hh] t1 c cid.
  assert (Hat : client_at t1 c = new_client cid sid (clock t)).
  { unfold client_at, t1, registered; simpl.
    by rewrite lookup_total_app_r, Nat.sub_diag. }
  assert (Hold : forall c', c' < c -> client_at t1 c' = client_at t c').
  { intros c' Hc'. unfold client_at, t1, registered; simpl.
    by rewrite lookup_total_app_l. }
  split_and!; try done.
  - split.
    + intros c' Hc'. unfold t1, registered in Hc'; simpl in Hc'.
      rewrite length_app in Hc'; simpl in Hc'.
      destruct (decide (c' = c)) as [->|Hne].
      * exists (client_counter t + 1). rewrite Hat. simpl. split; [lia|done].
      * rewrite Hold by (unfold c; lia).
        destruct (Ho c') as (k & Hk & ->); [unfold c in Hne; lia|].
        exists k. simpl. split; [lia|done].
    + intros cid' l Hl. destruct (Hh cid' l Hl) as (k & Hk & ->).
      exists k. simpl. split; [lia|done].
  - unfold t1, registered; simpl. rewrite length_app; simpl. unfold c. lia.
  - destruct (event_history t1 !! cid) as [l|] eqn:Hl; [|done].
    destruct (Hh cid l Hl) as (k & Hk & Heq).
    apply client_id_of_inj in Heq. lia.
Qed.

(** The stream of a connection that has just been opened carries the
    [connected] event and nothing else, whatever Last-Event-ID the
    request names. *)
Lemma opening_new_stream sid req msgs t :
  ids_issued t ->
  let c := length (client_objs t) in
  let cid := client_id_of (client_counter t + 1) in
  let res := opening c cid req msgs (registered sid t) in
  fst res = Returned tt /\
  same_connections (registered sid t) (snd res) /\
  written (response (client_at (snd res) c)) = [connected_event cid 1].
Proof.
  intros Hiss c cid res. subst res.
  destruct (registered_facts sid t Hiss) as (Hiss1 & Hn1 & Hc1 & Hat1 & Hnone).
  fold c cid in Hc1, Hat1, Hnone. set (t1 := registered sid t) in *.
  unfold opening, mbind, M_bind, modify.
  assert (Hreplay : (if truthy (h_last_event_id req)
                     then _replay_events c (default "" (h_last_event_id req))
                     else mret tt) t1 = (Returned tt, t1)).
  { destruct (truthy _); [|done]. unfold _replay_events.
    rewrite Hat1. cbn [client_id new_client]. by rewrite Hnone. }
  rewrite Hreplay.
  destruct (broadcast_all_same_streams msgs t1) as (Hsc & _ & _ & _ & Hresp).
  set (t2 := foldl (fun t m => send_message m t) t1 msgs) in *.
  assert (Hc2 : c < length (client_objs t2)) by (by destruct Hsc as (_ & -> & _)).
  assert (Hid2 : client_id (client_at t2 c) = cid).
  { destruct Hsc as (_ & _ & -> & _). by rewrite Hat1. }
  destruct (Hresp c) as [Hr2 Hcnt2]. rewrite Hat1 in Hr2, Hcnt2.
  cbn [response event_counter new_client] in Hr2, Hcnt2.
  destruct (send_client c "connected" (connected_payload cid) None t2 Hc2)
    as (_ & _ & _ & _ & _ & Hok & _).
  cbv zeta in Hok. destruct Hok as [Hret Hw].
  { by rewrite Hr2. }
  pose proof (send_same_connections c "connected" (connected_payload cid) None t2 Hc2) as Hs.
  destruct (_send_sse_event c "connected" (connected_payload cid) None t2) as [o t3].
  cbn [fst snd] in *. split_and!.
  - done.
  - by eapply same_connections_trans.
  - rewrite Hw, Hr2. cbn [written app sent_id]. by rewrite Hid2, Hcnt2.
Qed.

Lemma initiate_sse_new_stream req msgs sid init t :
  ids_issued t ->
  ids_issued (snd (_initiate_sse req msgs sid init t)) /\
  forall c t',
    _initiate_sse req msgs sid init t = (Returned (Streaming c), t') ->
    c = length (client_objs t) /\
    client_counter t' = client_counter t + 1 /\
    client_id (client_at t' c) = client_id_of (client_counter t + 1) /\
    written (response (client_at t' c)) =
      [connected_event (client_id_of (client_counter t + 1)) 1].
Proof.
  intros Hiss. unfold _initiate_sse.
  destruct (negb (_validate_origin req)); [by split|].
  set (p := if init && negb (truthy sid) then _ else _).
  assert (Hp : same_connections t (snd p)).
  { unfold p. destruct (init && negb (truthy sid)).
    - pose proof (create_session_same_connections t) as Hc.
      by destruct (_create_session t).
    - apply same_connections_refl. }
  destruct p as [sid' t0]. cbn [snd] in Hp. cbv zeta.
  pose proof (ids_issued_same_connections _ _ Hiss Hp) as Hiss0.
  destruct Hp as (Hn0 & Hl0 & _).
  destruct (registered_facts sid' t0 Hiss0) as (Hiss1 & Hn1 & Hc1 & Hat1 & _).
  destruct (opening_new_stream sid' req msgs t0 Hiss0) as (Hret & Hsc & Hw).
  cbv zeta in *.
  change (with_clients _ (with_client_objs _ (with_client_counter _ t0)))
    with (registered sid' t0).
  change ("client_" +:+ str_of_nat (client_counter (with_client_counter (client_counter t0 + 1) t0)))
    with (client_id_of (client_counter t0 + 1)).
  change (length (client_objs (with_client_counter (client_counter t0 + 1) t0)))
    with (length (client_objs t0)).
  destruct (opening _ _ req msgs (registered sid' t0)) as [o t2].
  cbn [fst snd] in *. subst o.
  pose proof (ids_issued_same_connections _ _ Hiss1 Hsc) as Hiss2.
  assert (Hid2 : client_id (client_at t2 (length (client_objs t0)))
                 = client_id_of (client_counter t0 + 1)).
  { destruct Hsc as (_ & _ & -> & _). by rewrite Hat1. }
  assert (Hn2 : client_counter t2 = client_counter t0 + 1).
  { destruct Hsc as (-> & _). done. }
  destruct (loop_continues _ t2); cbn [snd].
  - split; [done|]. intros c t' [= <- <-]. rewrite <- Hl0, <- Hn0. by split_and!.
  - pose proof (close_client_same_connections (length (client_objs t0)) t2) as Hcl.
    split; [by eapply ids_issued_same_connections|].
    intros c t' [= <- <-]. rewrite <- Hl0, <- Hn0.
    destruct Hcl as (-> & _ & -> & _). rewrite written_close_client. by split_and!.
Qed.

End NewStream.

Section Reachable.

Context `{Library}.

Lemma init_ids_issued cfg : ids_issued (__init__ cfg).
Proof.
  split.
  - intros c Hc. simpl in Hc. lia.
  - intros cid l Hl. simpl in Hl. by rewrite lookup_empty in Hl.
Qed.

Lemma classify_same_connections data t : same_connections t (snd (classify data t)).
Proof. apply same_tables_same_connections. by destruct (classify_spec data t). Qed.

Lemma handle_sse_ids_issued req t : ids_issued t -> ids_issued (snd (_handle_sse req t)).
Proof.
  intros Hiss. unfold _handle_sse.
  destruct (negb (_validate_origin req)); [done|].
  destruct (negb (fst (_validate_protocol_version req))); [done|].
  set (p := if truthy (h_session_id req) then _ else _).
  assert (Hp : same_connections t (snd p)).
  { unfold p. destruct (truthy _);
      [apply validate_session_same_connections|apply same_connections_refl]. }
  destruct p as [ok t1]. cbn [snd] in Hp.
  pose proof (ids_issued_same_connections _ _ Hiss Hp) as Hiss1.
  destruct (negb ok); [done|].
  by apply initiate_sse_new_stream.
Qed.

Lemma handle_post_ids_issued req t : ids_issued t -> ids_issued (snd (_handle_post req t)).
Proof.
  intros Hiss. unfold _handle_post.
  destruct (negb (_validate_origin req)); [done|].
  destruct (_validate_protocol_version req) as [valid ver].
  destruct (negb valid); [done|].
  destruct (negb (str_contains _ _)); [done|].
  destruct (body req) as [e|data]; [done|].
  set (p := if negb (is_initialize_body data) && truthy (h_session_id req) then _ else _).
  assert (Hp : same_connections t (snd p)).
  { unfold p. destruct (_ && _);
      [apply validate_session_same_connections|apply same_connections_refl]. }
  destruct p as [ok t1]. cbn [snd] in Hp.
  pose proof (ids_issued_same_connections _ _ Hiss Hp) as Hiss1.
  destruct (negb ok); [done|].
  pose proof (classify_same_connections data t1) as Hcl.
  destruct (classify data t1) as [ms t2]. cbn [snd] in Hcl.
  pose proof (ids_issued_same_connections _ _ Hiss1 Hcl) as Hiss2.
  assert (Hiss3 : ids_issued (count_messages (length ms) t2)).
  { eapply ids_issued_same_connections; [exact Hiss2|by apply same_connections_intro]. }
  cbv zeta.
  destruct (_ || _); [done|].
  destruct (str_contains _ _); [by apply initiate_sse_new_stream|].
  destruct (_ && _); [|done].
  pose proof (create_session_same_connections (count_messages (length ms) t2)) as Hcs.
  destruct (_create_session _) as [s t4]. cbn [snd] in *.
  by eapply ids_issued_same_connections.
Qed.

Lemma step_ids_issued t t' : step t t' -> ids_issued t -> ids_issued t'.
Proof.
  intros Hstep Hiss. destruct Hstep.
  - by apply handle_post_ids_issued.
  - by apply handle_sse_ids_issued.
  - eapply ids_issued_same_connections; [done|by apply service_item_same_connections].
  - eapply ids_issued_same_connections; [done|apply close_client_same_connections].
  - eapply ids_issued_same_connections; [done|]. by destruct (send_message_same_streams m t).
  - eapply ids_issued_same_connections; [done|by apply update_client_same_connections].
  - eapply ids_issued_same_connections; [done|apply stop_same_connections].
  - eapply ids_issued_same_connections; [done|by apply same_connections_intro].
  - eapply ids_issued_same_connections; [done|by apply update_client_same_connections].
  - eapply ids_issued_same_connections; [done|by apply same_connections_intro].
Qed.

Lemma reachable_ids_issued t : reachable t -> ids_issued t.
Proof.
  intros [cfg Hrtc]. revert t Hrtc. apply rtc_ind_r; [apply init_ids_issued|].
  intros t1 t2 _ Hstep IH. by eapply step_ids_issued.
Qed.

(** On every transport that the operations can produce, and for every
    GET /mcp, whatever Last-Event-ID it carries: if a stream is
    opened, it is that of a connection with a new id, and what has
    been written to it when live delivery begins is the [connected]
    event alone.  No earlier event is ever replayed. *)
Theorem reconnect_never_replays (t : Transport) (req : Request) (c : nat) (t' : Transport) :
  reachable t ->
  _handle_sse req t = (Returned (Streaming c), t') ->
  client_id (client_at t' c) = client_id_of (client_counter t + 1) /\
  written (response (client_at t' c)) =
    [connected_event (client_id_of (client_counter t + 1)) 1].
Proof.
  intros Hreach%reachable_ids_issued. unfold _handle_sse.
  destruct (negb (_validate_origin req)); [done|].
  destruct (negb (fst (_validate_protocol_version req))); [done|].
  set (p := if truthy (h_session_id req) then _ else _).
  assert (Hp : same_connections t (snd p)).
  { unfold p. destruct (truthy _);
      [apply validate_session_same_connections|apply same_connections_refl]. }
  destruct p as [ok t1]. cbn [snd] in Hp.
  pose proof (ids_issued_same_connections _ _ Hreach Hp) as Hiss1.
  destruct (negb ok); [done|].
  intros Hrun.
  destruct (initiate_sse_new_stream req [] (h_session_id req) false t1 Hiss1) as [_ Hnew].
  destruct (Hnew c t' Hrun) as (_ & _ & Hid & Hw).
  destruct Hp as (<- & _). done.
Qed.

End Reachable.

Lemma reachable_step `{Library} t t' : reachable t -> step t t' -> reachable t'.
Proof. intros [cfg Hrtc] Hstep. exists cfg. by eapply rtc_r. Qed.

Lemma broadcast_and_serve_reachable n t :
  reachable (H := mcp_types) t -> 0 < length (client_objs t) ->
  reachable (H := mcp_types) (broadcast_and_serve n t).
Proof.
  revert t. induction n as [|n IH]; intros t Hr Hc; [done|].
  cbn [broadcast_and_serve].
  set (m := JSONRPCNotification _).
  destruct (send_message_same_streams (H := mcp_types) m t) as ((_ & Hl & _) & _).
  assert (Hc1 : 0 < length (client_objs (send_message (H := mcp_types) m t))) by lia.
  pose proof (service_item_same_connections 0 _ Hc1) as (_ & Hl2 & _).
  apply IH; [|lia].
  eapply reachable_step; [eapply reachable_step; [exact Hr|apply step_broadcast]|].
  by apply step_service.
Qed.

(** The state in which the client of the scenario reconnects is one
    the operations produce. *)
Lemma disconnected_reachable : reachable (H := mcp_types) disconnected.
Proof.
  assert (Hfresh : reachable (H := mcp_types) fresh).
  { eapply reachable_step; [|apply step_start]. exists None. apply rtc_refl. }
  assert (Hone : reachable (H := mcp_types) one_stream).
  { eapply reachable_step; [exact Hfresh|apply step_get]. }
  assert (Hten : reachable (H := mcp_types) ten_events).
  { apply broadcast_and_serve_reachable; [exact Hone|vm_compute; lia]. }
  eapply reachable_step; [exact Hten|]. apply step_close. vm_compute. lia.
Qed.

(** * Further properties *)

(** ** Session registry *)

Lemma truthy_Some s : s <> "" -> truthy (Some s) = true.
Proof. intros Hne. cbn. by destruct (String.eqb_spec s ""). Qed.

Lemma validate_session_known s info t :
  s <> "" -> sessions t !! s = Some info ->
  _validate_session (Some s) t = (true, with_sessions (insert s (touch (clock t) info)) t).
Proof.
  intros Hne Hs. unfold _validate_session. rewrite truthy_Some by done.
  cbn [negb]. by rewrite Hs.
Qed.

(** X1.  A session that was just created validates: the identifier
    [_create_session] returns is a key of the session table, its record
    has both time stamps at the clock reading, every other session is
    as it was, and [_validate_session] accepts the identifier and
    leaves the session table as it is. *)
Theorem created_session_validates `{Library} (t : Transport) :
  let sid := fst (_create_session t) in
  let t1 := snd (_create_session t) in
  sid <> "" ->
  sessions t1 !! sid =
    Some {| session_id := sid; created_at := clock t;
            last_accessed := clock t; client_info := [] |} /\
  (forall other, other <> sid -> sessions t1 !! other = sessions t !! other) /\
  fst (_validate_session (Some sid) t1) = true /\
  sessions (snd (_validate_session (Some sid) t1)) = sessions t1.
Proof.
  intros sid t1 Hne.
  assert (Hs : sessions t1 !! sid =
    Some {| session_id := sid; created_at := clock t;
            last_accessed := clock t; client_info := [] |}).
  { unfold t1, sid, _create_session. cbn. apply lookup_insert_eq. }
  split_and!.
  - done.
  - intros other Ho. unfold t1, _create_session. cbn. by rewrite lookup_insert_ne.
  - by rewrite (validate_session_known _ _ _ Hne Hs).
  - rewrite (validate_session_known _ _ _ Hne Hs).
    unfold t1, sid, _create_session. cbn. by rewrite insert_insert_eq.
Qed.

(** X2.  [_validate_session] answers true exactly for a non-empty
    identifier that is a key of the session table.  A refusal changes
    nothing at all.  An acceptance sets [last_accessed] of that one
    session to the clock reading and keeps its identifier, its creation
    time and its client information; the other sessions, and the set
    of keys, stay as they were. *)
Theorem validate_session_touches_one (sid : option string) (t : Transport) :
  let ok := fst (_validate_session sid t) in
  let t' := snd (_validate_session sid t) in
  (ok = true <-> exists s, sid = Some s /\ s <> "" /\ is_Some (sessions t !! s)) /\
  (ok = false -> t' = t) /\
  (forall s info,
     ok = true -> sid = Some s -> sessions t !! s = Some info ->
     exists info',
       sessions t' !! s = Some info' /\
       last_accessed info' = clock t /\
       created_at info' = created_at info /\
       session_id info' = session_id info /\
       client_info info' = client_info info) /\
  (forall s other, sid = Some s -> other <> s -> sessions t' !! other = sessions t !! other) /\
  dom (sessions t') = dom (sessions t).
Proof.
  intros ok t'. subst ok t'. unfold _validate_session.
  destruct sid as [s|]; cbn [truthy].
  2:{ split_and!; try done. split; [done|]. by intros (s & ? & _). }
  destruct (String.eqb_spec s "") as [->|Hne]; cbn [negb fst snd].
  { split_and!; try done. split; [done|]. intros (s & [= <-] & ? & _). done. }
  destruct (sessions t !! s) as [info|] eqn:Hs; cbn [fst snd].
  - split_and!; try done.
    + split; [|done]. intros _. exists s. eauto.
    + intros s' info' _ [= <-] Hi. rewrite Hs in Hi. injection Hi as <-.
      exists (touch (clock t) info). cbn. by rewrite lookup_insert_eq.
    + intros s' other [= <-] Ho. cbn. by rewrite lookup_insert_ne.
    + cbn. apply set_eq. intros k. rewrite dom_insert, elem_of_union, elem_of_singleton.
      split; [|by right]. intros [->|?]; [|done]. apply elem_of_dom. eauto.
  - split_and!; try done.
    split; [done|]. intros (s' & [= <-] & _ & [x Hx]). congruence.
Qed.

(** X3.  [_terminate_session] removes the session and nothing else:
    afterwards the identifier no longer validates, every other session
    is untouched, a second termination changes nothing, and the
    termination of an identifier that names no session is a no-op. *)
Theorem terminate_session_idempotent (sid : string) (t : Transport) :
  let t' := _terminate_session sid t in
  sessions t' = delete sid (sessions t) /\
  fst (_validate_session (Some sid) t') = false /\
  _terminate_session sid t' = t' /\
  (sessions t !! sid = None -> t' = t) /\
  clients t' = clients t /\ client_objs t' = client_objs t /\
  event_history t' = event_history t /\ lists t' = lists t.
Proof.
  intros t'. subst t'. unfold _terminate_session.
  destruct (sessions t !! sid) as [info|] eqn:Hs.
  - cbn. rewrite lookup_delete_eq. split_and!; try done.
    by destruct (negb _).
  - rewrite Hs. split_and!; try done.
    + by rewrite delete_id.
    + unfold _validate_session. destruct (negb _); [done|]. by rewrite Hs.
Qed.

(** X4.  Create, use, terminate: on a transport whose session table
    does not hold the identifier drawn, creating a session, validating
    it and terminating it leaves the table of sessions exactly as it
    was before, and the identifier no longer validates. *)
Theorem session_life_cycle `{Library} (t : Transport) :
  let sid := fst (_create_session t) in
  let t1 := snd (_create_session t) in
  let t2 := snd (_validate_session (Some sid) t1) in
  let t3 := _terminate_session sid t2 in
  sid <> "" -> sessions t !! sid = None ->
  fst (_validate_session (Some sid) t1) = true /\
  sessions t3 = sessions t /\
  fst (_validate_session (Some sid) t3) = false.
Proof.
  intros sid t1 t2 t3 Hne Hfresh.
  assert (Hs : sessions t1 !! sid =
    Some {| session_id := sid; created_at := clock t;
            last_accessed := clock t; client_info := [] |}).
  { unfold t1, sid, _create_session. cbn. apply lookup_insert_eq. }
  assert (H3 : sessions t3 = sessions t).
  { unfold t3, t2. rewrite (validate_session_known _ _ _ Hne Hs).
    unfold _terminate_session. cbn. rewrite lookup_insert_eq. cbn.
    rewrite delete_insert_eq. unfold t1, _create_session. cbn.
    rewrite delete_insert_eq. by apply delete_id. }
  split_and!.
  - by rewrite (validate_session_known _ _ _ Hne Hs).
  - done.
  - unfold _validate_session. rewrite truthy_Some by done. cbn [negb].
    by rewrite H3, Hfresh.
Qed.

(** ** Requests that open a stream keep the books *)

(** ** Deliveries leave the books alone *)
Lemma same_books_refl t : same_books t t.
Proof. by repeat split. Qed.

Lemma same_books_trans t1 t2 t3 : same_books t1 t2 -> same_books t2 t3 -> same_books t1 t3.
Proof. unfold same_books. intros ? ?. destruct_and!. split_and!; congruence. Qed.

Lemma update_client_same_books c f t : same_books t (update_client c f t).
Proof. by repeat split. Qed.

Lemma store_event_same_books cid eid d t : same_books t (_store_event cid eid d t).
Proof.
  unfold _store_event, truncate_history, append_history, ensure_history.
  repeat (case_match; simpl); by repeat split.
Qed.

Lemma send_same_books c ty d oid t : same_books t (snd (_send_sse_event c ty d oid t)).
Proof.
  unfold _send_sse_event.
  set (p := match oid with Some e => (e, t) | None => _generate_event_id c t end).
  assert (Hp : same_books t (snd p)).
  { unfold p. destruct oid; [apply same_books_refl|apply update_client_same_books]. }
  destruct p as [eid t0]. cbn [snd] in Hp.
  pose proof (store_event_same_books (client_id (client_at t0 c)) eid d t0) as Hs.
  destruct (_ || _); cbn [snd].
  - by eapply same_books_trans.
  - eapply same_books_trans; [by eapply same_books_trans|apply update_client_same_books].
Qed.

Lemma replay_loop_same_books c last l fuel :
  forall t i replay, same_books t (snd (replay_loop fuel c last l i replay t)).
Proof.
  induction fuel as [|fuel IH]; intros t i replay; [apply same_books_refl|].
  cbn [replay_loop].
  destruct (list_at t l !! i) as [[eid d]|]; [|apply same_books_refl].
  destruct (String.eqb eid last); [by apply IH|].
  destruct replay; [|by apply IH].
  unfold mbind, M_bind.
  pose proof (send_same_books c "message" d (Some eid) t) as Hs.
  destruct (_send_sse_event c "message" d (Some eid) t) as [[[]|e|] t1]; cbn [snd] in *;
    try done.
  eapply same_books_trans; [exact Hs|]. apply IH.
Qed.

Lemma replay_same_books c last t : same_books t (snd (_replay_events c last t)).
Proof.
  unfold _replay_events.
  destruct (event_history t !! _); [|apply same_books_refl].
  apply replay_loop_same_books.
Qed.

Lemma fold_same_books {A} (f : Transport -> A -> Transport) xs :
  (forall t x, same_books t (f t x)) ->
  forall t, same_books t (foldl f t xs).
Proof.
  intros Hf. induction xs as [|x xs IH]; intros t; [apply same_books_refl|].
  cbn [foldl]. eapply same_books_trans; [apply Hf|apply IH].
Qed.

Lemma close_client_same_books c t : same_books t (_close_client c t).
Proof. unfold _close_client. repeat (case_match; simpl); by repeat split. Qed.

Section Books.

Context `{Library}.

Lemma send_message_same_books m t : same_books t (send_message m t).
Proof.
  unfold send_message. case_bool_decide; [apply same_books_refl|].
  apply fold_same_books. intros. apply update_client_same_books.
Qed.

Lemma opening_same_books c cid req msgs t : same_books t (snd (opening c cid req msgs t)).
Proof.
  unfold opening, mbind, M_bind, modify.
  assert (H1 : same_books t
            (snd ((if truthy (h_last_event_id req)
                   then _replay_events c (default "" (h_last_event_id req))
                   else mret tt) t))).
  { destruct (truthy _); [apply replay_same_books|apply same_books_refl]. }
  destruct ((if truthy (h_last_event_id req)
             then _replay_events c (default "" (h_last_event_id req))
             else mret tt) t) as [[[]|e|] t1]; cbn [snd] in *; try done.
  eapply same_books_trans; [exact H1|].
  eapply same_books_trans; [|apply send_same_books].
  apply fold_same_books. intros. apply send_message_same_books.
Qed.

(** A stream opened for anything but an initialize request without a
    session keeps the books. *)
Lemma initiate_sse_same_books req msgs sid init t :
  init && negb (truthy sid) = false ->
  same_books t (snd (_initiate_sse req msgs sid init t)).
Proof.
  intros Hinit. unfold _initiate_sse. rewrite Hinit.
  destruct (negb (_validate_origin req)); [apply same_books_refl|]. cbv zeta.
  match goal with |- context [opening ?c ?cid req msgs ?t0] =>
    pose proof (opening_same_books c cid req msgs t0) as Ho;
    destruct (opening c cid req msgs t0) as [[[]|e|] t1] end; cbn [snd] in *.
  - assert (Hb : same_books t t1) by (by destruct Ho as (?&?&?&?&?&?&?&?); repeat split).
    destruct (loop_continues _ t1); cbn [snd]; [done|].
    eapply same_books_trans; [exact Hb|apply close_client_same_books].
  - assert (Hb : same_books t t1) by (by destruct Ho as (?&?&?&?&?&?&?&?); repeat split).
    eapply same_books_trans; [exact Hb|apply close_client_same_books].
  - by destruct Ho as (?&?&?&?&?&?&?&?); repeat split.
Qed.

(** X5.  GET /mcp runs three gates in the order origin, protocol
    version, session, and a refused request leaves the transport as it
    was: 403 for a disallowed origin; 400 with the fixed text
    "Unsupported protocol version" when the version header (2025-03-26
    if absent) is not a supported one; 404 "Session not found" for a
    non-empty session id that names no session.  Every other request
    is answered with a stream.  Neither Accept nor Content-Type nor
    the body is looked at. *)
Theorem get_gates_in_order (req : Request) (t : Transport) :
  let version := default "2025-03-26" (h_protocol_version req) in
  (_validate_origin req = false ->
   _handle_sse req t = (Returned (PlainResponse 403 "Forbidden: Invalid origin"), t)) /\
  (_validate_origin req = true -> version ∉ SUPPORTED_VERSIONS ->
   _handle_sse req t = (Returned (PlainResponse 400 "Unsupported protocol version"), t)) /\
  (forall sid,
   _validate_origin req = true -> version ∈ SUPPORTED_VERSIONS ->
   h_session_id req = Some sid -> sid <> "" -> sessions t !! sid = None ->
   _handle_sse req t = (Returned (PlainResponse 404 "Session not found"), t)) /\
  (_validate_origin req = true -> version ∈ SUPPORTED_VERSIONS ->
   (truthy (h_session_id req) = false \/
    exists sid, h_session_id req = Some sid /\ is_Some (sessions t !! sid)) ->
   exists c t', _handle_sse req t = (Returned (Streaming c), t')) /\
  (forall accept content_type payload,
   _handle_sse
     {| h_origin := h_origin req; h_protocol_version := h_protocol_version req;
        h_content_type := content_type; h_session_id := h_session_id req;
        h_accept := accept; h_last_event_id := h_last_event_id req;
        body := payload |} t
   = _handle_sse req t).
Proof.
  intros version. split_and!.
  - intros Ho. unfold _handle_sse. by rewrite Ho.
  - intros Ho Hv. unfold _handle_sse, _validate_protocol_version. rewrite Ho. cbn [negb].
    fold version. by rewrite bool_decide_eq_false_2.
  - intros sid Ho Hv Hs Hne Hnone. unfold _handle_sse, _validate_protocol_version.
    rewrite Ho. cbn [negb]. fold version. rewrite bool_decide_eq_true_2 by done.
    cbn [negb fst]. rewrite Hs. rewrite truthy_Some by done.
    by rewrite validate_session_unknown.
  - intros Ho Hv Hs. unfold _handle_sse, _validate_protocol_version.
    rewrite Ho. cbn [negb]. fold version. rewrite bool_decide_eq_true_2 by done.
    cbn [negb fst].
    destruct Hs as [Hs|(sid & Hs & [info Hi])].
    + rewrite Hs. cbn [negb]. by apply initiate_sse_streams.
    + rewrite Hs. destruct (truthy (Some sid)) eqn:Ht; [|by apply initiate_sse_streams].
      rewrite (validate_session_known sid info) by (by cbn in Ht; destruct (String.eqb_spec sid "")).
      cbn [negb]. by apply initiate_sse_streams.
  - intros accept content_type payload. destruct req; reflexivity.
Qed.

(** X6.  GET /mcp never creates a session, never draws an identifier
    and never touches the counters of /stats, the configuration, the
    life-cycle flags or the clock: whatever the request, the only
    change to the session table is the [last_accessed] stamp of the
    session the request names. *)
Theorem get_keeps_the_books (req : Request) (t : Transport) :
  let t' := snd (_handle_sse req t) in
  config t' = config t /\ running t' = running t /\ serving t' = serving t /\
  ping_task t' = ping_task t /\ stats t' = stats t /\ clock t' = clock t /\
  uuids_drawn t' = uuids_drawn t /\
  dom (sessions t') = dom (sessions t) /\
  (forall s, h_session_id req <> Some s -> sessions t' !! s = sessions t !! s) /\
  (forall s info, h_session_id req = Some s -> sessions t !! s = Some info ->
     sessions t' !! s = Some info \/ sessions t' !! s = Some (touch (clock t) info)).
Proof.
  intros t'. subst t'. unfold _handle_sse.
  destruct (negb (_validate_origin req)); [cbn [snd]; split_and!; eauto|].
  destruct (negb (fst (_validate_protocol_version req))); [cbn [snd]; split_and!; eauto|].
  destruct (truthy (h_session_id req)) eqn:Ht.
  - destruct (h_session_id req) as [s|] eqn:Hs; [|done].
    unfold _validate_session. rewrite Ht. cbn [negb].
    destruct (sessions t !! s) as [info|] eqn:Hi; cbn [negb]; [|cbn [snd]; split_and!; eauto].
    set (t1 := with_sessions _ t).
    pose proof (initiate_sse_same_books req [] (Some s) false t1 eq_refl) as Hb.
    destruct Hb as (-> & -> & -> & -> & -> & -> & -> & ->).
    split_and!; try done.
    + cbn. apply set_eq. intros k. rewrite dom_insert, elem_of_union, elem_of_singleton.
      split; [|by right]. intros [->|?]; [|done]. apply elem_of_dom. eauto.
    + intros s' Hne. cbn. rewrite lookup_insert_ne by congruence. done.
    + intros s' info' [= <-] Hi'. right. cbn. rewrite lookup_insert_eq. congruence.
  - cbn [negb].
    pose proof (initiate_sse_same_books req [] (h_session_id req) false t eq_refl) as Hb.
    destruct Hb as (-> & -> & -> & -> & -> & -> & -> & ->).
    split_and!; eauto.
Qed.

End Books.

(** ** Connections only age *)

Lemma ages_refl o : ages o o.
Proof. by repeat split. Qed.

Lemma refuses_writes_true r :
  refuses_writes r = true <-> closing r = true \/ eof r = true.
Proof. unfold refuses_writes. by rewrite orb_true_iff. Qed.

Lemma ages_trans o1 o2 o3 : ages o1 o2 -> ages o2 o3 -> ages o1 o3.
Proof.
  intros (Hi1 & Hs1 & Hr1 & Hp1 & Hf1 & Hc1 & He1 & Hn1)
         (Hi2 & Hs2 & Hr2 & Hp2 & Hf2 & Hc2 & He2 & Hn2).
  split_and!; try congruence; try lia; try tauto.
  - by etrans.
  - intros Hr. rewrite Hf2, Hf1; try done.
    apply refuses_writes_true. apply refuses_writes_true in Hr. tauto.
Qed.

Lemma grows_refl t : grows t t.
Proof. split; [done|]. intros. apply ages_refl. Qed.

Lemma grows_trans t1 t2 t3 : grows t1 t2 -> grows t2 t3 -> grows t1 t3.
Proof.
  intros [Hl1 Ha1] [Hl2 Ha2]. split; [lia|].
  intros c Hc. eapply ages_trans; [by apply Ha1|apply Ha2; lia].
Qed.

Lemma grows_objs t t' : client_objs t' = client_objs t -> grows t t'.
Proof.
  intros Ho. split; [by rewrite Ho|]. intros c _. unfold client_at. rewrite Ho.
  apply ages_refl.
Qed.

Lemma update_client_grows c f t :
  ages (client_at t c) (f (client_at t c)) -> grows t (update_client c f t).
Proof.
  intros Ha. split; [by rewrite length_update_client|].
  intros c' Hc'. destruct (decide (c = c')) as [<-|Hne].
  - by rewrite client_at_update_eq.
  - rewrite client_at_update_ne by done. apply ages_refl.
Qed.

Lemma alter_beyond {A} (f : A -> A) (l : list A) i : length l <= i -> alter f i l = l.
Proof.
  intros Hi. rewrite <- (app_nil_r l) at 1. rewrite alter_app_r_alt by done.
  cbn. by rewrite app_nil_r.
Qed.

Lemma store_event_grows cid eid d t : grows t (_store_event cid eid d t).
Proof. apply grows_objs, store_event_client_objs. Qed.

Lemma enqueue_grows c item t : grows t (update_client c (enqueue item) t).
Proof. apply update_client_grows. by repeat split. Qed.

Lemma send_grows c ty d oid t : grows t (snd (_send_sse_event c ty d oid t)).
Proof.
  destruct (decide (c < length (client_objs t))) as [Hc|Hc].
  - rewrite send_unfold by done. cbv zeta.
    assert (H0 : grows t (id_settled t c oid)).
    { destruct oid; [apply grows_refl|]. apply update_client_grows.
      repeat split; cbn; try done. lia. }
    set (t0 := id_settled t c oid) in *.
    set (t1 := _store_event _ _ d t0).
    assert (H1 : grows t t1).
    { eapply grows_trans; [exact H0|apply store_event_grows]. }
    assert (Hr : response (client_at t1 c) = response (client_at t c)).
    { unfold t1. rewrite client_at_store. unfold t0. destruct oid; [done|].
      cbn [id_settled]. by rewrite client_at_update_eq. }
    destruct (refuses_writes (response (client_at t c))) eqn:Href; cbn [snd]; [done|].
    eapply grows_trans; [exact H1|]. apply update_client_grows.
    rewrite <- Hr in *. unfold ages, refuses_writes in *. cbn. split_and!; try done.
    + by apply prefix_app_r.
    + intros Hx. by rewrite Hx in Href.
  - apply grows_objs. unfold _send_sse_event.
    assert (Hu : forall f t0, client_objs t0 = client_objs t ->
              client_objs (update_client c f t0) = client_objs t).
    { intros f t0 H0. unfold update_client. cbn. rewrite H0.
      apply alter_beyond. lia. }
    destruct oid as [e|].
    + destruct (_ || _); cbn [snd]; [apply store_event_client_objs|].
      apply Hu, store_event_client_objs.
    + unfold _generate_event_id.
      destruct (_ || _); cbn [snd].
      * rewrite store_event_client_objs. by apply Hu.
      * apply Hu. rewrite store_event_client_objs. by apply Hu.
Qed.

Lemma replay_loop_grows c last l fuel :
  forall t i replay, grows t (snd (replay_loop fuel c last l i replay t)).
Proof.
  induction fuel as [|fuel IH]; intros t i replay; [apply grows_refl|].
  cbn [replay_loop].
  destruct (list_at t l !! i) as [[eid d]|]; [|apply grows_refl].
  destruct (String.eqb eid last); [by apply IH|].
  destruct replay; [|by apply IH].
  unfold mbind, M_bind.
  pose proof (send_grows c "message" d (Some eid) t) as Hs.
  destruct (_send_sse_event c "message" d (Some eid) t) as [[[]|e|] t1]; cbn [snd] in *;
    try done.
  eapply grows_trans; [exact Hs|]. apply IH.
Qed.

Lemma replay_grows c last t : grows t (snd (_replay_events c last t)).
Proof.
  unfold _replay_events.
  destruct (event_history t !! _); [|apply grows_refl].
  apply replay_loop_grows.
Qed.

Lemma fold_grows {A} (f : Transport -> A -> Transport) xs :
  (forall t x, grows t (f t x)) ->
  forall t, grows t (foldl f t xs).
Proof.
  intros Hf. induction xs as [|x xs IH]; intros t; [apply grows_refl|].
  cbn [foldl]. eapply grows_trans; [apply Hf|apply IH].
Qed.

Lemma close_client_grows c t : grows t (_close_client c t).
Proof.
  unfold _close_client. cbv zeta.
  set (t1 := match clients t !! _ with Some _ => _ | None => t end).
  assert (H1 : grows t t1) by (apply grows_objs; unfold t1; by case_match).
  destruct (negb _); [|done].
  eapply grows_trans; [exact H1|]. apply update_client_grows.
  by repeat split.
Qed.

Lemma stop_grows t : grows t (stop t).
Proof.
  unfold stop. cbv zeta.
  set (t1 := if ping_task _ then _ else _).
  assert (H1 : grows t t1) by (apply grows_objs; unfold t1; by case_match).
  eapply grows_trans; [exact H1|].
  eapply grows_trans; [|by apply grows_objs].
  apply (fold_grows (fun t c => _close_client c t)). intros. apply close_client_grows.
Qed.

Lemma registered_grows sid t : grows t (registered sid t).
Proof.
  split.
  - unfold registered. cbn. rewrite length_app. lia.
  - intros c Hc. unfold client_at, registered. cbn.
    rewrite lookup_total_app_l by done. apply ages_refl.
Qed.

Section Ageing.

Context `{Library}.

Lemma send_message_grows m t : grows t (send_message m t).
Proof.
  unfold send_message. case_bool_decide; [apply grows_refl|].
  apply fold_grows. intros. apply enqueue_grows.
Qed.

Lemma service_item_grows c t : grows t (snd (service_item c t)).
Proof.
  unfold service_item.
  destruct (queue (client_at t c)) as [|[ty d] rest]; [apply enqueue_grows|].
  set (t0 := update_client c (set_queue rest) t).
  assert (H0 : grows t t0) by (apply update_client_grows; by repeat split).
  destruct (String.eqb ty "ping").
  - unfold mbind, M_bind, modify, mret, M_ret.
    pose proof (send_grows c "ping" (JObj [("timestamp", d)]) None t0) as Hs.
    destruct (_send_sse_event c "ping" _ None t0) as [[[]|e|] t1]; cbn [snd] in *;
      try (by eapply grows_trans).
    eapply grows_trans; [by eapply grows_trans|].
    apply update_client_grows. by repeat split.
  - destruct (_ || _).
    + unfold mbind, M_bind, mret, M_ret.
      pose proof (send_grows c ty d None t0) as Hs.
      destruct (_send_sse_event c ty d None t0) as [[[]|e|] t1]; cbn [snd] in *;
        by eapply grows_trans.
    + by destruct (String.eqb ty "close").
Qed.

Lemma opening_grows c cid req msgs t : grows t (snd (opening c cid req msgs t)).
Proof.
  unfold opening, mbind, M_bind, modify.
  assert (H1 : grows t
            (snd ((if truthy (h_last_event_id req)
                   then _replay_events c (default "" (h_last_event_id req))
                   else mret tt) t))).
  { destruct (truthy _); [apply replay_grows|apply grows_refl]. }
  destruct ((if truthy (h_last_event_id req)
             then _replay_events c (default "" (h_last_event_id req))
             else mret tt) t) as [[[]|e|] t1]; cbn [snd] in *; try done.
  eapply grows_trans; [exact H1|].
  eapply grows_trans; [|apply send_grows].
  apply fold_grows. intros. apply send_message_grows.
Qed.

Lemma create_session_grows t : grows t (snd (_create_session t)).
Proof. by apply grows_objs. Qed.

Lemma validate_session_grows sid t : grows t (snd (_validate_session sid t)).
Proof.
  apply grows_objs. by destruct (validate_session_tables sid t) as (_ & _ & _ & -> & _).
Qed.

(** [_initiate_sse], taken apart: the session, the registration, the
    opening, and the close that follows an opening that failed or a
    loop that is not entered. *)
Lemma initiate_sse_unfold req msgs sid init t :
  _validate_origin req = true ->
  let p := if init && negb (truthy sid)
           then (Some (fst (_create_session t)), snd (_create_session t))
           else (sid, t) in
  let c := length (client_objs t) in
  let cid := client_id_of (client_counter t + 1) in
  let res := opening c cid req msgs (registered (fst p) (snd p)) in
  _initiate_sse req msgs sid init t =
    match fst res with
    | Returned _ =>
        if loop_continues c (snd res)
        then (Returned (Streaming c), snd res)
        else (Returned (Streaming c), _close_client c (snd res))
    | Raised _ => (Returned (Streaming c), _close_client c (snd res))
    | Diverged => (Diverged, snd res)
    end.
Proof.
  intros Ho. cbv zeta. unfold _initiate_sse. rewrite Ho. cbn [negb].
  destruct (init && negb (truthy sid)).
  - destruct (_create_session t) as [s t0] eqn:Hcs. cbn [fst snd].
    assert (Hl : client_objs t0 = client_objs t /\ client_counter t0 = client_counter t).
    { unfold _create_session in Hcs. injection Hcs as <- <-. done. }
    destruct Hl as [Hl Hn]. rewrite <- Hl, <- Hn.
    change (with_clients _ (with_client_objs _ (with_client_counter _ t0)))
      with (registered (Some s) t0).
    change ("client_" +:+ str_of_nat (client_counter (with_client_counter (client_counter t0 + 1) t0)))
      with (client_id_of (client_counter t0 + 1)).
    change (length (client_objs (with_client_counter (client_counter t0 + 1) t0)))
      with (length (client_objs t0)).
    by destruct (opening _ _ req msgs _) as [[[]|e|] t1].
  - cbn [fst snd].
    change (with_clients _ (with_client_objs _ (with_client_counter _ t)))
      with (registered sid t).
    change ("client_" +:+ str_of_nat (client_counter (with_client_counter (client_counter t + 1) t)))
      with (client_id_of (client_counter t + 1)).
    change (length (client_objs (with_client_counter (client_counter t + 1) t)))
      with (length (client_objs t)).
    by destruct (opening _ _ req msgs _) as [[[]|e|] t1].
Qed.

Lemma initiate_sse_grows req msgs sid init t :
  grows t (snd (_initiate_sse req msgs sid init t)).
Proof.
  destruct (_validate_origin req) eqn:Ho.
  2:{ unfold _initiate_sse. rewrite Ho. apply grows_refl. }
  rewrite initiate_sse_unfold by done. cbv zeta.
  set (p := if init && negb (truthy sid) then _ else _).
  assert (Hp : grows t (snd p)).
  { unfold p. destruct (_ && _); [apply create_session_grows|apply grows_refl]. }
  assert (Hr : grows t (registered (fst p) (snd p))).
  { eapply grows_trans; [exact Hp|apply registered_grows]. }
  pose proof (opening_grows (length (client_objs t))
                (client_id_of (client_counter t + 1)) req msgs
                (registered (fst p) (snd p))) as Hop.
  assert (Hg : grows t (snd (opening (length (client_objs t))
                (client_id_of (client_counter t + 1)) req msgs (registered (fst p) (snd p)))))
    by (by eapply grows_trans).
  destruct (opening _ _ req msgs _) as [[[]|e|] t1]; cbn [fst snd] in *.
  - destruct (loop_continues _ t1); cbn [snd]; [done|].
    eapply grows_trans; [exact Hg|apply close_client_grows].
  - eapply grows_trans; [exact Hg|apply close_client_grows].
  - done.
Qed.

Lemma handle_sse_grows req t : grows t (snd (_handle_sse req t)).
Proof.
  unfold _handle_sse.
  destruct (negb (_validate_origin req)); [apply grows_refl|].
  destruct (negb (fst (_validate_protocol_version req))); [apply grows_refl|].
  set (p := if truthy (h_session_id req) then _ else _).
  assert (Hp : grows t (snd p)).
  { unfold p. destruct (truthy _); [apply validate_session_grows|apply grows_refl]. }
  destruct p as [ok t1]. cbn [snd] in Hp.
  destruct (negb ok); [done|].
  eapply grows_trans; [exact Hp|apply initiate_sse_grows].
Qed.

Lemma handle_post_grows req t : grows t (snd (_handle_post req t)).
Proof.
  unfold _handle_post.
  destruct (negb (_validate_origin req)); [apply grows_refl|].
  destruct (_validate_protocol_version req) as [valid ver].
  destruct (negb valid); [apply grows_refl|].
  destruct (negb (str_contains _ _)); [apply grows_refl|].
  destruct (body req) as [e|data]; [apply grows_refl|].
  set (p := if negb (is_initialize_body data) && truthy (h_session_id req) then _ else _).
  assert (Hp : grows t (snd p)).
  { unfold p. destruct (_ && _); [apply validate_session_grows|apply grows_refl]. }
  destruct p as [ok t1]. cbn [snd] in Hp.
  destruct (negb ok); [done|].
  assert (Hcl : grows t1 (snd (classify data t1))).
  { apply grows_objs. by destruct (classify_spec data t1) as (_ & _ & _ & _ & -> & _). }
  destruct (classify data t1) as [ms t2]. cbn [snd] in Hcl.
  assert (H3 : grows t (count_messages (length ms) t2)).
  { eapply grows_trans; [exact Hp|]. eapply grows_trans; [exact Hcl|]. by apply grows_objs. }
  cbv zeta.
  destruct (_ || _); [done|].
  destruct (str_contains _ _).
  { eapply grows_trans; [exact H3|apply initiate_sse_grows]. }
  destruct (_ && _); [|done].
  pose proof (create_session_grows (count_messages (length ms) t2)) as Hcs.
  destruct (_create_session _) as [s t4]. cbn [snd] in *.
  by eapply grows_trans.
Qed.

Lemma step_grows t t' : step t t' -> grows t t'.
Proof.
  intros Hstep. destruct Hstep.
  - apply handle_post_grows.
  - apply handle_sse_grows.
  - apply service_item_grows.
  - apply close_client_grows.
  - apply send_message_grows.
  - apply enqueue_grows.
  - apply stop_grows.
  - by apply grows_objs.
  - apply update_client_grows. by repeat split.
  - by apply grows_objs.
Qed.

End Ageing.

(** ** POST: counters and the JSON acknowledgement *)

Section Post.

Context `{Library}.

Lemma registered_same_books sid t : same_books t (registered sid t).
Proof. by repeat split. Qed.

(** Past its origin check, [_initiate_sse] changes the books by the
    session it creates, if any. *)
Lemma initiate_sse_books req msgs sid init t :
  _validate_origin req = true ->
  same_books
    (if init && negb (truthy sid) then snd (_create_session t) else t)
    (snd (_initiate_sse req msgs sid init t)).
Proof.
  intros Ho. rewrite initiate_sse_unfold by done. cbv zeta.
  assert (Hgen : forall c cid s t0,
    same_books t0
      (snd (match fst (opening c cid req msgs (registered s t0)) with
            | Returned _ =>
                if loop_continues c (snd (opening c cid req msgs (registered s t0)))
                then (Returned (Streaming c), snd (opening c cid req msgs (registered s t0)))
                else (Returned (Streaming c),
                      _close_client c (snd (opening c cid req msgs (registered s t0))))
            | Raised _ =>
                (Returned (Streaming c),
                 _close_client c (snd (opening c cid req msgs (registered s t0))))
            | Diverged => (Diverged, snd (opening c cid req msgs (registered s t0)))
            end))).
  { intros c cid s t0.
    pose proof (opening_same_books c cid req msgs (registered s t0)) as Hop.
    assert (Hg : same_books t0 (snd (opening c cid req msgs (registered s t0)))).
    { eapply same_books_trans; [apply registered_same_books|exact Hop]. }
    destruct (opening _ _ req msgs _) as [[[]|e|] t1]; cbn [fst snd] in *.
    - destruct (loop_continues _ t1); cbn [snd]; [done|].
      eapply same_books_trans; [exact Hg|apply close_client_same_books].
    - eapply same_books_trans; [exact Hg|apply close_client_same_books].
    - done. }
  destruct (init && negb (truthy sid)); cbn [fst snd]; apply Hgen.
Qed.

Lemma parse_message_stats item t :
  stats (snd (_parse_message item t)) =
    if rejected item then stats (count_error t) else stats t.
Proof.
  unfold rejected, parsed, unknown_format, _parse_message.
  destruct (py_in "method" item) as [[]|]; [| |done].
  - destruct (py_in "id" item) as [[]|]; [| |by destruct (py_in "result" item) as [[]|]].
    + destruct (construct _ _ item); [done|]. cbn.
      by destruct (py_in "result" item) as [[]|]; destruct (py_in "error" item) as [[]|].
    + destruct (construct _ _ item); [done|]. cbn.
      by destruct (py_in "result" item) as [[]|]; destruct (py_in "error" item) as [[]|].
  - destruct (py_in "result" item) as [[]|]; [| |done].
    + destruct (construct _ _ item); [done|]. cbn.
      by destruct (py_in "error" item) as [[]|].
    + destruct (py_in "error" item) as [[]|]; [| |done].
      * by destruct (construct _ _ item).
      * done.
Qed.

Lemma parse_message_other item t :
  messages_received (stats (snd (_parse_message item t))) = messages_received (stats t) /\
  batches_received (stats (snd (_parse_message item t))) = batches_received (stats t) /\
  errors (stats (snd (_parse_message item t))) =
    errors (stats t) + (if rejected item then 1 else 0).
Proof.
  rewrite parse_message_stats. destruct (rejected item); cbn; split_and!; lia.
Qed.

Lemma parse_items_stats items t :
  messages_received (stats (snd (parse_items items t))) = messages_received (stats t) /\
  batches_received (stats (snd (parse_items items t))) = batches_received (stats t) /\
  errors (stats (snd (parse_items items t))) =
    errors (stats t) + length (filter (fun i => rejected i = true) items).
Proof.
  revert t. induction items as [|item rest IH]; intros t; [cbn; split_and!; lia|].
  cbn [parse_items].
  destruct (parse_message_other item t) as (Hm & Hb & He).
  destruct (_parse_message item t) as [m t1]. cbn [snd] in *.
  destruct (IH t1) as (Hm' & Hb' & He').
  destruct (parse_items rest t1) as [ms t2]. cbn [snd] in *.
  rewrite filter_cons. split_and!; [lia|lia|].
  destruct (rejected item); cbn; case_decide; try done; cbn; lia.
Qed.

Lemma classify_stats data t :
  let s := stats t in
  let s' := stats (snd (classify data t)) in
  messages_received s' = messages_received s /\
  batches_received s' = batches_received s + (if is_batch data then 1 else 0) /\
  errors s' = errors s + length (filter (fun i => rejected i = true) (items_of data)).
Proof.
  cbv zeta.
  assert (Hone : forall d, is_batch d = false -> items_of d = [d] ->
    classify d t = (let '(m, t) := _parse_message d t in
                    (match m with Some m => [m] | None => [] end, t)) ->
    messages_received (stats (snd (classify d t))) = messages_received (stats t) /\
    batches_received (stats (snd (classify d t)))
      = batches_received (stats t) + (if is_batch d then 1 else 0) /\
    errors (stats (snd (classify d t)))
      = errors (stats t) + length (filter (fun i => rejected i = true) (items_of d))).
  { intros d Hb Hi ->. rewrite Hb, Hi.
    destruct (parse_message_other d t) as (Hm & Hb' & He).
    destruct (_parse_message d t) as [m t1]. cbn [snd] in *.
    rewrite filter_cons, filter_nil. split_and!; [lia|lia|].
    destruct (rejected d); case_decide; try done; cbn; lia. }
  destruct data; try (by apply Hone).
  cbn [classify is_batch items_of].
  destruct (parse_items_stats items t) as (Hm & Hb & He).
  destruct (parse_items items t) as [ms t1]. cbn [snd] in *.
  unfold count_batch. cbn. split_and!; lia.
Qed.

(** X8.  The counters of /stats after a POST that passes the gates:
    [messages_received] has grown by the number of messages kept,
    [batches_received] by one exactly when the body is an array (an
    empty one too), and [errors] by the number of values that went
    through the classifier's exception path; values of unknown format
    are dropped without being counted.  A value that is no container
    (a number, a boolean, null) always counts as an error, an object
    does when it has one of the keys method, result, error and fails
    validation. *)
Theorem post_counters (req : Request) (data : json) (t : Transport) :
  passes_gates req data t ->
  let s := stats t in
  let s' := stats (snd (_handle_post req t)) in
  (messages_received s' = messages_received s + length (kept data) /\
   batches_received s' = batches_received s + (if is_batch data then 1 else 0) /\
   errors s' = errors s + length (filter (fun i => rejected i = true) (items_of data))) /\
  (forall n, rejected (JNum n) = true) /\ (forall b, rejected (JBool b) = true) /\
  rejected JNull = true /\
  (forall fields,
     rejected (JObj fields) = true <->
     parsed (JObj fields) = None /\
     (obj_has "method" fields = true \/ obj_has "result" fields = true \/
      obj_has "error" fields = true)).
Proof.
  intros Hg. cbv zeta. split; [|split_and!; try done].
  - rewrite (handle_post_gated req data t Hg). cbv zeta.
    set (t1 := snd (session_gate req data t)).
    assert (Hs1 : stats t1 = stats t).
    { unfold t1, session_gate. destruct (_ && _); [|done].
      unfold _validate_session. by repeat (case_match; cbn). }
    destruct (classify_stats data t1) as (Hm & Hb & He). cbv zeta in *.
    rewrite Hs1 in *.
    set (t2 := count_messages (length (kept data)) (snd (classify data t1))).
    assert (H2 : messages_received (stats t2) = messages_received (stats t) + length (kept data) /\
                 batches_received (stats t2) = batches_received (stats t) + (if is_batch data then 1 else 0) /\
                 errors (stats t2) = errors (stats t)
                   + length (filter (fun i => rejected i = true) (items_of data))).
    { unfold t2. cbn. split_and!; lia. }
    destruct (_ || _); cbn [snd]; [done|].
    destruct Hg as (Ho & _).
    destruct (str_contains _ _).
    + pose proof (initiate_sse_books req (kept data) (h_session_id req)
                    (is_initialize_body data) t2 Ho) as Hb2.
      destruct Hb2 as (_ & _ & _ & _ & _ & -> & _).
      by destruct (_ && _).
    + by destruct (_ && _).
  - intros fields. unfold rejected, unknown_format. cbn [py_in].
    destruct (parsed (JObj fields)); [split; [done|by intros [? _]]|].
    destruct (obj_has "method" fields), (obj_has "result" fields),
      (obj_has "error" fields); cbn; split; try done; try (intros; split; [done|]; eauto).
    intros [_ [?|[?|?]]]; done.
Qed.

(** X9.  A POST that passes the gates, carries a request and does not
    accept an event stream is acknowledged in JSON with the number of
    messages kept.  No connection is opened and nothing is logged.  A
    session is created, and its id returned in the header, exactly
    when the body is an initialize request and the session header is
    absent or empty; otherwise no header is set, no identifier is
    drawn and the set of sessions is as before. *)
Theorem post_json_acknowledgement (req : Request) (data : json) (t : Transport) :
  passes_gates req data t ->
  existsb is_JSONRPCRequest (kept data) = true ->
  str_contains "text/event-stream" (default "" (h_accept req)) = false ->
  let mint := is_initialize_body data && negb (truthy (h_session_id req)) in
  let sid := uuid4 (uuids_drawn t) in
  exists t',
    _handle_post req t =
      (Returned (JsonReceived (length (kept data)) (if mint then Some sid else None)), t') /\
    clients t' = clients t /\ client_objs t' = client_objs t /\
    client_counter t' = client_counter t /\
    event_history t' = event_history t /\ lists t' = lists t /\
    if mint
    then sessions t' !! sid =
           Some {| session_id := sid; created_at := clock t;
                   last_accessed := clock t; client_info := [] |} /\
         uuids_drawn t' = S (uuids_drawn t)
    else dom (sessions t') = dom (sessions t) /\ uuids_drawn t' = uuids_drawn t.
Proof.
  intros Hg Hreq Hacc. cbv zeta.
  rewrite (handle_post_gated req data t Hg). cbv zeta.
  rewrite (request_excludes_pure _ Hreq), Hacc.
  destruct (session_gate_tables req data t) as (Hc & Ho & Hd & He & Hl & Hn & Hu).
  cbv zeta in *.
  set (t1 := snd (session_gate req data t)) in *.
  destruct (classify_spec data t1) as (_ & Hst).
  destruct Hst as (_ & _ & Hc2 & Ho2 & Hs2 & He2 & Hl2 & Hn2 & Hu2).
  set (t2 := snd (classify data t1)) in *.
  assert (Hclk : clock t2 = clock t).
  { assert (Hpi : forall items t0, clock (snd (parse_items items t0)) = clock t0).
    { induction items as [|i rest IH]; intros t0; [done|]. cbn [parse_items].
      assert (Hpm : clock (snd (_parse_message i t0)) = clock t0).
      { unfold _parse_message. by repeat (case_match; cbn). }
      destruct (_parse_message i t0) as [m t3]. cbn [snd] in Hpm.
      specialize (IH t3). destruct (parse_items rest t3). cbn [snd] in *. congruence. }
    assert (Hpm : forall i t0, clock (snd (_parse_message i t0)) = clock t0).
    { intros. unfold _parse_message. by repeat (case_match; cbn). }
    assert (Hcl : forall t0, clock (snd (classify data t0)) = clock t0).
    { intros t0. unfold classify. destruct data;
        try (specialize (Hpm data t0); by destruct (_parse_message _ t0));
        try by (match goal with |- context [_parse_message ?d t0] =>
                  specialize (Hpm d t0); destruct (_parse_message d t0) end).
      specialize (Hpi items t0). by destruct (parse_items items t0). }
    unfold t2. rewrite Hcl. unfold t1, session_gate, _validate_session.
    by repeat (case_match; cbn). }
  destruct (is_initialize_body data && negb (truthy (h_session_id req))).
  - unfold _create_session. eexists. split; [cbn; rewrite Hu2, Hu; reflexivity|].
    unfold with_sessions, with_uuids_drawn, count_messages, with_stats. cbn.
    rewrite Hc2, Ho2, He2, Hl2, Hn2, Hclk. split_and!; try done.
    by rewrite lookup_insert_eq.
  - eexists. split; [reflexivity|].
    unfold count_messages, with_stats. cbn.
    rewrite Hc2, Ho2, He2, Hl2, Hn2, Hu2, Hs2. by split_and!.
Qed.

End Post.

(** ** Broadcasts *)

Lemma client_refs_spec t c :
  c ∈ client_refs t <-> exists k, clients t !! k = Some c.
Proof.
  unfold client_refs. rewrite list_elem_of_fmap. split.
  - intros ([k c'] & -> & Hin). exists k. by apply elem_of_map_to_list in Hin.
  - intros [k Hk]. exists (k, c). split; [done|]. by apply elem_of_map_to_list.
Qed.

Lemma client_refs_NoDup t : clients_keyed t -> NoDup (client_refs t).
Proof.
  intros Hk. unfold client_refs. apply NoDup_fmap_2_strong; [|apply NoDup_map_to_list].
  intros [k1 c1] [k2 c2] H1%elem_of_map_to_list H2%elem_of_map_to_list Heq.
  cbn in Heq. subst c2. f_equal.
  rewrite <- (Hk k1 c1 H1). by rewrite <- (Hk k2 c1 H2).
Qed.

Lemma fan_out_tables item refs t :
  let t' := fan_out item refs t in
  clients t' = clients t /\ length (client_objs t') = length (client_objs t) /\
  event_history t' = event_history t /\ lists t' = lists t /\
  client_counter t' = client_counter t /\ same_books t t'.
Proof.
  cbv zeta. revert t. induction refs as [|c refs IH]; intros t.
  { by repeat split. }
  unfold fan_out. cbn [foldl]. fold (fan_out item refs (update_client c (enqueue item) t)).
  destruct (IH (update_client c (enqueue item) t)) as (-> & -> & -> & -> & -> & Hb).
  split_and!; try done.
  apply length_update_client.
Qed.

Lemma fan_out_spec item refs t c :
  NoDup refs -> Forall (fun c => c < length (client_objs t)) refs ->
  client_at (fan_out item refs t) c =
    if bool_decide (c ∈ refs) then enqueue item (client_at t c) else client_at t c.
Proof.
  revert t. induction refs as [|r refs IH]; intros t Hnd Hb; [done|].
  apply NoDup_cons in Hnd as [Hnotin Hnd]. apply Forall_cons in Hb as [Hr Hb].
  unfold fan_out. cbn [foldl]. fold (fan_out item refs (update_client r (enqueue item) t)).
  rewrite IH; [|done|].
  2:{ eapply Forall_impl; [exact Hb|]. intros x Hx. cbn beta. by rewrite length_update_client. }
  destruct (decide (c = r)) as [->|Hne].
  - rewrite (bool_decide_eq_false_2 (r ∈ refs)) by done.
    rewrite (bool_decide_eq_true_2 (r ∈ r :: refs)) by (apply elem_of_cons; by left).
    by rewrite client_at_update_eq.
  - rewrite client_at_update_ne by done.
    apply bool_decide_ext'. rewrite elem_of_cons.
    split; [by right|intros [?|?]; done].
Qed.

Section Broadcasts.

Context `{Library}.

Lemma fan_out_registered item t :
  registry_wf t ->
  let t' := fan_out item (client_refs t) t in
  (forall k c, clients t !! k = Some c -> client_at t' c = enqueue item (client_at t c)) /\
  (forall c, (forall k, clients t !! k <> Some c) -> client_at t' c = client_at t c).
Proof.
  intros [Hk Hb]. cbv zeta.
  assert (Hspec : forall c, client_at (fan_out item (client_refs t) t) c =
            if bool_decide (c ∈ client_refs t) then enqueue item (client_at t c)
            else client_at t c).
  { intros c. apply fan_out_spec; [by apply client_refs_NoDup|].
    apply Forall_forall. intros x [k Hx]%client_refs_spec. by apply (Hb k x). }
  split.
  - intros k c Hc. rewrite Hspec, bool_decide_eq_true_2; [done|].
    apply client_refs_spec. eauto.
  - intros c Hc. rewrite Hspec, bool_decide_eq_false_2; [done|].
    intros [k Hk']%client_refs_spec. by apply (Hc k).
Qed.

(** X10.  [send_message] queues the message, serialised once, as one
    'message' item at the end of the queue of every registered
    connection, and does nothing else: no stream is written to, no
    event id is used, nothing is logged, no other client object is
    touched, and a transport without connections is left as it is. *)
Theorem send_message_reaches_every_client (m : JSONRPCMessage) (t : Transport) :
  registry_wf t ->
  let item := ("message", JStr (dump_message m)) in
  let t' := send_message m t in
  (forall k c, clients t !! k = Some c ->
     queue (client_at t' c) = queue (client_at t c) ++ [item] /\
     response (client_at t' c) = response (client_at t c) /\
     event_counter (client_at t' c) = event_counter (client_at t c) /\
     last_ping (client_at t' c) = last_ping (client_at t c)) /\
  (forall c, (forall k, clients t !! k <> Some c) -> client_at t' c = client_at t c) /\
  clients t' = clients t /\ event_history t' = event_history t /\ lists t' = lists t /\
  stats t' = stats t /\ sessions t' = sessions t /\
  (clients t = ∅ -> t' = t).
Proof.
  intros Hwf. cbv zeta. unfold send_message.
  case_bool_decide as Hemp.
  { split_and!; try done. intros k c Hc. by rewrite Hemp, lookup_empty in Hc. }
  cbv zeta. change (foldl _ t (client_refs t))
    with (fan_out ("message", JStr (dump_message m)) (client_refs t) t).
  destruct (fan_out_registered ("message", JStr (dump_message m)) t Hwf) as [Hin Hout].
  destruct (fan_out_tables ("message", JStr (dump_message m)) (client_refs t) t)
    as (Hc & _ & He & Hl & _ & Hb).
  destruct Hb as (_ & _ & _ & _ & Hs & Hst & _).
  split_and!; try done.
  intros k c Hk. by rewrite (Hin k c Hk).
Qed.

(** X11.  [send_batch] queues the whole batch as ONE 'batch' item,
    the comma-joined serialisations in brackets, on every registered
    connection; it does nothing when the list of messages is empty or
    no connection is registered, and it never writes to a stream. *)
Theorem send_batch_queues_one_item (messages : list JSONRPCMessage) (t : Transport) :
  registry_wf t ->
  let item := ("batch", JStr (dump_batch messages)) in
  let t' := send_batch messages t in
  (messages <> [] ->
   forall k c, clients t !! k = Some c ->
     queue (client_at t' c) = queue (client_at t c) ++ [item] /\
     response (client_at t' c) = response (client_at t c) /\
     event_counter (client_at t' c) = event_counter (client_at t c)) /\
  (forall c, (forall k, clients t !! k <> Some c) -> client_at t' c = client_at t c) /\
  clients t' = clients t /\ event_history t' = event_history t /\ lists t' = lists t /\
  stats t' = stats t /\
  (messages = [] \/ clients t = ∅ -> t' = t).
Proof.
  intros Hwf. cbv zeta. unfold send_batch.
  destruct messages as [|m ms].
  { cbn [orb]. split_and!; done. }
  cbn [orb]. case_bool_decide as Hemp.
  { split_and!; try done. intros _ k c Hc. by rewrite Hemp, lookup_empty in Hc. }
  cbv zeta. change (foldl _ t (client_refs t))
    with (fan_out ("batch", JStr (dump_batch (m :: ms))) (client_refs t) t).
  destruct (fan_out_registered ("batch", JStr (dump_batch (m :: ms))) t Hwf) as [Hin Hout].
  destruct (fan_out_tables ("batch", JStr (dump_batch (m :: ms))) (client_refs t) t)
    as (Hc & _ & He & Hl & _ & Hb).
  destruct Hb as (_ & _ & _ & _ & Hs & Hst & _).
  split_and!; try done.
  - intros _ k c Hk. by rewrite (Hin k c Hk).
  - by intros [?|?].
Qed.

End Broadcasts.

(** ** The service loop *)

Lemma send_keeps c ty d oid t c' :
  let o' := client_at (snd (_send_sse_event c ty d oid t)) c' in
  queue o' = queue (client_at t c') /\
  last_ping o' = last_ping (client_at t c') /\
  client_session o' = client_session (client_at t c').
Proof.
  cbv zeta. destruct (decide (c = c')) as [<-|Hne]; [|by rewrite send_other_client].
  destruct (decide (c < length (client_objs t))) as [Hc|Hc].
  - rewrite send_unfold by done. cbv zeta.
    assert (H0 : forall t0 f, c < length (client_objs t0) ->
              (forall o, queue (f o) = queue o /\ last_ping (f o) = last_ping o /\
                         client_session (f o) = client_session o) ->
              queue (client_at (update_client c f t0) c) = queue (client_at t0 c) /\
              last_ping (client_at (update_client c f t0) c) = last_ping (client_at t0 c) /\
              client_session (client_at (update_client c f t0) c)
                = client_session (client_at t0 c)).
    { intros t0 f Hc0 Hf. rewrite client_at_update_eq by done. apply Hf. }
    assert (H1 : queue (client_at (id_settled t c oid) c) = queue (client_at t c) /\
                 last_ping (client_at (id_settled t c oid) c) = last_ping (client_at t c) /\
                 client_session (client_at (id_settled t c oid) c)
                   = client_session (client_at t c)).
    { destruct oid; [done|]. cbn [id_settled]. by apply H0. }
    assert (Hl : c < length (client_objs (id_settled t c oid))).
    { destruct oid; [done|]. cbn [id_settled]. by rewrite length_update_client. }
    destruct (refuses_writes _); cbn [snd].
    + by rewrite client_at_store.
    + destruct (H0 (_store_event (client_id (client_at t c)) (sent_id t c oid) d
                     (id_settled t c oid))
                  (set_response (write_event
                     {| ev_id := sent_id t c oid; ev_type := ty; ev_data := d |}
                     (response (client_at t c))))) as (-> & -> & ->);
        [by rewrite store_event_client_objs|done|].
      by rewrite client_at_store.
  - destruct (send_grows c ty d oid t) as [Hlen _].
    assert (Hobjs : client_objs (snd (_send_sse_event c ty d oid t)) = client_objs t).
    { unfold _send_sse_event.
      assert (Hu : forall f t0, client_objs t0 = client_objs t ->
                client_objs (update_client c f t0) = client_objs t).
      { intros f t0 H0. unfold update_client. cbn. rewrite H0.
        apply alter_beyond. lia. }
      destruct oid as [e|].
      + destruct (_ || _); cbn [snd]; [apply store_event_client_objs|].
        apply Hu, store_event_client_objs.
      + unfold _generate_event_id.
        destruct (_ || _); cbn [snd].
        * rewrite store_event_client_objs. by apply Hu.
        * apply Hu. rewrite store_event_client_objs. by apply Hu. }
    unfold client_at. by rewrite Hobjs.
Qed.






(** ** Failed writes, close and stop *)

(** X14.  A write that fails is still on record.  When the stream
    refuses writes (it is closing, or finished), [_send_sse_event]
    raises the stream's error and writes nothing; but the event id has
    been generated, so the counter has moved on, and the event has
    been appended to the connection's log. *)
Theorem failed_write_is_still_logged (t : Transport) (c : nat) (ty : string) (d : json) :
  c < length (client_objs t) -> history_wf t ->
  refuses_writes (response (client_at t c)) = true ->
  let cid := client_id (client_at t c) in
  let n := event_counter (client_at t c) in
  let res := _send_sse_event c ty d None t in
  fst res = Raised (write_error (response (client_at t c))) /\
  written (response (client_at (snd res) c)) = written (response (client_at t c)) /\
  event_counter (client_at (snd res) c) = n + 1 /\
  log_of (snd res) cid = last100 (log_of t cid ++ [(event_id_of cid (n + 1), d)]) /\
  (forall other, other <> cid -> log_of (snd res) other = log_of t other).
Proof.
  intros Hc Hwf Href. cbv zeta.
  destruct (send_client c ty d None t Hc) as (_ & _ & _ & _ & Hn & _ & Hfail).
  destruct (Hfail Href) as [Hr Hw].
  destruct (send_log c ty d None t Hc Hwf) as (_ & Hlog & Hother).
  by split_and!.
Qed.



Lemma close_client_other c t c' : c' <> c -> client_at (_close_client c t) c' = client_at t c'.
Proof.
  intros Hne. unfold _close_client. cbv zeta.
  set (t1 := match clients t !! _ with Some _ => _ | None => t end).
  assert (H2 : client_objs t1 = client_objs t) by (unfold t1; by case_match).
  assert (H4 : client_at t1 c' = client_at t c') by (unfold client_at; by rewrite H2).
  destruct (negb _); [|done]. by rewrite client_at_update_ne.
Qed.

Lemma close_client_refuses c t :
  c < length (client_objs t) ->
  refuses_writes (response (client_at (_close_client c t) c)) = true.
Proof.
  intros Hc. unfold _close_client. cbv zeta.
  set (t1 := match clients t !! _ with Some _ => _ | None => t end).
  assert (H2 : client_objs t1 = client_objs t) by (unfold t1; by case_match).
  destruct (closing (response (client_at t1 c))) eqn:Hclo; cbn [negb].
  - unfold refuses_writes. by rewrite Hclo.
  - rewrite client_at_update_eq by (by rewrite H2).
    unfold refuses_writes. cbn. by rewrite orb_true_r.
Qed.





(** ** The sweeper *)

Lemma enqueue_last_ping c item t c' :
  last_ping (client_at (update_client c (enqueue item) t) c') = last_ping (client_at t c').
Proof.
  unfold client_at, update_client; simpl. rewrite list_lookup_total_alter.
  case_decide as Hd; [|done]. by destruct Hd as [-> _].
Qed.

Lemma ping_scan now refs :
  forall stale t,
    foldl (fun '(stale_clients, t) c =>
             if is_stale now (client_at t c)
             then (stale_clients ++ [c], t)
             else (stale_clients, update_client c (enqueue ("ping", JNum now)) t))
          (stale, t) refs
    = (stale ++ filter (fun c => is_stale now (client_at t c) = true) refs,
       fan_out ("ping", JNum now)
         (filter (fun c => is_stale now (client_at t c) = false) refs) t).
Proof.
  induction refs as [|r refs IH]; intros stale t; cbn [foldl].
  { by rewrite !filter_nil, app_nil_r. }
  rewrite !filter_cons.
  destruct (is_stale now (client_at t r)) eqn:Hs.
  - rewrite IH. rewrite decide_True by done. rewrite decide_False by done.
    by rewrite <- app_assoc.
  - rewrite IH. rewrite decide_False by done. rewrite decide_True by done.
    unfold fan_out at 2. cbn [foldl].
    fold (fan_out ("ping", JNum now)
            (filter (fun c => is_stale now (client_at t c) = false) refs)
            (update_client r (enqueue ("ping", JNum now)) t)).
    f_equal.
    + f_equal. apply list_filter_iff. intros c. unfold is_stale.
      by rewrite enqueue_last_ping.
    + f_equal. apply list_filter_iff. intros c. unfold is_stale.
      by rewrite enqueue_last_ping.
Qed.


(** ** An invariant of the reachable states *)

Lemma consistent_init cfg : consistent (__init__ cfg).
Proof.
  split; try (intros c Hc; cbn in Hc; lia).
  - done.
  - intros k c Hk. cbn in Hk. by rewrite lookup_empty in Hk.
  - apply init_history_wf.
  - intros cid l Hl. cbn in Hl. by rewrite lookup_empty in Hl.
Qed.

(** A change that leaves the tables and the identity, stream and
    counter of every client object alone, except that streams may
    start to refuse writes. *)
Lemma consistent_frame t t' :
  clients t' = clients t -> event_history t' = event_history t -> lists t' = lists t ->
  client_counter t' = client_counter t ->
  length (client_objs t') = length (client_objs t) ->
  (forall c, client_id (client_at t' c) = client_id (client_at t c) /\
             event_counter (client_at t' c) = event_counter (client_at t c) /\
             written (response (client_at t' c)) = written (response (client_at t c)) /\
             (refuses_writes (response (client_at t c)) = true ->
              refuses_writes (response (client_at t' c)) = true)) ->
  consistent t -> consistent t'.
Proof.
  intros Hc He Hl Hn Hlen Hobj [C1 C2 C3 C4 C5 C6 C7 C8 C9 C10].
  assert (Hlog : forall cid, log_of t' cid = log_of t cid).
  { intros cid. by apply log_of_ext. }
  split.
  - congruence.
  - intros c Hlt. destruct (Hobj c) as (-> & _). apply C2. lia.
  - intros k c Hk. rewrite Hc in Hk. destruct (C3 k c Hk) as [? ?].
    destruct (Hobj c) as (-> & _). split; [lia|done].
  - intros c Hlt Hnone. destruct (Hobj c) as (Hid & _ & _ & Hr). rewrite Hid, Hc in Hnone.
    apply Hr, C4; [lia|done].
  - destruct C5 as [Hb Hi]. split.
    + intros cid l. rewrite He, Hl. apply Hb.
    + intros c1 c2 l. rewrite He. apply Hi.
  - intros cid l Hcl. rewrite He in Hcl. destruct (C6 cid l Hcl) as (c & Hlt & ->).
    exists c. destruct (Hobj c) as (-> & _). split; [lia|done].
  - intros c Hlt. destruct (Hobj c) as (-> & -> & _). rewrite Hlog. apply C7. lia.
  - intros c Hlt. destruct (Hobj c) as (-> & _ & -> & _). apply C8. lia.
  - intros c Hlt. destruct (Hobj c) as (_ & -> & -> & _). apply C9. lia.
  - intros c Hlt Hopen. destruct (Hobj c) as (_ & -> & -> & Hr). apply C10; [lia|].
    destruct (refuses_writes (response (client_at t c))); [|done].
    by rewrite Hr in Hopen.
Qed.

Lemma consistent_fields t t' :
  clients t' = clients t -> client_objs t' = client_objs t ->
  event_history t' = event_history t -> lists t' = lists t ->
  client_counter t' = client_counter t ->
  consistent t -> consistent t'.
Proof.
  intros Hc Ho He Hl Hn. apply consistent_frame; try done; [by rewrite Ho|].
  intros c. unfold client_at. by rewrite Ho.
Qed.

Lemma consistent_update c f t :
  (forall o, client_id (f o) = client_id o /\ event_counter (f o) = event_counter o /\
             written (response (f o)) = written (response o) /\
             (refuses_writes (response o) = true -> refuses_writes (response (f o)) = true)) ->
  consistent t -> consistent (update_client c f t).
Proof.
  intros Hf. apply consistent_frame; try done; [apply length_update_client|].
  intros c'. unfold client_at, update_client; simpl. rewrite list_lookup_total_alter.
  case_decide as Hd; [|done]. destruct Hd as [-> _]. apply Hf.
Qed.

Lemma map_fst_last100 {A B} (xs : list (A * B)) : map fst (last100 xs) = last100 (map fst xs).
Proof. unfold last100. by rewrite length_map, skipn_map. Qed.

Lemma generated_ids_S cid n :
  generated_ids cid (n + 1) = generated_ids cid n ++ [event_id_of cid (n + 1)].
Proof.
  unfold generated_ids. rewrite seq_app, map_app. cbn [seq map].
  by rewrite (Nat.add_comm 1 n).
Qed.

Lemma generated_ids_length cid n : length (generated_ids cid n) = n.
Proof. unfold generated_ids. by rewrite length_map, length_seq. Qed.

Lemma send_clients c ty d oid t : clients (snd (_send_sse_event c ty d oid t)) = clients t.
Proof.
  unfold _send_sse_event.
  set (p := match oid with Some e => (e, t) | None => _generate_event_id c t end).
  assert (Hp : clients (snd p) = clients t) by (unfold p; by destruct oid).
  destruct p as [eid t0]. cbn [snd] in Hp.
  destruct (_ || _); cbn [snd]; unfold update_client; cbn;
    by rewrite store_event_clients.
Qed.

(** A delivery with a generated id keeps the state consistent. *)
Lemma consistent_send c ty d t :
  c < length (client_objs t) -> consistent t ->
  consistent (snd (_send_sse_event c ty d None t)).
Proof.
  intros Hc [C1 C2 C3 C4 C5 C6 C7 C8 C9 C10].
  destruct (send_client c ty d None t Hc) as (Hlen & Hid & Hcl & Heof & Hcnt & Hok & Hfail).
  destruct (send_log c ty d None t Hc C5) as (Hwf & Hlog & Hother).
  pose proof (send_same_connections c ty d None t Hc) as (Hn & _ & Hids & Hkeys).
  pose proof (send_clients c ty d None t) as Hcli.
  cbv zeta in *.
  set (t' := snd (_send_sse_event c ty d None t)) in *.
  assert (Hoth : forall c', c' <> c -> client_at t' c' = client_at t c').
  { intros c' Hne. unfold t'. by rewrite send_other_client. }
  assert (Href : refuses_writes (response (client_at t' c))
                 = refuses_writes (response (client_at t c))).
  { unfold refuses_writes. by rewrite Hcl, Heof. }
  assert (Hinj : forall c', c' < length (client_objs t) -> c' <> c ->
            client_id (client_at t c') <> client_id (client_at t c)).
  { intros c' Hlt Hne Heq. rewrite (C2 c' Hlt), (C2 c Hc) in Heq.
    apply client_id_of_inj in Heq. lia. }
  split.
  - congruence.
  - intros c' Hlt. rewrite Hids. apply C2. lia.
  - intros k c' Hk. rewrite Hcli in Hk. destruct (C3 k c' Hk) as [? ?].
    rewrite Hids. split; [lia|done].
  - intros c' Hlt Hnone. rewrite Hids, Hcli in Hnone. rewrite Hlen in Hlt.
    destruct (decide (c' = c)) as [->|Hne].
    + rewrite Href. by apply C4.
    + rewrite Hoth by done. by apply C4.
  - done.
  - intros cid l Hcl'. destruct (Hkeys cid l Hcl') as [[l0 Hl0]|(c' & Hlt & ->)].
    + destruct (C6 cid l0 Hl0) as (c' & Hlt & ->). exists c'. rewrite Hids. split; [lia|done].
    + exists c'. rewrite Hids. split; [lia|done].
  - intros c' Hlt. rewrite Hlen in Hlt. destruct (decide (c' = c)) as [->|Hne].
    + rewrite Hid, Hlog, Hcnt. rewrite map_fst_last100, map_app, (C7 c Hc).
      cbn [map fst sent_id]. rewrite last100_app. by rewrite generated_ids_S.
    + rewrite (Hoth c' Hne). rewrite Hother by (by apply Hinj). by apply C7.
  - intros c' Hlt. rewrite Hlen in Hlt. destruct (decide (c' = c)) as [->|Hne].
    2:{ rewrite (Hoth c' Hne). by apply C8. }
    destruct (refuses_writes (response (client_at t c))) eqn:Hr.
    + destruct (Hfail eq_refl) as [_ ->]. rewrite Hid. by apply C8.
    + destruct (Hok eq_refl) as [_ ->]. rewrite Hid, map_app, length_app. cbn [map length ev_id].
      rewrite generated_ids_S, <- (C8 c Hc). cbn [sent_id].
      by rewrite (C10 c Hc Hr).
  - intros c' Hlt. rewrite Hlen in Hlt. destruct (decide (c' = c)) as [->|Hne].
    2:{ rewrite (Hoth c' Hne). by apply C9. }
    rewrite Hcnt. specialize (C9 c Hc).
    destruct (refuses_writes (response (client_at t c))) eqn:Hr.
    + destruct (Hfail eq_refl) as [_ ->]. lia.
    + destruct (Hok eq_refl) as [_ ->]. rewrite length_app. cbn. rewrite (C10 c Hc Hr). lia.
  - intros c' Hlt Hopen. rewrite Hlen in Hlt. destruct (decide (c' = c)) as [->|Hne].
    2:{ rewrite (Hoth c' Hne) in *. by apply C10. }
    rewrite Href in Hopen. rewrite Hcnt.
    destruct (Hok Hopen) as [_ ->]. rewrite length_app. cbn. rewrite (C10 c Hc Hopen). lia.
Qed.

Lemma consistent_close c t :
  c < length (client_objs t) -> consistent t -> consistent (_close_client c t).
Proof.
  intros Hc Hcons.
  pose proof Hcons as [C1 C2 C3 C4 C5 C6 C7 C8 C9 C10].
  destruct (close_client_effect c t) as (Hcl & Hid & _ & He & Hl & _). cbv zeta in *.
  destruct (close_client_same_connections c t) as (Hn & Hlen & _).
  pose proof (close_client_refuses c t Hc) as Href.
  pose proof (close_client_grows c t) as [_ Hages].
  assert (Hlog : forall cid, log_of (_close_client c t) cid = log_of t cid).
  { intros cid. by apply log_of_ext. }
  assert (Hoth : forall c', c' <> c -> client_at (_close_client c t) c' = client_at t c').
  { intros c' Hne. by apply close_client_other. }
  assert (Hcnt : forall c', event_counter (client_at (_close_client c t) c')
                            = event_counter (client_at t c')).
  { intros c'. destruct (decide (c' = c)) as [->|Hne]; [|by rewrite Hoth].
    unfold _close_client. cbv zeta.
    set (t1 := match clients t !! _ with Some _ => _ | None => t end).
    assert (H2 : client_objs t1 = client_objs t) by (unfold t1; by case_match).
    assert (H4 : client_at t1 c = client_at t c) by (unfold client_at; by rewrite H2).
    destruct (negb _); [|by rewrite H4].
    rewrite client_at_update_eq by (by rewrite H2). cbn. by rewrite H4. }
  set (t' := _close_client c t) in *.
  split.
  - congruence.
  - intros c' Hlt. rewrite Hid. apply C2. lia.
  - intros k c' Hk. rewrite Hcl in Hk. apply lookup_delete_Some in Hk as [Hne Hk].
    destruct (C3 k c' Hk) as [? ?]. rewrite Hid. split; [lia|done].
  - intros c' Hlt Hnone. rewrite Hlen in Hlt.
    destruct (decide (c' = c)) as [->|Hne]; [done|].
    rewrite Hoth by done. apply C4; [done|].
    rewrite Hid, Hcl in Hnone. rewrite lookup_delete_ne in Hnone; [done|].
    intros Heq. rewrite (C2 c' Hlt), (C2 c Hc) in Heq.
    apply client_id_of_inj in Heq. lia.
  - destruct C5 as [Hb Hi]. split.
    + intros cid l. rewrite He, Hl. apply Hb.
    + intros c1 c2 l. rewrite He. apply Hi.
  - intros cid l Hcl'. rewrite He in Hcl'. destruct (C6 cid l Hcl') as (c' & Hlt & ->).
    exists c'. rewrite Hid. split; [lia|done].
  - intros c' Hlt. rewrite Hid, Hcnt, Hlog. apply C7. lia.
  - intros c' Hlt. rewrite Hid. unfold t'. rewrite written_close_client. apply C8. lia.
  - intros c' Hlt. rewrite Hcnt. unfold t'. rewrite written_close_client. apply C9. lia.
  - intros c' Hlt Hopen. rewrite Hlen in Hlt.
    destruct (decide (c' = c)) as [->|Hne]; [by rewrite Href in Hopen|].
    rewrite Hcnt. unfold t'. rewrite written_close_client.
    rewrite Hoth in Hopen by done. by apply C10.
Qed.

Lemma consistent_close_all refs t :
  Forall (fun c => c < length (client_objs t)) refs -> consistent t ->
  consistent (foldl (fun t c => _close_client c t) t refs).
Proof.
  revert t. induction refs as [|r refs IH]; intros t Hb Hcons; [done|].
  apply Forall_cons in Hb as [Hr Hb]. cbn [foldl]. apply IH.
  - eapply Forall_impl; [exact Hb|]. intros x Hx. cbn beta.
    by destruct (close_client_same_connections r t) as (_ & -> & _).
  - by apply consistent_close.
Qed.

Lemma consistent_stop t : consistent t -> consistent (stop t).
Proof.
  intros Hcons. unfold stop. cbv zeta.
  set (t0 := if ping_task (with_running false t)
             then with_ping_task false (with_running false t) else with_running false t).
  assert (H0 : consistent t0).
  { eapply consistent_fields; [..|exact Hcons]; unfold t0; by case_match. }
  assert (Hc0 : clients t0 = clients t /\ client_objs t0 = client_objs t)
    by (unfold t0; by case_match).
  eapply (consistent_fields (foldl (fun t c => _close_client c t) t0 (client_refs t0)));
    try done.
  apply consistent_close_all; [|done].
  apply Forall_forall. intros x [k Hx]%client_refs_spec.
  by destruct (cons_registry t0 H0 k x Hx).
Qed.

Lemma registered_unfold sid t :
  client_counter (registered sid t) = client_counter t + 1 /\
  client_objs (registered sid t) =
    client_objs t ++ [new_client (client_id_of (client_counter t + 1)) sid (clock t)] /\
  clients (registered sid t) =
    <[client_id_of (client_counter t + 1) := length (client_objs t)]> (clients t) /\
  event_history (registered sid t) = event_history t /\
  lists (registered sid t) = lists t.
Proof. done. Qed.

Lemma consistent_no_history t k :
  consistent t -> client_counter t < k -> event_history t !! client_id_of k = None.
Proof.
  intros Hcons Hk. destruct (event_history t !! client_id_of k) as [l|] eqn:Hl; [|done].
  destruct (cons_keys t Hcons _ l Hl) as (c & Hc & Heq).
  rewrite (cons_ids t Hcons c Hc) in Heq. apply client_id_of_inj in Heq.
  pose proof (cons_counter t Hcons). lia.
Qed.

Lemma consistent_registered sid t : consistent t -> consistent (registered sid t).
Proof.
  intros Hcons. pose proof Hcons as [C1 C2 C3 C4 C5 C6 C7 C8 C9 C10].
  destruct (registered_unfold sid t) as (Hn & Ho & Hc & He & Hl).
  set (cid := client_id_of (client_counter t + 1)) in *.
  set (t1 := registered sid t) in *.
  assert (Hlen : length (client_objs t1) = S (length (client_objs t))).
  { rewrite Ho, length_app. cbn. lia. }
  assert (Hold : forall c, c < length (client_objs t) -> client_at t1 c = client_at t c).
  { intros c Hlt. unfold client_at. rewrite Ho. by rewrite lookup_total_app_l. }
  assert (Hnew : client_at t1 (length (client_objs t)) = new_client cid sid (clock t)).
  { unfold client_at. rewrite Ho. by rewrite lookup_total_app_r, Nat.sub_diag. }
  assert (Hlog : forall k, log_of t1 k = log_of t k).
  { intros k. by apply log_of_ext. }
  assert (Hcase : forall c, c < length (client_objs t1) ->
            c < length (client_objs t) \/ c = length (client_objs t)) by (intros; lia).
  assert (Hfresh : event_history t !! cid = None).
  { apply consistent_no_history; [done|lia]. }
  split.
  - lia.
  - intros c Hlt. destruct (Hcase c Hlt) as [Hlo| ->].
    + rewrite Hold by done. by apply C2.
    + rewrite Hnew. cbn. unfold cid. rewrite <- C1. f_equal. lia.
  - intros k c Hk. rewrite Hc in Hk. apply lookup_insert_Some in Hk as [[<- <-]|[Hne Hk]].
    + rewrite Hnew. split; [lia|done].
    + destruct (C3 k c Hk) as [Hlt Hid]. rewrite Hold by done. split; [lia|done].
  - intros c Hlt Hnone. destruct (Hcase c Hlt) as [Hlo| ->].
    + rewrite Hold in * by done. apply C4; [done|].
      rewrite Hc in Hnone. apply lookup_insert_None in Hnone as [Hnone _]. done.
    + rewrite Hnew in Hnone. cbn [client_id new_client] in Hnone. rewrite Hc in Hnone.
      by rewrite lookup_insert_eq in Hnone.
  - destruct C5 as [Hb Hi]. split.
    + intros k l. rewrite He, Hl. apply Hb.
    + intros c1 c2 l. rewrite He. apply Hi.
  - intros k l Hkl. rewrite He in Hkl. destruct (C6 k l Hkl) as (c & Hlt & ->).
    exists c. rewrite Hold by done. split; [lia|done].
  - intros c Hlt. rewrite Hlog. destruct (Hcase c Hlt) as [Hlo| ->].
    + rewrite Hold by done. by apply C7.
    + rewrite Hnew. cbn. unfold log_of. by rewrite Hfresh.
  - intros c Hlt. destruct (Hcase c Hlt) as [Hlo| ->].
    + rewrite Hold by done. by apply C8.
    + by rewrite Hnew.
  - intros c Hlt. destruct (Hcase c Hlt) as [Hlo| ->].
    + rewrite Hold by done. by apply C9.
    + by rewrite Hnew.
  - intros c Hlt Hopen. destruct (Hcase c Hlt) as [Hlo| ->].
    + rewrite Hold in * by done. by apply C10.
    + by rewrite Hnew.
Qed.

Lemma consistent_enqueue c item t : consistent t -> consistent (update_client c (enqueue item) t).
Proof. by apply consistent_update. Qed.

Section Invariant.

Context `{Library}.

Lemma consistent_send_message m t : consistent t -> consistent (send_message m t).
Proof.
  unfold send_message. case_bool_decide as Hd; [done|]. clear Hd. cbv zeta.
  generalize (client_refs t). intros refs. revert t.
  induction refs as [|c refs IH]; intros t Hcons; [done|].
  cbn [foldl]. apply IH. by apply consistent_enqueue.
Qed.

Lemma consistent_broadcast msgs t :
  consistent t -> consistent (foldl (fun t m => send_message m t) t msgs).
Proof.
  revert t. induction msgs as [|m msgs IH]; intros t Hcons; [done|].
  cbn [foldl]. apply IH. by apply consistent_send_message.
Qed.

Lemma consistent_service_item c t :
  c < length (client_objs t) -> consistent t -> consistent (snd (service_item c t)).
Proof.
  intros Hc Hcons. unfold service_item.
  destruct (queue (client_at t c)) as [|[ty d] rest]; [by apply consistent_enqueue|].
  set (t0 := update_client c (set_queue rest) t).
  assert (H0 : consistent t0) by (by apply consistent_update).
  assert (Hc0 : c < length (client_objs t0)) by (unfold t0; by rewrite length_update_client).
  destruct (String.eqb ty "ping").
  - unfold mbind, M_bind, modify, mret, M_ret.
    pose proof (consistent_send c "ping" (JObj [("timestamp", d)]) t0 Hc0 H0) as Hs.
    destruct (_send_sse_event c "ping" _ None t0) as [[[]|e|] t1]; cbn [snd] in *; try done.
    by apply consistent_update.
  - destruct (_ || _).
    + unfold mbind, M_bind, mret, M_ret.
      pose proof (consistent_send c ty d t0 Hc0 H0) as Hs.
      by destruct (_send_sse_event c ty d None t0) as [[[]|e|] t1].
    + by destruct (String.eqb ty "close").
Qed.

(** The opening of a stream on the connection just registered: there
    is nothing to replay, the initial messages are broadcast, and the
    [connected] event is delivered. *)
Lemma opening_registered sid req msgs t :
  consistent t ->
  let c := length (client_objs t) in
  let cid := client_id_of (client_counter t + 1) in
  let t2 := foldl (fun t m => send_message m t) (registered sid t) msgs in
  opening c cid req msgs (registered sid t) =
    _send_sse_event c "connected" (connected_payload cid) None t2.
Proof.
  intros Hcons. cbv zeta.
  unfold opening, mbind, M_bind, modify.
  assert (Hat : client_at (registered sid t) (length (client_objs t))
                = new_client (client_id_of (client_counter t + 1)) sid (clock t)).
  { unfold client_at, registered; cbn. by rewrite lookup_total_app_r, Nat.sub_diag. }
  assert (Hreplay : (if truthy (h_last_event_id req)
                     then _replay_events (length (client_objs t))
                            (default "" (h_last_event_id req))
                     else mret tt) (registered sid t) = (Returned tt, registered sid t)).
  { destruct (truthy _); [|done]. unfold _replay_events.
    rewrite Hat. cbn [client_id new_client].
    change (event_history (registered sid t)) with (event_history t).
    rewrite consistent_no_history; [done|done|lia]. }
  by rewrite Hreplay.
Qed.

Lemma consistent_initiate_sse req msgs sid init t :
  consistent t -> consistent (snd (_initiate_sse req msgs sid init t)).
Proof.
  intros Hcons.
  destruct (_validate_origin req) eqn:Ho.
  2:{ unfold _initiate_sse. by rewrite Ho. }
  rewrite initiate_sse_unfold by done. cbv zeta.
  set (p := if init && negb (truthy sid) then _ else _).
  assert (Hp : consistent (snd p) /\ client_objs (snd p) = client_objs t /\
               client_counter (snd p) = client_counter t).
  { unfold p. destruct (_ && _); [|done]. cbn [snd]. split; [|done].
    by eapply consistent_fields; [..|exact Hcons]. }
  destruct Hp as (Hp & Hpo & Hpn).
  pose proof (opening_registered (fst p) req msgs (snd p) Hp) as Hop. cbv zeta in Hop.
  rewrite Hpo, Hpn in Hop. rewrite Hop.
  set (t2 := foldl (fun t m => send_message m t) (registered (fst p) (snd p)) msgs).
  assert (H2 : consistent t2) by (by apply consistent_broadcast, consistent_registered).
  assert (Hc2 : length (client_objs t) < length (client_objs t2)).
  { destruct (broadcast_all_same_streams msgs (registered (fst p) (snd p)))
      as ((_ & Hl & _) & _). fold t2 in Hl. rewrite Hl.
    destruct (registered_unfold (fst p) (snd p)) as (_ & -> & _).
    rewrite length_app, Hpo. cbn. lia. }
  pose proof (consistent_send (length (client_objs t)) "connected"
                (connected_payload (client_id_of (client_counter t + 1))) t2 Hc2 H2) as H3.
  destruct (send_client (length (client_objs t)) "connected"
              (connected_payload (client_id_of (client_counter t + 1))) None t2 Hc2)
    as (Hl3 & _).
  destruct (_send_sse_event _ "connected" _ None t2) as [[[]|e|] t3]; cbn [fst snd] in *.
  - destruct (loop_continues _ t3); cbn [snd]; [done|].
    apply consistent_close; [lia|done].
  - apply consistent_close; [lia|done].
  - done.
Qed.

Lemma consistent_validate_session sid t :
  consistent t -> consistent (snd (_validate_session sid t)).
Proof.
  destruct (validate_session_tables sid t) as (_ & _ & Hc & Ho & _ & He & Hl & Hn & _).
  by apply consistent_fields.
Qed.

Lemma consistent_handle_sse req t : consistent t -> consistent (snd (_handle_sse req t)).
Proof.
  intros Hcons. unfold _handle_sse.
  destruct (negb (_validate_origin req)); [done|].
  destruct (negb (fst (_validate_protocol_version req))); [done|].
  set (p := if truthy (h_session_id req) then _ else _).
  assert (Hp : consistent (snd p)).
  { unfold p. destruct (truthy _); [by apply consistent_validate_session|done]. }
  destruct p as [ok t1]. cbn [snd] in Hp.
  destruct (negb ok); [done|].
  by apply consistent_initiate_sse.
Qed.

Lemma consistent_handle_post req t : consistent t -> consistent (snd (_handle_post req t)).
Proof.
  intros Hcons. unfold _handle_post.
  destruct (negb (_validate_origin req)); [done|].
  destruct (_validate_protocol_version req) as [valid ver].
  destruct (negb valid); [done|].
  destruct (negb (str_contains _ _)); [done|].
  destruct (body req) as [e|data]; [done|].
  set (p := if negb (is_initialize_body data) && truthy (h_session_id req) then _ else _).
  assert (Hp : consistent (snd p)).
  { unfold p. destruct (_ && _); [by apply consistent_validate_session|done]. }
  destruct p as [ok t1]. cbn [snd] in Hp.
  destruct (negb ok); [done|].
  destruct (classify_spec data t1) as (_ & Hst).
  destruct Hst as (_ & _ & Hc2 & Ho2 & _ & He2 & Hl2 & Hn2 & _).
  destruct (classify data t1) as [ms t2]. cbn [snd] in *.
  assert (H3 : consistent (count_messages (length ms) t2)).
  { eapply (consistent_fields t1); done. }
  cbv zeta.
  destruct (_ || _); [done|].
  destruct (str_contains _ _); [by apply consistent_initiate_sse|].
  destruct (_ && _); [|done].
  cbn [snd]. by eapply consistent_fields; [..|exact H3].
Qed.

Lemma step_consistent t t' : step t t' -> consistent t -> consistent t'.
Proof.
  intros Hstep Hcons. destruct Hstep.
  - by apply consistent_handle_post.
  - by apply consistent_handle_sse.
  - by apply consistent_service_item.
  - by apply consistent_close.
  - by apply consistent_send_message.
  - by apply consistent_enqueue.
  - by apply consistent_stop.
  - by eapply consistent_fields; [..|exact Hcons].
  - apply consistent_update; [|done]. intros o. by split_and!.
  - by eapply consistent_fields; [..|exact Hcons].
Qed.

Lemma reachable_consistent t : reachable t -> consistent t.
Proof.
  intros [cfg Hrtc]. revert t Hrtc. apply rtc_ind_r; [apply consistent_init|].
  intros t1 t2 _ Hstep IH. by eapply step_consistent.
Qed.

End Invariant.

(** ** All operations: batches and the sweeper *)

Lemma fan_out_grows item refs t : grows t (fan_out item refs t).
Proof. apply (fold_grows (fun t c => update_client c (enqueue item) t)). intros. apply enqueue_grows. Qed.

Lemma consistent_fan_out item refs t : consistent t -> consistent (fan_out item refs t).
Proof.
  revert t. induction refs as [|c refs IH]; intros t Hcons; [done|].
  unfold fan_out. cbn [foldl]. apply IH. by apply consistent_enqueue.
Qed.

Lemma ping_round_unfold t :
  ping_round t =
    foldl (fun t c => _close_client c t)
      (fan_out ("ping", JNum (clock t))
         (filter (fun c => is_stale (clock t) (client_at t c) = false) (client_refs t)) t)
      (filter (fun c => is_stale (clock t) (client_at t c) = true) (client_refs t)).
Proof. unfold ping_round. cbv zeta. by rewrite ping_scan. Qed.

Lemma ping_round_grows t : grows t (ping_round t).
Proof.
  rewrite ping_round_unfold.
  eapply grows_trans; [apply fan_out_grows|].
  apply (fold_grows (fun t c => _close_client c t)). intros. apply close_client_grows.
Qed.

Lemma ping_round_same_books t : same_books t (ping_round t).
Proof.
  rewrite ping_round_unfold.
  eapply same_books_trans.
  - by destruct (fan_out_tables ("ping", JNum (clock t))
                   (filter (fun c => is_stale (clock t) (client_at t c) = false) (client_refs t)) t)
      as (_ & _ & _ & _ & _ & ?).
  - apply (fold_same_books (fun t c => _close_client c t)). intros. apply close_client_same_books.
Qed.

Lemma consistent_ping_round t : consistent t -> consistent (ping_round t).
Proof.
  intros Hcons. rewrite ping_round_unfold.
  apply consistent_close_all; [|by apply consistent_fan_out].
  destruct (fan_out_tables ("ping", JNum (clock t))
              (filter (fun c => is_stale (clock t) (client_at t c) = false) (client_refs t)) t)
    as (_ & Hl & _). cbv zeta in Hl.
  apply Forall_forall. intros x [_ [k Hx]%client_refs_spec]%list_elem_of_filter.
  rewrite Hl. by destruct (cons_registry t Hcons k x Hx).
Qed.

Section Moves.

Context `{Library}.

Lemma send_batch_fan_out messages t :
  send_batch messages t = t \/
  send_batch messages t = fan_out ("batch", JStr (dump_batch messages)) (client_refs t) t.
Proof. unfold send_batch. destruct (_ || _); [by left|by right]. Qed.

Lemma send_batch_grows messages t : grows t (send_batch messages t).
Proof.
  destruct (send_batch_fan_out messages t) as [-> | ->];
    [apply grows_refl|apply fan_out_grows].
Qed.

Lemma send_batch_same_books messages t : same_books t (send_batch messages t).
Proof.
  destruct (send_batch_fan_out messages t) as [-> | ->]; [apply same_books_refl|].
  by destruct (fan_out_tables ("batch", JStr (dump_batch messages)) (client_refs t) t)
    as (_ & _ & _ & _ & _ & ?).
Qed.

Lemma consistent_send_batch messages t : consistent t -> consistent (send_batch messages t).
Proof.
  intros Hcons. destruct (send_batch_fan_out messages t) as [-> | ->];
    [done|by apply consistent_fan_out].
Qed.

Lemma move_grows t t' : move t t' -> grows t t'.
Proof.
  intros [t0 t1 Hstep|ms t0|t0].
  - by apply step_grows.
  - apply send_batch_grows.
  - apply ping_round_grows.
Qed.

Lemma move_consistent t t' : move t t' -> consistent t -> consistent t'.
Proof.
  intros [t0 t1 Hstep|ms t0|t0] Hcons.
  - by eapply step_consistent.
  - by apply consistent_send_batch.
  - by apply consistent_ping_round.
Qed.

Lemma attainable_consistent t : attainable t -> consistent t.
Proof.
  intros [cfg Hrtc]. revert t Hrtc. apply rtc_ind_r; [apply consistent_init|].
  intros t1 t2 _ Hmove IH. by eapply move_consistent.
Qed.

Lemma reachable_attainable t : reachable t -> attainable t.
Proof.
  intros [cfg Hrtc]. exists cfg. eapply rtc_subrel; [|exact Hrtc].
  intros t1 t2 Hstep. by apply move_step.
Qed.

Lemma attainable_move t t' : attainable t -> move t t' -> attainable t'.
Proof. intros [cfg Hrtc] Hmove. exists cfg. by eapply rtc_r. Qed.

End Moves.

(** ** Reachable states: registry, event ids and logs *)

Lemma consistent_registry_wf t : consistent t -> registry_wf t.
Proof.
  intros Hcons. split.
  - intros k c Hk. by destruct (cons_registry t Hcons k c Hk).
  - intros k c Hk. by destruct (cons_registry t Hcons k c Hk).
Qed.

Lemma fresh_reachable `{Library} : reachable fresh.
Proof. eapply reachable_step; [|apply step_start]. exists None. apply rtc_refl. Qed.

Lemma one_stream_reachable : reachable (H := mcp_types) one_stream.
Proof. eapply reachable_step; [apply fresh_reachable|apply step_get]. Qed.

Lemma initialized_reachable : reachable (H := mcp_types) initialized.
Proof. eapply reachable_step; [apply fresh_reachable|apply step_post]. Qed.

Section ReachableStates.

Context `{Library}.

(** X7.  Along every execution a connection only ages.  Between any
    state and a later one, each client object is still there, with the
    same connection id, the same session and the same session header
    on its stream; what was written to its stream is a prefix of what
    is written now; a stream that refused writes (closing, or
    finished) still refuses them and has not been written to since;
    and the event counter has not gone down. *)
Theorem connections_only_age (t t' : Transport) (c : nat) :
  rtc move t t' -> c < length (client_objs t) ->
  let o := client_at t c in
  let o' := client_at t' c in
  c < length (client_objs t') /\
  client_id o' = client_id o /\
  client_session o' = client_session o /\
  resp_session (response o') = resp_session (response o) /\
  written (response o) `prefix_of` written (response o') /\
  event_counter o <= event_counter o' /\
  (refuses_writes (response o) = true ->
     refuses_writes (response o') = true /\
     written (response o') = written (response o)).
Proof.
  intros Hrtc Hc.
  assert (Hg : grows t t').
  { clear Hc. induction Hrtc as [|t1 t2 t3 Hstep _ IH]; [apply grows_refl|].
    eapply grows_trans; [by apply move_grows|apply IH]. }
  destruct Hg as [Hl Ha]. destruct (Ha c Hc) as (Hi & Hs & Hr & Hp & Hf & Hcl & He & Hn).
  cbv zeta. split_and!; try done; try lia.
  intros Href. split; [|by apply Hf].
  apply refuses_writes_true. apply refuses_writes_true in Href. tauto.
Qed.


(** X19.  On every state the operations can produce, the k-th event
    written to the stream of a connection carries the event id
    "{client_id}_{k}": the ids on a stream start at 1, have no gap
    and no repetition.  No more events were written than ids were
    generated, and exactly as many as long as the stream accepts
    writes. *)
Theorem event_ids_on_a_stream_are_gapless (t : Transport) (c : nat) :
  attainable t -> c < length (client_objs t) ->
  let o := client_at t c in
  let w := written (response o) in
  (forall k e, w !! k = Some e -> ev_id e = event_id_of (client_id_of (S c)) (S k)) /\
  NoDup (map ev_id w) /\
  length w <= event_counter o /\
  (refuses_writes (response o) = false -> length w = event_counter o).
Proof.
  intros Hcons%attainable_consistent Hc. cbv zeta.
  pose proof (cons_written t Hcons c Hc) as Hw.
  rewrite (cons_ids t Hcons c Hc) in Hw.
  split_and!.
  - intros k e Hk.
    assert (Hm : map ev_id (written (response (client_at t c))) !! k = Some (ev_id e)).
    { change (map ev_id ?l) with (ev_id <$> l). by rewrite list_lookup_fmap, Hk. }
    rewrite Hw in Hm. unfold generated_ids in Hm.
    change (map ?f ?l) with (f <$> l) in Hm. rewrite list_lookup_fmap in Hm.
    destruct (seq 1 _ !! k) as [n|] eqn:Hn; [|done].
    apply lookup_seq in Hn as [-> _]. cbn in Hm. by injection Hm as ->.
  - rewrite Hw. unfold generated_ids. apply NoDup_fmap_2_strong; [|apply NoDup_seq].
    intros n1 n2 _ _ Heq. by apply event_id_of_inj in Heq as [_ ?].
  - by apply (cons_sent t Hcons).
  - by apply (cons_open t Hcons).
Qed.

(** X20.  On every state the operations can produce, the history
    table is well formed and no log exceeds 100 entries; the log of a
    connection holds, in order, the ids of the last 100 events
    generated for it, whether their write succeeded or not; and only
    connections that exist have a log. *)
Theorem log_holds_last_100_generated (t : Transport) :
  attainable t ->
  history_wf t /\
  (forall cid, length (log_of t cid) <= 100) /\
  (forall c, c < length (client_objs t) ->
     map fst (log_of t (client_id_of (S c))) =
       last100 (generated_ids (client_id_of (S c)) (event_counter (client_at t c)))) /\
  (forall cid, (forall c, c < length (client_objs t) -> cid <> client_id_of (S c)) ->
     log_of t cid = []).
Proof.
  intros Hcons%attainable_consistent.
  pose proof Hcons as [C1 C2 C3 C4 C5 C6 C7 C8 C9 C10].
  assert (Hnone : forall cid,
            (forall c, c < length (client_objs t) -> cid <> client_id_of (S c)) ->
            log_of t cid = []).
  { intros cid Hno. unfold log_of.
    destruct (event_history t !! cid) as [l|] eqn:Hl; [|done].
    destruct (C6 cid l Hl) as (c & Hlt & ->). destruct (Hno c Hlt). by apply C2. }
  split_and!; try done.
  - intros cid.
    destruct (event_history t !! cid) as [l|] eqn:Hl.
    + destruct (C6 cid l Hl) as (c & Hlt & ->).
      rewrite <- (length_map fst), (C7 c Hlt). apply last100_length.
    + unfold log_of. rewrite Hl. cbn. lia.
  - intros c Hlt. rewrite <- (C2 c Hlt). by apply C7.
Qed.

End ReachableStates.


(** The ten events of the reconnect scenario. *)
Lemma event_ids_on_a_stream_are_gapless_witness :
  NoDup (map ev_id (written (response (client_at disconnected 0)))) /\
  length (written (response (client_at disconnected 0))) <= 10.
Proof.
  destruct (event_ids_on_a_stream_are_gapless (H := mcp_types) disconnected 0
              (reachable_attainable _ disconnected_reachable)) as (_ & Hnd & Hle & _).
  - vm_compute. lia.
  - split; [exact Hnd|exact Hle].
Defined.

(** The log of the reconnect scenario. *)
Lemma log_holds_last_100_generated_witness :
  history_wf disconnected /\ length (log_of disconnected "client_1") <= 100.
Proof.
  destruct (log_holds_last_100_generated (H := mcp_types) disconnected
              (reachable_attainable _ disconnected_reachable))
    as (Hwf & Hle & _).
  split; [exact Hwf|apply Hle].
Defined.

(** ** A POST that opens a stream broadcasts *)

Lemma close_client_queue c t c' :
  queue (client_at (_close_client c t) c') = queue (client_at t c').
Proof.
  destruct (decide (c' = c)) as [->|Hne]; [|by rewrite close_client_other].
  unfold _close_client. cbv zeta.
  set (t1 := match clients t !! _ with Some _ => _ | None => t end).
  assert (H2 : client_objs t1 = client_objs t) by (unfold t1; by case_match).
  assert (H4 : client_at t1 c = client_at t c) by (unfold client_at; by rewrite H2).
  destruct (negb _); [|by rewrite H4].
  unfold client_at, update_client; simpl. rewrite list_lookup_total_alter.
  case_decide as Hd; [|by rewrite H2]. simpl. by rewrite H2.
Qed.

Section Echo.

Context `{Library}.

Lemma send_message_queue m t :
  registry_wf t ->
  registry_wf (send_message m t) /\
  clients (send_message m t) = clients t /\
  length (client_objs (send_message m t)) = length (client_objs t) /\
  (forall k c, clients t !! k = Some c ->
     queue (client_at (send_message m t) c) = queue (client_at t c) ++ [message_item m]).
Proof.
  intros Hwf. unfold send_message.
  case_bool_decide as Hemp.
  { split_and!; try done. intros k c Hk. by rewrite Hemp, lookup_empty in Hk. }
  cbv zeta. change (foldl _ t (client_refs t))
    with (fan_out (message_item m) (client_refs t) t).
  destruct (fan_out_registered (message_item m) t Hwf) as [Hin Hout].
  destruct (fan_out_tables (message_item m) (client_refs t) t) as (Hc & Hl & _).
  cbv zeta in *.
  assert (Hid : forall c, client_id (client_at (fan_out (message_item m) (client_refs t) t) c)
                          = client_id (client_at t c)).
  { intros c. destruct (send_message_same_streams m t) as ((_ & _ & Hids & _) & _).
    unfold send_message in Hids. rewrite bool_decide_eq_false_2 in Hids by done.
    apply Hids. }
  split_and!; try done.
  - destruct Hwf as [Hk Hb]. split.
    + intros k c Hkc. rewrite Hc in Hkc. cbn beta. rewrite Hid. by apply (Hk k c).
    + intros k c Hkc. rewrite Hc in Hkc. cbn beta. rewrite Hl. by apply (Hb k c).
  - intros k c Hk. by rewrite (Hin k c Hk).
Qed.

Lemma broadcast_queue msgs t :
  registry_wf t ->
  let t' := foldl (fun t m => send_message m t) t msgs in
  length (client_objs t') = length (client_objs t) /\
  forall k c, clients t !! k = Some c ->
    queue (client_at t' c) = queue (client_at t c) ++ map message_item msgs.
Proof.
  revert t. induction msgs as [|m msgs IH]; intros t Hwf; cbv zeta.
  { split; [done|]. intros. cbn. by rewrite app_nil_r. }
  cbn [foldl map].
  destruct (send_message_queue m t Hwf) as (Hwf1 & Hc1 & Hl1 & Hq1).
  destruct (IH (send_message m t) Hwf1) as [Hl2 Hq2]. cbv zeta in *.
  split; [congruence|].
  intros k c Hk. rewrite (Hq2 k c) by (by rewrite Hc1).
  rewrite (Hq1 k c Hk), <- app_assoc. done.
Qed.

(** X21.  A POST that opens a stream broadcasts its messages.  On
    every state the operations can produce, when a POST passes the
    gates, carries a request and accepts an event stream, each message
    kept from its body is queued, in order, for EVERY connection that
    was registered before, and for the new connection as well; the new
    stream itself has been sent the [connected] event only. *)
Theorem post_stream_is_broadcast (req : Request) (data : json) (t : Transport) :
  attainable t ->
  passes_gates req data t ->
  existsb is_JSONRPCRequest (kept data) = true ->
  str_contains "text/event-stream" (default "" (h_accept req)) = true ->
  let new := length (client_objs t) in
  let items := map message_item (kept data) in
  exists t',
    _handle_post req t = (Returned (Streaming new), t') /\
    (forall k c, clients t !! k = Some c ->
       queue (client_at t' c) = queue (client_at t c) ++ items) /\
    queue (client_at t' new) = items /\
    written (response (client_at t' new)) =
      [connected_event (client_id_of (client_counter t + 1)) 1].
Proof.
  intros Hcons%attainable_consistent Hg Hreq Hacc. cbv zeta.
  rewrite (handle_post_gated req data t Hg). cbv zeta.
  rewrite (request_excludes_pure _ Hreq), Hacc.
  destruct (session_gate_tables req data t) as (Hc1 & Ho1 & _ & He1 & Hl1 & Hn1 & _).
  cbv zeta in *.
  set (t1 := snd (session_gate req data t)) in *.
  destruct (classify_spec data t1) as (_ & Hst).
  destruct Hst as (_ & _ & Hc2 & Ho2 & _ & He2 & Hl2 & Hn2 & _).
  set (t2 := count_messages (length (kept data)) (snd (classify data t1))).
  assert (Hf2 : clients t2 = clients t /\ client_objs t2 = client_objs t /\
                event_history t2 = event_history t /\ lists t2 = lists t /\
                client_counter t2 = client_counter t).
  { unfold t2. cbn. by rewrite Hc2, Ho2, He2, Hl2, Hn2. }
  destruct Hf2 as (Hc & Ho & He & Hl & Hn).
  assert (Hcons2 : consistent t2) by (by eapply consistent_fields; [..|exact Hcons]).
  destruct Hg as (Horigin & _).
  rewrite initiate_sse_unfold by done. cbv zeta.
  set (p := if is_initialize_body data && negb (truthy (h_session_id req)) then _ else _).
  assert (Hp : consistent (snd p) /\ client_objs (snd p) = client_objs t /\
               client_counter (snd p) = client_counter t /\ clients (snd p) = clients t).
  { unfold p. destruct (_ && _); [|done]. cbn [snd]. split; [|done].
    by eapply consistent_fields; [..|exact Hcons2]. }
  destruct Hp as (Hp & Hpo & Hpn & Hpc).
  rewrite Ho, Hn.
  pose proof (opening_registered (fst p) req (kept data) (snd p) Hp) as Hop.
  cbv zeta in Hop. rewrite Hpo, Hpn in Hop. rewrite Hop. clear Hop.
  set (new := length (client_objs t)).
  set (cid := client_id_of (client_counter t + 1)).
  set (r0 := registered (fst p) (snd p)).
  destruct (registered_unfold (fst p) (snd p)) as (_ & Hro & Hrc & _).
  fold r0 in Hro, Hrc. rewrite Hpo, Hpn, Hpc in *. fold new cid in Hrc.
  assert (Hr0 : consistent r0) by (by apply consistent_registered).
  assert (Hold : forall c, c < new -> client_at r0 c = client_at t c).
  { intros c Hlt. unfold client_at. rewrite Hro. by rewrite lookup_total_app_l. }
  assert (Hnew : client_at r0 new = new_client cid (fst p) (clock (snd p))).
  { unfold client_at. rewrite Hro. by rewrite lookup_total_app_r, Nat.sub_diag. }
  destruct (broadcast_queue (kept data) r0 (consistent_registry_wf r0 Hr0)) as [Hlb Hqb].
  cbv zeta in *.
  set (tb := foldl (fun t m => send_message m t) r0 (kept data)) in *.
  assert (Hcb : new < length (client_objs tb)).
  { rewrite Hlb, Hro, length_app. cbn. unfold new. lia. }
  destruct (broadcast_all_same_streams (kept data) r0) as (_ & _ & _ & _ & Hresp).
  fold tb in Hresp. destruct (Hresp new) as [Hrb Hnb]. rewrite Hnew in Hrb, Hnb.
  cbn [response event_counter new_client] in Hrb, Hnb.
  assert (Hidb : client_id (client_at tb new) = cid).
  { destruct (broadcast_all_same_streams (kept data) r0) as ((_ & _ & Hids & _) & _).
    fold tb in Hids. by rewrite Hids, Hnew. }
  destruct (send_client new "connected" (connected_payload cid) None tb Hcb)
    as (_ & _ & _ & _ & _ & Hok & _).
  cbv zeta in Hok. destruct Hok as [Hret Hw]; [by rewrite Hrb|].
  assert (Hq3 : forall c, queue (client_at (snd (_send_sse_event new "connected"
                    (connected_payload cid) None tb)) c) = queue (client_at tb c)).
  { intros c. by destruct (send_keeps new "connected" (connected_payload cid) None tb c). }
  destruct (_send_sse_event new "connected" (connected_payload cid) None tb) as [o t3].
  cbn [fst snd] in *. subst o.
  assert (Hqold : forall k c, clients t !! k = Some c ->
            queue (client_at t3 c) = queue (client_at t c) ++ map message_item (kept data)).
  { intros k c Hk. destruct (cons_registry t Hcons k c Hk) as [Hlt Hid].
    rewrite Hq3, (Hqb k c), Hold; [done|done|].
    rewrite Hrc, lookup_insert_ne; [done|].
    intros <-. rewrite (cons_ids t Hcons c Hlt) in Hid. unfold cid in Hid.
    apply client_id_of_inj in Hid. pose proof (cons_counter t Hcons). lia. }
  assert (Hqnew : queue (client_at t3 new) = map message_item (kept data)).
  { rewrite Hq3, (Hqb cid new), Hnew; [done|]. rewrite Hrc. apply lookup_insert_eq. }
  assert (Hw3 : written (response (client_at t3 new)) = [connected_event cid 1]).
  { rewrite Hw, Hrb. cbn [written app sent_id]. by rewrite Hidb, Hnb. }
  destruct (loop_continues new t3).
  - exists t3. by split_and!.
  - exists (_close_client new t3). split_and!; try done.
    + intros k c Hk. rewrite close_client_queue. by apply (Hqold k c).
    + by rewrite close_client_queue.
    + by rewrite written_close_client.
Qed.

End Echo.

(** ** Initialize, the classifier, and answers *)

Section Initialize.

Context `{Library}.

Lemma initialize_passes_gates req data t :
  well_formed_post req data -> is_initialize_body data = true -> passes_gates req data t.
Proof.
  intros (Ho & Hv & Hct & Hb) Hi. split_and!; try done.
  unfold session_gate. by rewrite Hi.
Qed.

(** The client object of the stream [_initiate_sse] opens still has
    the session it was created with. *)
Lemma initiate_sse_session req msgs sid init t c t' :
  _validate_origin req = true ->
  _initiate_sse req msgs sid init t = (Returned (Streaming c), t') ->
  let s := if init && negb (truthy sid) then Some (fst (_create_session t)) else sid in
  c = length (client_objs t) /\
  client_session (client_at t' c) = s /\
  resp_session (response (client_at t' c)) = (if truthy s then s else None).
Proof.
  intros Ho. rewrite initiate_sse_unfold by done. cbv zeta.
  set (p := if init && negb (truthy sid) then _ else _).
  assert (Hs : fst p = (if init && negb (truthy sid)
                        then Some (fst (_create_session t)) else sid) /\
               client_objs (snd p) = client_objs t).
  { unfold p. by destruct (_ && _). }
  destruct Hs as [Hs Hpo]. rewrite <- Hs.
  set (r0 := registered (fst p) (snd p)).
  assert (Hnew : client_at r0 (length (client_objs t))
                 = new_client (client_id_of (client_counter (snd p) + 1)) (fst p)
                     (clock (snd p))).
  { unfold client_at, r0, registered; cbn. rewrite <- Hpo.
    by rewrite lookup_total_app_r, Nat.sub_diag. }
  assert (Hlt : length (client_objs t) < length (client_objs r0)).
  { unfold r0, registered; cbn. rewrite length_app, Hpo. cbn. lia. }
  pose proof (opening_grows (length (client_objs t))
                (client_id_of (client_counter t + 1)) req msgs r0) as Hg.
  assert (Hfin : forall t1, grows r0 t1 ->
            client_session (client_at t1 (length (client_objs t))) = fst p /\
            resp_session (response (client_at t1 (length (client_objs t))))
              = (if truthy (fst p) then fst p else None)).
  { intros t1 [_ Ha]. destruct (Ha _ Hlt) as (_ & Hcs & Hrs & _).
    rewrite Hcs, Hrs, Hnew. done. }
  destruct (opening _ _ req msgs r0) as [[[]|e|] t1]; cbn [fst snd] in *.
  - destruct (loop_continues _ t1); intros [= <- <-].
    + split; [done|]. by apply Hfin.
    + split; [done|]. apply Hfin. eapply grows_trans; [exact Hg|apply close_client_grows].
  - intros [= <- <-]. split; [done|]. apply Hfin.
    eapply grows_trans; [exact Hg|apply close_client_grows].
  - done.
Qed.

(** X22.  The session id of an initialize request is taken over
    unchecked.  A well-formed POST whose body is an initialize request
    and whose session header has a non-empty value is never answered
    404, whether or not that value names a session; no session is
    created and no identifier is drawn; and if a stream is opened, the
    value becomes the session of the new connection and the
    Mcp-Session-Id header of its stream. *)
Theorem initialize_adopts_client_session_id (req : Request) (data : json) (s : string)
    (t : Transport) :
  well_formed_post req data -> is_initialize_body data = true ->
  h_session_id req = Some s -> s <> "" ->
  exists r t',
    _handle_post req t = (Returned r, t') /\
    status_of r <> 404 /\
    sessions t' = sessions t /\ uuids_drawn t' = uuids_drawn t /\
    (forall c, r = Streaming c ->
       client_session (client_at t' c) = Some s /\
       resp_session (response (client_at t' c)) = Some s).
Proof.
  intros Hwf Hi Hs Hne.
  pose proof (initialize_passes_gates req data t Hwf Hi) as Hg.
  rewrite (handle_post_gated req data t Hg). cbv zeta.
  assert (Hgate : session_gate req data t = (true, t)).
  { unfold session_gate. by rewrite Hi. }
  rewrite Hgate. cbn [snd].
  destruct (classify_spec data t) as (_ & Hst).
  destruct Hst as (_ & _ & _ & _ & Hs2 & _ & _ & _ & Hu2).
  set (t2 := count_messages (length (kept data)) (snd (classify data t))).
  assert (Hf2 : sessions t2 = sessions t /\ uuids_drawn t2 = uuids_drawn t).
  { unfold t2. cbn. by rewrite Hs2, Hu2. }
  destruct Hf2 as [Hss Huu].
  assert (Hmint : is_initialize_body data && negb (truthy (h_session_id req)) = false).
  { rewrite Hs, truthy_Some by done. by rewrite andb_false_r. }
  destruct (_ || _).
  { eexists _, _. split; [reflexivity|]. by split_and!. }
  destruct Hwf as (Ho & _).
  destruct (str_contains _ _).
  - destruct (initiate_sse_streams req (kept data) (h_session_id req)
                (is_initialize_body data) t2 Ho) as (c & t' & Hrun).
    pose proof (initiate_sse_same_books req (kept data) (h_session_id req)
                  (is_initialize_body data) t2 Hmint) as Hb.
    rewrite Hrun in Hb. cbn [snd] in Hb.
    destruct Hb as (_ & _ & _ & _ & Hsb & _ & _ & Hub).
    destruct (initiate_sse_session req (kept data) (h_session_id req)
                (is_initialize_body data) t2 c t' Ho Hrun) as (_ & Hcs & Hrs).
    rewrite Hmint in Hcs, Hrs. rewrite Hs in Hcs, Hrs. rewrite truthy_Some in Hrs by done.
    rewrite Hrun. exists (Streaming c), t'. split_and!; try done; try congruence.
    by intros c' [= <-].
  - rewrite Hmint. eexists _, _. split; [reflexivity|]. by split_and!.
Qed.

(** X23.  The session an initialize request is given is good for the
    requests that follow.  When a well-formed initialize POST without
    a session id opens a stream, a session is created under the next
    identifier drawn, that identifier is the Mcp-Session-Id header of
    the stream, and a later POST or GET that names it passes the
    session check. *)
Theorem initialize_session_is_accepted_afterwards (req : Request) (data : json)
    (t : Transport) (c : nat) (t' : Transport) :
  well_formed_post req data -> is_initialize_body data = true ->
  truthy (h_session_id req) = false ->
  _handle_post req t = (Returned (Streaming c), t') ->
  let sid := uuid4 (uuids_drawn t) in
  sid <> "" ->
  resp_session (response (client_at t' c)) = Some sid /\
  client_session (client_at t' c) = Some sid /\
  is_Some (sessions t' !! sid) /\
  uuids_drawn t' = S (uuids_drawn t) /\
  fst (_validate_session (Some sid) t') = true.
Proof.
  intros Hwf Hi Hs Hrun sid Hne.
  pose proof (initialize_passes_gates req data t Hwf Hi) as Hg.
  rewrite (handle_post_gated req data t Hg) in Hrun. cbv zeta in Hrun.
  assert (Hgate : session_gate req data t = (true, t)).
  { unfold session_gate. by rewrite Hi. }
  rewrite Hgate in Hrun. cbn [snd] in Hrun.
  destruct (classify_spec data t) as (_ & Hst).
  destruct Hst as (_ & _ & _ & _ & Hs2 & _ & _ & _ & Hu2).
  set (t2 := count_messages (length (kept data)) (snd (classify data t))) in *.
  assert (Hf2 : sessions t2 = sessions t /\ uuids_drawn t2 = uuids_drawn t).
  { unfold t2. cbn. by rewrite Hs2, Hu2. }
  destruct Hf2 as [Hss Huu].
  assert (Hmint : is_initialize_body data && negb (truthy (h_session_id req)) = true).
  { by rewrite Hi, Hs. }
  destruct (_ || _); [done|].
  destruct Hwf as (Ho & _).
  destruct (str_contains _ _).
  2:{ rewrite Hmint in Hrun. by destruct (_create_session t2). }
  pose proof (initiate_sse_books req (kept data) (h_session_id req)
                (is_initialize_body data) t2 Ho) as Hb.
  rewrite Hmint, Hrun in Hb. cbn [snd] in Hb.
  destruct Hb as (_ & _ & _ & _ & Hsb & _ & _ & Hub).
  destruct (initiate_sse_session req (kept data) (h_session_id req)
              (is_initialize_body data) t2 c t' Ho Hrun) as (_ & Hcs & Hrs).
  rewrite Hmint in Hcs, Hrs.
  assert (Hsid : fst (_create_session t2) = sid).
  { unfold _create_session, sid. cbn [fst]. by rewrite Huu. }
  rewrite Hsid in Hcs, Hrs. rewrite truthy_Some in Hrs by done.
  assert (Hin : is_Some (sessions t' !! sid)).
  { rewrite Hsb. unfold _create_session. cbn [snd]. rewrite Huu. fold sid.
    unfold with_sessions. cbn [sessions]. rewrite lookup_insert_eq. eauto. }
  split_and!; try done.
  - rewrite Hub. unfold _create_session. cbn [snd]. by rewrite <- Huu.
  - destruct Hin as [info Hinfo]. by rewrite (validate_session_known sid info).
Qed.

(** X24.  What the classifier accepts.  [_parse_message] yields a
    message only for a JSON object: a request when the object has the
    keys method and id and validates as one, a notification when it
    has method but no id, a response when it has no method but result
    or error.  The key method takes precedence over result and error.
    The transport is then left as it was.  Arrays, strings and scalars
    never yield a message. *)
Theorem classifier_accepts_objects_only (data : json) (t : Transport) (m : JSONRPCMessage) :
  fst (_parse_message data t) = Some m <->
  exists fields,
    data = JObj fields /\
    ((obj_has "method" fields = true /\ obj_has "id" fields = true /\
      request_valid fields = true /\ m = JSONRPCRequest fields) \/
     (obj_has "method" fields = true /\ obj_has "id" fields = false /\
      notification_valid fields = true /\ m = JSONRPCNotification fields) \/
     (obj_has "method" fields = false /\
      (obj_has "result" fields = true \/ obj_has "error" fields = true) /\
      response_valid fields = true /\ m = JSONRPCResponse fields)).
Proof.
  split.
  - unfold _parse_message.
    destruct data as [|b|n|s|items|fields]; cbn [py_in]; try done.
    + destruct (str_contains "method" s); [destruct (str_contains "id" s)|]; cbn; try done.
      destruct (str_contains "result" s); cbn; try done.
      by destruct (str_contains "error" s).
    + destruct (existsb _ items); [destruct (existsb _ items)|]; cbn; try done.
      destruct (existsb _ items); cbn; try done.
      by destruct (existsb _ items).
    + intros Hm. exists fields. split; [done|].
      destruct (obj_has "method" fields).
      * destruct (obj_has "id" fields); cbn [construct] in Hm.
        -- destruct (request_valid fields) eqn:Hv; [|done]. left.
           cbn in Hm. injection Hm as <-. done.
        -- destruct (notification_valid fields) eqn:Hv; [|done]. right; left.
           cbn in Hm. injection Hm as <-. done.
      * right; right.
        destruct (obj_has "result" fields); cbn [construct] in Hm.
        -- destruct (response_valid fields) eqn:Hv; [|done].
           cbn in Hm. injection Hm as <-. split_and!; eauto.
        -- destruct (obj_has "error" fields); cbn [construct] in Hm; [|done].
           destruct (response_valid fields) eqn:Hv; [|done].
           cbn in Hm. injection Hm as <-. split_and!; eauto.
  - intros (fields & -> & [(Hm & Hi & Hv & ->)|[(Hm & Hi & Hv & ->)|(Hm & Hr & Hv & ->)]]);
      unfold _parse_message; cbn [py_in construct]; rewrite Hm; try rewrite Hi;
      try (by rewrite Hv).
    destruct Hr as [Hr|Hr].
    + by rewrite Hr, Hv.
    + destruct (obj_has "result" fields); by rewrite ?Hr, Hv.
Qed.


End Initialize.

(** ** Worked examples *)

Lemma registry_wf_check t :
  bool_decide (clients_keyed t) = true ->
  bool_decide (map_Forall (fun _ c => c < length (client_objs t)) (clients t)) = true ->
  registry_wf t.
Proof. intros H1%bool_decide_eq_true H2%bool_decide_eq_true. by split. Qed.

(** The first session of a fresh transport. *)
Lemma created_session_validates_witness :
  fst (_create_session (H := mcp_types) fresh) = "session-0" /\
  fst (_validate_session (Some "session-0") (snd (_create_session (H := mcp_types) fresh)))
    = true.
Proof.
  split; [reflexivity|].
  destruct (created_session_validates (H := mcp_types) fresh) as (_ & _ & Hv & _).
  - vm_compute. discriminate.
  - exact Hv.
Defined.

(** Created, validated, terminated: the table is empty again. *)
Lemma session_life_cycle_witness :
  sessions (_terminate_session "session-0"
             (snd (_validate_session (Some "session-0")
                (snd (_create_session (H := mcp_types) fresh))))) = sessions fresh.
Proof.
  destruct (session_life_cycle (H := mcp_types) fresh) as (_ & Hs & _).
  - vm_compute. discriminate.
  - reflexivity.
  - exact Hs.
Defined.

(** A stream before and after [stop]. *)
Lemma connections_only_age_witness :
  client_id (client_at (stop one_stream) 0) = client_id (client_at one_stream 0) /\
  written (response (client_at one_stream 0))
    `prefix_of` written (response (client_at (stop one_stream) 0)).
Proof.
  destruct (connections_only_age (H := mcp_types) one_stream (stop one_stream) 0)
    as (_ & Hid & _ & _ & Hp & _).
  - apply rtc_once. apply move_step. apply step_stop.
  - vm_compute. lia.
  - split; [exact Hid|exact Hp].
Defined.

(** A batch of a notification, a number, an object that fails validation and an
    object of unknown format: one message, one batch, two errors. *)
Lemma post_counters_witness :
  let req := post_mcp None None "application/json"
               (JArr [notification "ping"; JNum 3; JObj [("method", JNum 1)]; JObj []]) in
  stats (snd (_handle_post (H := mcp_types) req fresh))
    = {| messages_received := 1; batches_received := 1; errors := 2 |}.
Proof.
  cbv zeta.
  destruct (post_counters (H := mcp_types)
              (post_mcp None None "application/json"
                 (JArr [notification "ping"; JNum 3; JObj [("method", JNum 1)]; JObj []]))
              (JArr [notification "ping"; JNum 3; JObj [("method", JNum 1)]; JObj []])
              fresh) as ((Hm & Hb & He) & _).
  - repeat split; reflexivity.
  - cbv zeta in *.
    destruct (stats _) as [m b e]. cbn [messages_received batches_received errors] in *.
    rewrite Hm, Hb, He. reflexivity.
Defined.

(** An initialize request that asks for JSON. *)
Lemma post_json_acknowledgement_witness :
  exists t',
    _handle_post (H := mcp_types)
      (post_mcp None None "application/json" initialize_request) fresh
    = (Returned (JsonReceived 1 (Some "session-0")), t') /\
    client_objs t' = [].
Proof.
  destruct (post_json_acknowledgement (H := mcp_types)
              (post_mcp None None "application/json" initialize_request)
              initialize_request fresh) as (t' & Hrun & _ & Ho & _).
  - repeat split; reflexivity.
  - reflexivity.
  - reflexivity.
  - exists t'. split; [exact Hrun|exact Ho].
Defined.

Lemma two_streams_registry : registry_wf two_streams.
Proof. apply registry_wf_check; vm_compute; reflexivity. Qed.

(** A tick for each of two connections. *)
Lemma send_message_reaches_every_client_witness :
  let m := JSONRPCNotification [("jsonrpc", JStr "2.0"); ("method", JStr "tick")] in
  queue (client_at (send_message (H := mcp_types) m two_streams) 0)
    = queue (client_at two_streams 0) ++ [("message", JStr "tick")] /\
  queue (client_at (send_message (H := mcp_types) m two_streams) 1)
    = queue (client_at two_streams 1) ++ [("message", JStr "tick")].
Proof.
  cbv zeta.
  destruct (send_message_reaches_every_client (H := mcp_types)
              (JSONRPCNotification [("jsonrpc", JStr "2.0"); ("method", JStr "tick")])
              two_streams two_streams_registry) as (Hin & _).
  split.
  - apply (Hin "client_1" 0). apply (bool_decide_unpack _). vm_compute. exact I.
  - apply (Hin "client_2" 1). apply (bool_decide_unpack _). vm_compute. exact I.
Defined.

(** A batch of two for the second of two connections; an empty batch. *)
Lemma send_batch_queues_one_item_witness :
  let ms := [JSONRPCNotification [("jsonrpc", JStr "2.0"); ("method", JStr "a")];
             JSONRPCNotification [("jsonrpc", JStr "2.0"); ("method", JStr "b")]] in
  queue (client_at (send_batch (H := mcp_types) ms two_streams) 1)
    = queue (client_at two_streams 1) ++ [("batch", JStr "[a,b]")] /\
  send_batch (H := mcp_types) [] two_streams = two_streams.
Proof.
  cbv zeta.
  destruct (send_batch_queues_one_item (H := mcp_types)
              [JSONRPCNotification [("jsonrpc", JStr "2.0"); ("method", JStr "a")];
               JSONRPCNotification [("jsonrpc", JStr "2.0"); ("method", JStr "b")]]
              two_streams two_streams_registry) as (Hin & _).
  split; [|reflexivity].
  destruct (Hin ltac:(discriminate) "client_2" 1) as (Hq & _).
  - apply (bool_decide_unpack _). vm_compute. exact I.
  - exact Hq.
Defined.

(** A message for a connection whose peer is gone. *)
Lemma failed_write_is_still_logged_witness :
  fst (_send_sse_event 0 "message" (JStr "lost") None peer_gone)
    = Raised "Cannot write to closing transport" /\
  written (response (client_at (snd (_send_sse_event 0 "message" (JStr "lost") None peer_gone)) 0))
    = written (response (client_at peer_gone 0)) /\
  map fst (log_of (snd (_send_sse_event 0 "message" (JStr "lost") None peer_gone)) "client_1")
    = ["client_1_1"; "client_1_2"].
Proof.
  destruct (failed_write_is_still_logged peer_gone 0 "message" (JStr "lost"))
    as (Hr & Hw & _ & Hlog & _).
  - vm_compute. lia.
  - apply history_wf_check; apply (bool_decide_unpack _); vm_compute; exact I.
  - reflexivity.
  - split; [exact Hr|]. split; [exact Hw|]. cbv zeta in Hlog.
    change (client_id (client_at peer_gone 0)) with "client_1" in Hlog.
    rewrite Hlog. reflexivity.
Defined.




(** A tools/list request posted while another connection is open. *)
Lemma post_stream_is_broadcast_witness :
  exists t',
    _handle_post (H := mcp_types)
      (post_mcp None None "text/event-stream" (request 7 "tools/list")) one_stream
    = (Returned (Streaming 1), t') /\
    queue (client_at t' 0) = [("message", JStr "tools/list")] /\
    queue (client_at t' 1) = [("message", JStr "tools/list")].
Proof.
  destruct (post_stream_is_broadcast (H := mcp_types)
              (post_mcp None None "text/event-stream" (request 7 "tools/list"))
              (request 7 "tools/list") one_stream) as (t' & Hrun & Hold & Hnew & _).
  - exact (reachable_attainable _ one_stream_reachable).
  - repeat split; reflexivity.
  - reflexivity.
  - reflexivity.
  - exists t'. split; [exact Hrun|]. split; [|exact Hnew].
    apply (Hold "client_1" 0). apply (bool_decide_unpack _). vm_compute. exact I.
Defined.

(** An initialize request with a session id nobody issued. *)
Lemma initialize_adopts_client_session_id_witness :
  sessions fresh !! "made-up" = None /\
  exists r t',
    _handle_post (H := mcp_types)
      (post_mcp None (Some "made-up") "text/event-stream" initialize_request) fresh
    = (Returned r, t') /\
    status_of r <> 404 /\ sessions t' = sessions fresh.
Proof.
  split; [reflexivity|].
  destruct (initialize_adopts_client_session_id (H := mcp_types)
              (post_mcp None (Some "made-up") "text/event-stream" initialize_request)
              initialize_request "made-up" fresh)
    as (r & t' & Hrun & Hst & Hs & _).
  - repeat split; reflexivity.
  - reflexivity.
  - reflexivity.
  - discriminate.
  - exists r, t'. split; [exact Hrun|]. split; [exact Hst|exact Hs].
Defined.

(** The session of the initialize scenario. *)
Lemma initialize_session_is_accepted_afterwards_witness :
  resp_session (response (client_at initialized 0)) = Some "session-0" /\
  fst (_validate_session (Some "session-0") initialized) = true.
Proof.
  destruct (initialize_session_is_accepted_afterwards (H := mcp_types)
              (post_mcp None None "text/event-stream" initialize_request)
              initialize_request fresh 0 initialized) as (Hr & _ & _ & _ & Hv).
  - repeat split; reflexivity.
  - reflexivity.
  - reflexivity.
  - vm_compute. reflexivity.
  - vm_compute. discriminate.
  - split; [exact Hr|exact Hv].
Defined.

(** ** Sessions never expire; event ids; a stopped transport; delivery *)

Lemma same_books_sessions t t' : same_books t t' -> sessions t' = sessions t.
Proof. by intros (_ & _ & _ & _ & ? & _). Qed.

Section Sessions.

Context `{Library}.

Lemma service_item_same_books c t : same_books t (snd (service_item c t)).
Proof.
  unfold service_item.
  destruct (queue (client_at t c)) as [|[ty d] rest]; [apply update_client_same_books|].
  set (t0 := update_client c (set_queue rest) t).
  assert (H0 : same_books t t0) by apply update_client_same_books.
  destruct (String.eqb ty "ping").
  - unfold mbind, M_bind, modify, mret, M_ret.
    pose proof (send_same_books c "ping" (JObj [("timestamp", d)]) None t0) as Hs.
    destruct (_send_sse_event c "ping" _ None t0) as [[[]|e|] t1]; cbn [snd] in *.
    + eapply same_books_trans; [by eapply same_books_trans|apply update_client_same_books].
    + by eapply same_books_trans.
    + by eapply same_books_trans.
  - destruct (_ || _).
    + unfold mbind, M_bind, mret, M_ret.
      pose proof (send_same_books c ty d None t0) as Hs.
      destruct (_send_sse_event c ty d None t0) as [[[]|e|] t1]; cbn [snd] in *;
        by eapply same_books_trans.
    + by destruct (String.eqb ty "close").
Qed.

Lemma create_session_sessions t :
  dom (sessions t) ⊆ dom (sessions (snd (_create_session t))).
Proof. unfold _create_session. cbn. rewrite dom_insert. set_solver. Qed.

Lemma initiate_sse_sessions req msgs sid init t :
  dom (sessions t) ⊆ dom (sessions (snd (_initiate_sse req msgs sid init t))).
Proof.
  destruct (_validate_origin req) eqn:Ho.
  2:{ unfold _initiate_sse. by rewrite Ho. }
  rewrite (same_books_sessions _ _ (initiate_sse_books req msgs sid init t Ho)).
  destruct (_ && _); [apply create_session_sessions|done].
Qed.

Lemma handle_sse_sessions req t :
  dom (sessions t) ⊆ dom (sessions (snd (_handle_sse req t))).
Proof.
  unfold _handle_sse.
  destruct (negb (_validate_origin req)); [done|].
  destruct (negb (fst (_validate_protocol_version req))); [done|].
  set (p := if truthy (h_session_id req) then _ else _).
  assert (Hp : dom (sessions (snd p)) = dom (sessions t)).
  { unfold p. destruct (truthy _); [|done].
    by destruct (validate_session_tables (h_session_id req) t) as (_ & _ & _ & _ & -> & _). }
  destruct p as [ok t1]. cbn [snd] in Hp.
  destruct (negb ok); [cbn [snd]; by rewrite Hp|].
  rewrite <- Hp. apply initiate_sse_sessions.
Qed.

Lemma handle_post_sessions req t :
  dom (sessions t) ⊆ dom (sessions (snd (_handle_post req t))).
Proof.
  unfold _handle_post.
  destruct (negb (_validate_origin req)); [done|].
  destruct (_validate_protocol_version req) as [valid ver].
  destruct (negb valid); [done|].
  destruct (negb (str_contains _ _)); [done|].
  destruct (body req) as [e|data]; [done|].
  set (p := if negb (is_initialize_body data) && truthy (h_session_id req) then _ else _).
  assert (Hp : dom (sessions (snd p)) = dom (sessions t)).
  { unfold p. destruct (_ && _); [|done].
    by destruct (validate_session_tables (h_session_id req) t) as (_ & _ & _ & _ & -> & _). }
  destruct p as [ok t1]. cbn [snd] in Hp.
  destruct (negb ok); [cbn [snd]; by rewrite Hp|].
  destruct (classify_spec data t1) as (_ & Hst).
  destruct Hst as (_ & _ & _ & _ & Hs2 & _).
  destruct (classify data t1) as [ms t2]. cbn [snd] in *.
  assert (H3 : dom (sessions (count_messages (length ms) t2)) = dom (sessions t)).
  { cbn. by rewrite Hs2. }
  cbv zeta. rewrite <- H3.
  destruct (_ || _); [done|].
  destruct (str_contains _ _); [apply initiate_sse_sessions|].
  destruct (_ && _); [|done].
  pose proof (create_session_sessions (count_messages (length ms) t2)) as Hcs.
  by destruct (_create_session _).
Qed.

Lemma step_sessions t t' : step t t' -> dom (sessions t) ⊆ dom (sessions t').
Proof.
  intros Hstep. destruct Hstep.
  - apply handle_post_sessions.
  - apply handle_sse_sessions.
  - by rewrite (same_books_sessions _ _ (service_item_same_books c t)).
  - by rewrite (same_books_sessions _ _ (close_client_same_books c t)).
  - by rewrite (same_books_sessions _ _ (send_message_same_books m t)).
  - done.
  - unfold stop. cbv zeta.
    set (t0 := if ping_task _ then _ else _).
    assert (H0 : sessions t0 = sessions t) by (unfold t0; by case_match).
    destruct (close_all_effect (client_refs t0) t0) as (_ & _ & Hs & _). cbv zeta in Hs.
    cbn. by rewrite Hs, H0.
  - done.
  - done.
  - done.
Qed.

Lemma move_sessions t t' : move t t' -> dom (sessions t) ⊆ dom (sessions t').
Proof.
  intros [t0 t1 Hstep|ms t0|t0].
  - by apply step_sessions.
  - by rewrite (same_books_sessions _ _ (send_batch_same_books ms t0)).
  - by rewrite (same_books_sessions _ _ (ping_round_same_books t0)).
Qed.

(** X26.  Sessions never expire.  No operation of the transport
    removes a session: a session that exists is still there after any
    sequence of operations, and its id, if not empty, still
    validates. *)
Theorem sessions_never_expire (t t' : Transport) (sid : string) :
  rtc move t t' -> is_Some (sessions t !! sid) -> sid <> "" ->
  is_Some (sessions t' !! sid) /\
  fst (_validate_session (Some sid) t') = true.
Proof.
  intros Hrtc Hin Hne.
  assert (Hd : dom (sessions t) ⊆ dom (sessions t')).
  { clear Hin. induction Hrtc as [|t1 t2 t3 Hstep _ IH]; [done|].
    etrans; [by apply move_sessions|apply IH]. }
  assert (Hin' : is_Some (sessions t' !! sid)).
  { apply elem_of_dom, Hd, elem_of_dom, Hin. }
  split; [done|]. destruct Hin' as [info Hinfo].
  by rewrite (validate_session_known sid info).
Qed.

(** X27.  An event id names one event.  In every state the operations
    can produce, two events written to streams, of the same connection
    or of different ones, that carry the same event id are the same
    event: they sit at the same position of the same stream. *)
Theorem event_id_names_one_event (t : Transport) (c1 c2 k1 k2 : nat) (e1 e2 : SSEEvent) :
  attainable t ->
  written (response (client_at t c1)) !! k1 = Some e1 ->
  written (response (client_at t c2)) !! k2 = Some e2 ->
  ev_id e1 = ev_id e2 ->
  c1 = c2 /\ k1 = k2.
Proof.
  intros Hcons%attainable_consistent H1 H2 Heq.
  assert (Hb : forall c k e, written (response (client_at t c)) !! k = Some e ->
            c < length (client_objs t) /\ ev_id e = event_id_of (client_id_of (S c)) (S k)).
  { intros c k e Hk.
    assert (Hc : c < length (client_objs t)).
    { destruct (decide (c < length (client_objs t))) as [|Hge]; [done|].
      assert (Hn : client_objs t !! c = None) by (apply lookup_ge_None_2; lia).
      unfold client_at in Hk. rewrite list_lookup_total_alt, Hn in Hk. done. }
    split; [done|].
    pose proof (cons_written t Hcons c Hc) as Hw.
    rewrite (cons_ids t Hcons c Hc) in Hw.
    assert (Hm : map ev_id (written (response (client_at t c))) !! k = Some (ev_id e)).
    { change (map ev_id ?l) with (ev_id <$> l). by rewrite list_lookup_fmap, Hk. }
    rewrite Hw in Hm. unfold generated_ids in Hm.
    change (map ?f ?l) with (f <$> l) in Hm. rewrite list_lookup_fmap in Hm.
    destruct (seq 1 _ !! k) as [n|] eqn:Hn; [|done].
    apply lookup_seq in Hn as [-> _]. cbn in Hm. by injection Hm as ->. }
  destruct (Hb c1 k1 e1 H1) as [_ Hi1]. destruct (Hb c2 k2 e2 H2) as [_ Hi2].
  rewrite Hi1, Hi2 in Heq. apply event_id_of_inj in Heq as [Hc Hk].
  apply client_id_of_inj in Hc. split; lia.
Qed.

(** X28.  A stream opened on a transport that is not running is
    closed at once.  In every state the operations can produce with
    the running flag down (before [start], after [stop]), a GET that
    passes the gates is still given a stream and a new connection id;
    the stream is sent the [connected] event and finished, and the
    connection table is what it was. *)
Theorem stream_on_stopped_transport_is_closed (req : Request) (t : Transport)
    (c : nat) (t' : Transport) :
  attainable t -> running t = false ->
  _handle_sse req t = (Returned (Streaming c), t') ->
  c = length (client_objs t) /\
  client_id (client_at t' c) = client_id_of (client_counter t + 1) /\
  written (response (client_at t' c)) =
    [connected_event (client_id_of (client_counter t + 1)) 1] /\
  eof (response (client_at t' c)) = true /\
  clients t' = clients t.
Proof.
  intros Hcons%attainable_consistent Hrun. unfold _handle_sse.
  destruct (_validate_origin req) eqn:Ho; [|done]. cbn [negb].
  destruct (negb (fst (_validate_protocol_version req))); [done|].
  set (p := if truthy (h_session_id req) then _ else _).
  assert (Hp : clients (snd p) = clients t /\ client_objs (snd p) = client_objs t /\
               event_history (snd p) = event_history t /\ lists (snd p) = lists t /\
               client_counter (snd p) = client_counter t /\ running (snd p) = running t).
  { unfold p. destruct (truthy _); [|done].
    destruct (validate_session_tables (h_session_id req) t)
      as (_ & Hr & Hc & Hob & _ & He & Hl & Hn & _). by split_and!. }
  destruct p as [ok t1]. cbn [snd] in Hp.
  destruct Hp as (Hc1 & Ho1 & He1 & Hl1 & Hn1 & Hr1).
  destruct (negb ok); [done|].
  assert (Hcons1 : consistent t1) by (by eapply consistent_fields; [..|exact Hcons]).
  rewrite initiate_sse_unfold by done. cbv zeta. cbn [andb fst snd].
  rewrite (opening_registered (h_session_id req) req [] t1 Hcons1). cbn [foldl].
  rewrite Ho1, Hn1.
  set (new := length (client_objs t)).
  set (cid := client_id_of (client_counter t + 1)).
  set (r0 := registered (h_session_id req) t1).
  destruct (registered_unfold (h_session_id req) t1) as (_ & Hro & Hrc & _).
  fold r0 in Hro, Hrc. rewrite Ho1, Hn1, Hc1 in *. fold new cid in Hrc.
  assert (Hnew : client_at r0 new = new_client cid (h_session_id req) (clock t1)).
  { unfold client_at. rewrite Hro. by rewrite lookup_total_app_r, Nat.sub_diag. }
  assert (Hc0 : new < length (client_objs r0)).
  { rewrite Hro, length_app. cbn. unfold new. lia. }
  destruct (send_client new "connected" (connected_payload cid) None r0 Hc0)
    as (Hlen3 & Hid & Hcl & _ & _ & Hok & _).
  cbv zeta in Hok. destruct Hok as [Hret Hw]; [by rewrite Hnew|].
  pose proof (send_same_books new "connected" (connected_payload cid) None r0)
    as (_ & Hrun3 & _).
  pose proof (send_clients new "connected" (connected_payload cid) None r0) as Hc3.
  destruct (_send_sse_event new "connected" (connected_payload cid) None r0) as [o t3].
  cbn [fst snd] in *. subst o.
  assert (Hlc : loop_continues new t3 = false).
  { unfold loop_continues. rewrite Hrun3. change (running r0) with (running t1).
    by rewrite Hr1, Hrun. }
  rewrite Hlc. intros [= <- <-].
  rewrite Hnew in Hid, Hcl, Hw. cbn [client_id response new_client closing written app] in *.
  destruct (close_client_effect new t3) as (Hcc & Hids & _). cbv zeta in Hcc, Hids.
  split_and!.
  - done.
  - by rewrite Hids.
  - rewrite written_close_client, Hw. cbn [sent_id]. by rewrite Hnew.
  - unfold _close_client. cbv zeta.
    set (t4 := match clients t3 !! _ with Some _ => _ | None => t3 end).
    assert (H2 : client_objs t4 = client_objs t3) by (unfold t4; by case_match).
    assert (H4 : client_at t4 new = client_at t3 new) by (unfold client_at; by rewrite H2).
    rewrite H4, Hcl. cbn [negb].
    by rewrite client_at_update_eq by (by rewrite H2, Hlen3).
  - rewrite Hcc, Hid, Hc3, Hrc. rewrite delete_insert_id; [done|].
    destruct (clients t !! cid) as [c'|] eqn:Hk; [|done].
    destruct (cons_registry t Hcons cid c' Hk) as [Hlt Hid'].
    rewrite (cons_ids t Hcons c' Hlt) in Hid'. unfold cid in Hid'.
    apply client_id_of_inj in Hid'. pose proof (cons_counter t Hcons). lia.
Qed.

End Sessions.

Section Delivery.

Context `{Library}.


End Delivery.

(** A session, and the transport stopped. *)
Lemma sessions_never_expire_witness :
  is_Some (sessions (stop initialized) !! "session-0") /\
  fst (_validate_session (Some "session-0") (stop initialized)) = true.
Proof.
  apply (sessions_never_expire (H := mcp_types) initialized (stop initialized) "session-0").
  - apply rtc_once. apply move_step. apply step_stop.
  - apply (bool_decide_unpack _). vm_compute. exact I.
  - discriminate.
Defined.

(** The second event of the reconnect scenario, and its seventh. *)
Lemma event_id_names_one_event_witness :
  written (response (client_at disconnected 0)) !! 1 = Some (tick_event 2) /\
  (0 = 0 /\ 1 = 1) /\
  ev_id (tick_event 2) <> ev_id (tick_event 7).
Proof.
  split; [reflexivity|]. split.
  - apply (event_id_names_one_event (H := mcp_types) disconnected 0 0 1 1
             (tick_event 2) (tick_event 2)
             (reachable_attainable _ disconnected_reachable)); reflexivity.
  - intros Heq.
    destruct (event_id_names_one_event (H := mcp_types) disconnected 0 0 1 6
                (tick_event 2) (tick_event 7)
                (reachable_attainable _ disconnected_reachable) eq_refl eq_refl Heq)
      as [_ Hk].
    discriminate Hk.
Defined.

(** A GET that arrives before [start]. *)
Lemma stream_on_stopped_transport_is_closed_witness :
  eof (response (client_at (snd (_handle_sse (H := mcp_types) (get_mcp None) (__init__ None))) 0))
    = true /\
  clients (snd (_handle_sse (H := mcp_types) (get_mcp None) (__init__ None))) = ∅.
Proof.
  destruct (stream_on_stopped_transport_is_closed (H := mcp_types) (get_mcp None)
              (__init__ None) 0
              (snd (_handle_sse (H := mcp_types) (get_mcp None) (__init__ None))))
    as (_ & _ & _ & He & Hc).
  - exists None. apply rtc_refl.
  - reflexivity.
  - vm_compute. reflexivity.
  - split; [exact He|exact Hc].
Defined.

